(** * Portfolio optimisation engine: a shallow embedding of its numerical core

    The development follows the four numerical modules of the repository:
    [src/metrics.py], [src/optimizer.py], [src/monte_carlo.py] and
    [src/rebalancer.py].

    Numbers.  A NumPy [float64] is a value of [float64] below: a finite
    number, one of the two infinities, or NaN.  Finite numbers are exact
    rationals ([Qc], canonical fractions, so that [=] is the equality of
    numbers); rounding, overflow and the sign of zero are not modelled.  The
    special values follow IEEE-754 as NumPy applies it: a division by zero
    gives an infinity or NaN, NaN propagates and compares false.  An equation
    between finite results is therefore one of exact arithmetic, which the
    float64 results of the code match up to rounding.  The risk measures are
    embedded a second time on binary64 numbers (module [B64]), to show where
    rounding changes the order of two results.

    Arrays.  One-dimensional arrays and pandas [Series] are lists, matrices
    and [DataFrame]s are lists of rows.  In-place updates of an array are
    list updates by index.

    Effects.  A Python exception is the [Raise] case of [result].  The SciPy
    solver is a parameter of the optimiser.  The global random generator is
    an explicit state: a stream of standard normal deviates and a position.

    Text.  Strings hold ASCII characters. *)

From Stdlib Require Import QArith Qcanon Qround ZArith List String Ascii Lia Lqa Bool.
From Stdlib Require Import Sorted Permutation.
From Stdlib Require PrimFloat Uint63.
From stdpp Require Import base list strings pretty.
Import ListNotations.

Local Open Scope Qc_scope.
Local Open Scope list_scope.

Set Warnings "-abstract-large-number".
Set Warnings "-inexact-float".

(** ** Exceptions of the Python code *)

Inductive exn : Type :=
| ValueError (msg : string)
| TypeError (msg : string)
| IndexError (msg : string)
| ZeroDivisionError.

Inductive result (A : Type) : Type :=
| Ok (a : A)
| Raise (e : exn).
Arguments Ok {A} a.
Arguments Raise {A} e.

#[global] Instance result_ret : MRet result := fun _ a => Ok a.
#[global] Instance result_bind : MBind result := fun _ _ k r =>
  match r with
  | Ok a => k a
  | Raise e => Raise e
  end.

#[global] Instance result_fmap : FMap result := fun _ _ f r =>
  match r with
  | Ok a => Ok (f a)
  | Raise e => Raise e
  end.

(** ** The float64 model *)

Module F64.

Inductive float64 : Type :=
| Finite (q : Qc)
| PosInf
| NegInf
| NaN.

Definition Qc_of_nat (n : nat) : Qc := Q2Qc (inject_Z (Z.of_nat n)).

Definition of_Z (z : Z) : float64 := Finite (Q2Qc (inject_Z z)).
Definition of_nat (n : nat) : float64 := Finite (Qc_of_nat n).
Definition frac (n : Z) (d : positive) : float64 := Finite (Q2Qc (n # d)).

Definition zero : float64 := Finite 0.
Definition one : float64 := Finite 1.

Definition is_nan (x : float64) : bool :=
  match x with NaN => true | _ => false end.

Definition is_finite (x : float64) : bool :=
  match x with Finite _ => true | _ => false end.

(** Sign of a value: [Gt] positive, [Lt] negative, [Eq] zero (and NaN). *)
Definition fsgn (x : float64) : comparison :=
  match x with
  | Finite q => q ?= 0
  | PosInf => Gt
  | NegInf => Lt
  | NaN => Eq
  end.

Definition sgn_mul (a b : comparison) : comparison :=
  match a, b with
  | Eq, _ | _, Eq => Eq
  | Gt, Gt | Lt, Lt => Gt
  | Gt, Lt | Lt, Gt => Lt
  end.

(** The infinity of a given sign; the sign [Eq] stands for the invalid
    operations (0 * inf, 0 / 0), whose result is NaN. *)
Definition inf_of_sgn (c : comparison) : float64 :=
  match c with
  | Gt => PosInf
  | Lt => NegInf
  | Eq => NaN
  end.

Definition fopp (x : float64) : float64 :=
  match x with
  | Finite q => Finite (- q)
  | PosInf => NegInf
  | NegInf => PosInf
  | NaN => NaN
  end.

Definition fabs (x : float64) : float64 :=
  match x with
  | Finite q => Finite (if Qclt_le_dec q 0 then - q else q)
  | PosInf | NegInf => PosInf
  | NaN => NaN
  end.

Definition fadd (x y : float64) : float64 :=
  match x, y with
  | NaN, _ | _, NaN => NaN
  | Finite a, Finite b => Finite (a + b)
  | PosInf, NegInf | NegInf, PosInf => NaN
  | PosInf, _ | _, PosInf => PosInf
  | NegInf, _ | _, NegInf => NegInf
  end.

Definition fsub (x y : float64) : float64 := fadd x (fopp y).

Definition fmul (x y : float64) : float64 :=
  match x, y with
  | NaN, _ | _, NaN => NaN
  | Finite a, Finite b => Finite (a * b)
  | _, _ => inf_of_sgn (sgn_mul (fsgn x) (fsgn y))
  end.

(** NumPy division: a finite value over zero is an infinity of the sign of
    the numerator, and 0 / 0 is NaN (a RuntimeWarning, not an exception). *)
Definition fdiv (x y : float64) : float64 :=
  match x, y with
  | NaN, _ | _, NaN => NaN
  | Finite a, Finite b =>
      if Qc_eq_dec b 0 then inf_of_sgn (a ?= 0) else Finite (a / b)
  | Finite _, _ => Finite 0
  | _, Finite b => inf_of_sgn (sgn_mul (fsgn x) (if Qclt_le_dec b 0 then Lt else Gt))
  | _, _ => NaN
  end.

(** Comparisons; every comparison with NaN is false. *)
Definition fltb (x y : float64) : bool :=
  match x, y with
  | Finite a, Finite b => if Qclt_le_dec a b then true else false
  | NegInf, Finite _ | NegInf, PosInf | Finite _, PosInf => true
  | _, _ => false
  end.

Definition feqb (x y : float64) : bool :=
  match x, y with
  | Finite a, Finite b => if Qc_eq_dec a b then true else false
  | PosInf, PosInf | NegInf, NegInf => true
  | _, _ => false
  end.

Definition fleb (x y : float64) : bool := fltb x y || feqb x y.
Definition fgtb (x y : float64) : bool := fltb y x.

(** Square root of a non-negative rational: exact when the root is rational,
    otherwise the root truncated to at least 53 significant bits. *)
Definition Qc_sqrt (q : Qc) : Qc :=
  let n := Qnum q in
  let d := Z.pos (Qden q) in
  if (n <=? 0)%Z then 0
  else if ((Z.sqrt n * Z.sqrt n =? n) && (Z.sqrt d * Z.sqrt d =? d))%Z
  then Q2Qc (Z.sqrt n # Z.to_pos (Z.sqrt d))
  else
    let k := Z.max 0 (54 + (Z.log2 d - Z.log2 n) / 2) in
    Q2Qc (Z.sqrt (n * 4 ^ k / d) # Z.to_pos (2 ^ k)).

(** [np.sqrt]: NaN on negative input. *)
Definition fsqrt (x : float64) : float64 :=
  match x with
  | Finite q => if Qclt_le_dec q 0 then NaN else Finite (Qc_sqrt q)
  | PosInf => PosInf
  | NegInf | NaN => NaN
  end.

End F64.
Import F64.

Declare Scope f64_scope.
Delimit Scope f64_scope with f64.
Bind Scope f64_scope with float64.
Infix "+" := fadd : f64_scope.
Infix "-" := fsub : f64_scope.
Infix "*" := fmul : f64_scope.
Infix "/" := fdiv : f64_scope.
Notation "- x" := (fopp x) : f64_scope.
Infix "<?" := fltb : f64_scope.
Infix "<=?" := fleb : f64_scope.
Infix ">?" := fgtb : f64_scope.
Infix "=?" := feqb : f64_scope.

#[global] Instance exn_eq_dec : EqDecision exn.
Proof. solve_decision. Defined.
#[global] Instance result_eq_dec `{EqDecision A} : EqDecision (result A).
Proof. solve_decision. Defined.
#[global] Instance float64_eq_dec : EqDecision float64.
Proof. solve_decision. Defined.

Local Open Scope f64_scope.

(** ** NumPy and pandas primitives used by the code

    One-dimensional arrays and pandas [Series] are lists; a [DataFrame] is the
    list of its rows.  The callers pass arrays of one length (the number of
    assets); element-wise operations pair the elements position by position. *)

Module Np.

Abbreviation ndarray := (list float64).
Abbreviation matrix := (list (list float64)).

(** [np.sum]: the sum of the elements, 0.0 for an empty array. *)
Definition sum (a : ndarray) : float64 := foldl fadd zero a.

(** Element-wise [a * b], [a - b], [a / s] and [np.abs]. *)
Definition mul (a b : ndarray) : ndarray := zip_with fmul a b.
Definition sub (a b : ndarray) : ndarray := zip_with fsub a b.
Definition div_scalar (a : ndarray) (s : float64) : ndarray := map (fun x => x / s) a.
Definition abs (a : ndarray) : ndarray := map fabs a.

(** [np.dot] of two vectors, and of a matrix with a vector. *)
Definition dot (a b : ndarray) : float64 := sum (mul a b).
Definition matvec (m : matrix) (v : ndarray) : ndarray := map (fun row => dot row v) m.

(** [np.any] over a boolean array. *)
Definition any (b : list bool) : bool := existsb id b.

(** [np.mean]: NaN for an empty array. *)
Definition mean (a : ndarray) : float64 :=
  match a with
  | [] => NaN
  | _ :: _ => sum a / of_nat (length a)
  end.

(** [np.max]: the largest element, NaN as soon as one element is NaN;
    an empty array raises ValueError. *)
Definition max2 (x y : float64) : float64 :=
  if is_nan x || is_nan y then NaN else if x <? y then y else x.

Definition max (a : ndarray) : result float64 :=
  match a with
  | [] => Raise (ValueError "zero-size array to reduction operation maximum which has no identity")
  | x :: a' => Ok (foldl max2 x a')
  end.

(** Sorting in ascending order (insertion into a sorted prefix). *)
Fixpoint insert_sorted (x : float64) (s : ndarray) : ndarray :=
  match s with
  | [] => [x]
  | y :: s' => if x <=? y then x :: y :: s' else y :: insert_sorted x s'
  end.

Definition sort (a : ndarray) : ndarray := foldr insert_sorted [] a.

Definition floor_nat (q : Qc) : nat := Z.to_nat (Qfloor q).

(** [np.percentile(a, q)] with the default method, linear interpolation
    between the two order statistics around the virtual index
    [(n - 1) * q / 100] of the sorted array: [s[lo] + (s[hi] - s[lo]) * g],
    where [lo] is the floor of the index and [g] its fractional part.
    A percentile outside [0, 100] raises ValueError; an empty array raises
    IndexError (NumPy 1.22 and later); NaN in the data gives NaN. *)
Definition percentile (a : ndarray) (q : float64) : result float64 :=
  if negb ((zero <=? q) && (q <=? of_Z 100)) then
    Raise (ValueError "Percentiles must be in the range [0, 100]")
  else if existsb is_nan a then Ok NaN
  else
    match a, q with
    | [], _ => Raise (IndexError "index -1 is out of bounds for axis 0 with size 0")
    | _ :: _, Finite qq =>
        let s := sort a in
        let n := length s in
        let vi := (Qc_of_nat (n - 1) * (qq / Q2Qc (inject_Z 100)))%Qc in
        let lo := floor_nat vi in
        let hi := Nat.min (lo + 1) (n - 1) in
        let g := (vi - Qc_of_nat lo)%Qc in
        let lower := nth lo s NaN in
        let upper := nth hi s NaN in
        Ok (lower + (upper - lower) * Finite g)
    | _ :: _, _ => Ok NaN
    end.

(** [a * s] with a scalar, and element-wise [a / b]. *)
Definition mul_scalar (a : ndarray) (s : float64) : ndarray := map (fun x => x * s) a.
Definition div (a b : ndarray) : ndarray := zip_with fdiv a b.

(** [np.linspace(start, stop, num)]: [num] evenly spaced values from [start]
    to [stop]; the last one is [stop] itself. *)
Definition linspace (start stop : float64) (num : nat) : ndarray :=
  let div := (num - 1)%nat in
  let delta := stop - start in
  let step := delta / of_nat div in
  map (fun i : nat =>
         if ((1 <? num) && (i =? div))%nat then stop
         else if (0 <? div)%nat then
           if step =? zero then of_nat i / of_nat div * delta + start
           else of_nat i * step + start
         else of_nat i * delta + start)
      (seq 0 num).

End Np.

Module Pd.

Abbreviation Series := (list float64).
Abbreviation DataFrame := (list (list float64)).

Definition dropna (s : Series) : Series := List.filter (fun x => negb (is_nan x)) s.

(** [Series.sum()] and [DataFrame.sum(axis=1)]: NaN entries are skipped. *)
Definition sum (s : Series) : float64 := Np.sum (dropna s).
Definition sum_axis1 (df : DataFrame) : Series := map sum df.

(** [df * weights]: every row is multiplied element-wise by the array. *)
Definition mul_row (df : DataFrame) (w : Np.ndarray) : DataFrame :=
  map (fun row => Np.mul row w) df.

(** [Series.mean()]: mean of the non-NaN entries, NaN when there is none. *)
Definition mean (s : Series) : float64 :=
  let v := dropna s in
  match v with
  | [] => NaN
  | _ :: _ => Np.sum v / of_nat (length v)
  end.

(** [Series.std()]: sample standard deviation (ddof = 1) of the non-NaN
    entries; NaN when fewer than two of them exist. *)
Definition std (s : Series) : float64 :=
  let v := dropna s in
  let count := length v in
  if (count <=? 1)%nat then NaN
  else
    let avg := Np.sum v / of_nat count in
    let sqr := map (fun x => (avg - x) * (avg - x)) v in
    fsqrt (Np.sum sqr / of_nat (count - 1)).

(** Boolean indexing [s[mask]]. *)
Definition select (p : float64 -> bool) (s : Series) : Series := List.filter p s.

(** [Series.fillna(v)]. *)
Definition fillna (v : float64) (s : Series) : Series :=
  map (fun x => if is_nan x then v else x) s.

(** [Series.cumprod()]: the running product; a NaN entry stays NaN and is
    left out of the product. *)
Fixpoint cumprod_from (acc : float64) (s : Series) : Series :=
  match s with
  | [] => []
  | x :: s' =>
      if is_nan x then NaN :: cumprod_from acc s'
      else (acc * x) :: cumprod_from (acc * x) s'
  end.

Definition cumprod (s : Series) : Series := cumprod_from one s.

(** [Series.expanding().max()]: the largest non-NaN entry so far, NaN while
    there is none. *)
Definition max_so_far (best : option float64) (x : float64) : option float64 :=
  if is_nan x then best
  else match best with
       | None => Some x
       | Some m => Some (if m <? x then x else m)
       end.

Fixpoint expanding_max_from (best : option float64) (s : Series) : Series :=
  match s with
  | [] => []
  | x :: s' =>
      default NaN (max_so_far best x) :: expanding_max_from (max_so_far best x) s'
  end.

Definition expanding_max (s : Series) : Series := expanding_max_from None s.

(** [Series.min()]: the smallest non-NaN entry, NaN when there is none. *)
Definition min (s : Series) : float64 :=
  match dropna s with
  | [] => NaN
  | x :: v => foldl (fun m y => if y <? m then y else m) x v
  end.

(** The position of the first best entry from position [pos] on, where
    [better x b] says that [x] beats the best entry [b] so far. *)
Fixpoint argbest (better : float64 -> float64 -> bool) (s : Series) (pos : nat)
    (best : option (nat * float64)) : option (nat * float64) :=
  match s with
  | [] => best
  | x :: s' =>
      argbest better s' (S pos)
        (match best with
         | None => Some (pos, x)
         | Some (_, b) => if better x b then Some (pos, x) else best
         end)
  end.

(** [Series.idxmin()] and [Series.idxmax()], as positions.  An empty series
    raises ValueError.  NaN entries are skipped the way pandas does it: they
    count as plus infinity in the search for the minimum and as minus
    infinity in the search for the maximum, and the first position of the
    extreme value is taken; a series of NaN only has no position (pandas 2
    returns NaN for it). *)
Definition idxmin (s : Series) : result (option nat) :=
  match s with
  | [] => Raise (ValueError "attempt to get argmin of an empty sequence")
  | _ :: _ =>
      if forallb is_nan s then Ok None
      else Ok (fst <$> argbest fltb (fillna PosInf s) 0 None)
  end.

Definition idxmax (s : Series) : result (option nat) :=
  match s with
  | [] => Raise (ValueError "attempt to get argmax of an empty sequence")
  | _ :: _ =>
      if forallb is_nan s then Ok None
      else Ok (fst <$> argbest (fun x b => b <? x) (fillna NegInf s) 0 None)
  end.

(** The index of a series decides what [s[:k]] means: with the default
    integer index (a series made from an array) the slice is positional and
    stops before position [k]; with a label index (dates) it runs up to the
    label and includes it. *)
Inductive index_kind : Type := RangeIndex | LabelIndex.

Definition slice_to (index : index_kind) (k : nat) (s : Series) : Series :=
  match index with
  | RangeIndex => take k s
  | LabelIndex => take (S k) s
  end.

End Pd.

(** ** src/metrics.py *)

Module PortfolioMetrics.

Definition portfolio_return (weights mean_returns : Np.ndarray) : float64 :=
  Np.sum (Np.mul weights mean_returns).

Definition portfolio_volatility (weights : Np.ndarray) (cov_matrix : Np.matrix) : float64 :=
  fsqrt (Np.dot weights (Np.matvec cov_matrix weights)).

Definition sharpe_ratio (weights mean_returns : Np.ndarray) (cov_matrix : Np.matrix)
    (risk_free_rate : float64) : float64 :=
  let portfolio_ret := portfolio_return weights mean_returns in
  let portfolio_vol := portfolio_volatility weights cov_matrix in
  (portfolio_ret - risk_free_rate) / portfolio_vol.

Definition calculate_portfolio_returns (weights : Np.ndarray) (returns : Pd.DataFrame)
    : Pd.Series :=
  Pd.sum_axis1 (Pd.mul_row returns weights).

Definition sortino_ratio (weights mean_returns : Np.ndarray) (returns : Pd.DataFrame)
    (risk_free_rate : float64) : float64 :=
  let portfolio_ret := Np.sum (Np.mul weights mean_returns) in
  let portfolio_returns := Pd.sum_axis1 (Pd.mul_row returns weights) in
  let downside_returns := Pd.select (fun r => r <? zero) portfolio_returns in
  let downside_std := Pd.std downside_returns * fsqrt (of_Z 252) in
  if downside_std =? zero then PosInf
  else (portfolio_ret - risk_free_rate) / downside_std.

Definition value_at_risk (weights : Np.ndarray) (returns : Pd.DataFrame)
    (confidence_level : float64) : result float64 :=
  let portfolio_returns := Pd.sum_axis1 (Pd.mul_row returns weights) in
  Np.percentile portfolio_returns ((one - confidence_level) * of_Z 100).

Definition conditional_value_at_risk (weights : Np.ndarray) (returns : Pd.DataFrame)
    (confidence_level : float64) : result float64 :=
  let portfolio_returns := Pd.sum_axis1 (Pd.mul_row returns weights) in
  var ← value_at_risk weights returns confidence_level;
  mret (Pd.mean (Pd.select (fun r => r <=? var) portfolio_returns)).

(** [maximum_drawdown]; [index] is the kind of index of [returns], the
    default integer index when an array is passed.  The peak and the trough
    are positions in the series.  When every drawdown is NaN, [idxmin] has no
    label to give and the slice up to it raises TypeError. *)
Definition maximum_drawdown (index : Pd.index_kind) (returns : Pd.Series)
    : result (float64 * option nat * nat) :=
  let cumulative := Pd.cumprod (map (fun r => one + r) returns) in
  let running_max := Pd.expanding_max cumulative in
  let drawdown := Np.div (Np.sub cumulative running_max) running_max in
  let max_dd := Pd.min drawdown in
  trough_date ← Pd.idxmin drawdown;
  match trough_date with
  | None => Raise (TypeError "cannot do slice indexing with these indexers [nan] of type float")
  | Some trough =>
      peak_date ← Pd.idxmax (Pd.slice_to index trough cumulative);
      mret (max_dd, peak_date, trough)
  end.

Definition calmar_ratio (index : Pd.index_kind) (weights mean_returns : Np.ndarray)
    (returns : Pd.DataFrame) : result float64 :=
  let portfolio_ret := Np.sum (Np.mul weights mean_returns) in
  let portfolio_returns := Pd.sum_axis1 (Pd.mul_row returns weights) in
  dd ← maximum_drawdown index portfolio_returns;
  let max_dd := fst (fst dd) in
  if max_dd =? zero then mret PosInf
  else mret (portfolio_ret / fabs max_dd).

(** [information_ratio]; the two series carry the same index, so that the
    difference pairs them period by period. *)
Definition information_ratio (portfolio_returns benchmark_returns : Pd.Series) : float64 :=
  let excess_returns := Np.sub portfolio_returns benchmark_returns in
  let tracking_error := Pd.std excess_returns * fsqrt (of_Z 252) in
  if tracking_error =? zero then PosInf
  else (Pd.mean excess_returns * of_Z 252) / tracking_error.

Record AllMetrics : Type := {
  Expected_Return : float64;
  Volatility : float64;
  Sharpe_Ratio : float64;
  Sortino_Ratio : float64;
  Calmar_Ratio : float64;
  Maximum_Drawdown : float64;
  VaR_95 : float64;
  CVaR_95 : float64
}.

Definition get_all_metrics (index : Pd.index_kind) (weights mean_returns : Np.ndarray)
    (cov_matrix : Np.matrix) (returns : Pd.DataFrame) (risk_free_rate : float64)
    : result AllMetrics :=
  let portfolio_ret := portfolio_return weights mean_returns in
  let portfolio_vol := portfolio_volatility weights cov_matrix in
  let sharpe := sharpe_ratio weights mean_returns cov_matrix risk_free_rate in
  let portfolio_returns := calculate_portfolio_returns weights returns in
  dd ← maximum_drawdown index portfolio_returns;
  let max_dd := fst (fst dd) in
  let sortino := sortino_ratio weights mean_returns returns risk_free_rate in
  calmar ← calmar_ratio index weights mean_returns returns;
  var_95 ← value_at_risk weights returns (frac 95 100);
  cvar_95 ← conditional_value_at_risk weights returns (frac 95 100);
  mret {| Expected_Return := portfolio_ret;
          Volatility := portfolio_vol;
          Sharpe_Ratio := sharpe;
          Sortino_Ratio := sortino;
          Calmar_Ratio := calmar;
          Maximum_Drawdown := max_dd;
          VaR_95 := var_95;
          CVaR_95 := cvar_95 |}.

End PortfolioMetrics.

(** ** Python scalars and strings *)

Module Py.

(** Python [a / b] on floats raises where NumPy would return inf or NaN. *)
Definition truediv (a b : float64) : result float64 :=
  if b =? zero then Raise ZeroDivisionError else Ok (a / b).

(** Built-in [max(a, b)]: [b] when it compares greater, else [a]. *)
Definition max (a b : float64) : float64 := if b >? a then b else a.

(** [str.lower()] on ASCII text: the letters A-Z move to a-z. *)
Definition lower_ascii (c : ascii) : ascii :=
  let n := nat_of_ascii c in
  if ((65 <=? n) && (n <=? 90))%nat then ascii_of_nat (n + 32) else c.

Fixpoint lower (s : string) : string :=
  match s with
  | EmptyString => EmptyString
  | String c s' => String (lower_ascii c) (lower s')
  end.

(** A [dict] with string keys, in insertion order. *)
Definition dict (V : Type) : Type := list (string * V).

Definition keys {V : Type} (d : dict V) : list string := map fst d.

Fixpoint get {V : Type} (d : dict V) (k : string) : option V :=
  match d with
  | [] => None
  | (k', v) :: d' => if String.eqb k' k then Some v else get d' k
  end.

(** [d[k] = v]: the value of an existing key is replaced in place, a new key
    goes to the end. *)
Fixpoint set {V : Type} (d : dict V) (k : string) (v : V) : dict V :=
  match d with
  | [] => [(k, v)]
  | (k', v') :: d' => if String.eqb k' k then (k', v) :: d' else (k', v') :: set d' k v
  end.

(** [dict(pairs)]. *)
Definition dict_of {V : Type} (pairs : list (string * V)) : dict V :=
  foldl (fun d kv => set d (fst kv) (snd kv)) [] pairs.

(** [str(n)] of a non-negative integer, as an f-string prints it, and
    [int(x)] of a finite number: the fraction is cut off. *)
Definition str_of_nat (n : nat) : string := pretty n.
Definition str_of_int (z : Z) : string := pretty z.
Definition int_of (q : Qc) : Z := Z.quot (Qnum q) (Z.pos (Qden q)).

End Py.

(** ** scipy.optimize.minimize, the external solver

    The solver is a parameter of the optimiser: a function from the objective,
    the starting point, the bounds and the constraints to an [OptimizeResult],
    or an exception for arguments it rejects. *)

Module Scipy.

Inductive constraint_type : Type := eq_constraint | ineq_constraint.

Record constraint : Type := {
  type : constraint_type;
  fun_ : Np.ndarray -> float64
}.

Record OptimizeResult : Type := {
  x : Np.ndarray;
  success : bool;
  status : Z;
  message : string;
  nit : nat
}.

Definition minimize_t : Type :=
  (Np.ndarray -> float64) -> Np.ndarray -> list (float64 * float64) ->
  list constraint -> result OptimizeResult.

End Scipy.

(** ** src/optimizer.py *)

Module PortfolioOptimizer.

Record t : Type := {
  mean_returns : Np.ndarray;
  cov_matrix : Np.matrix;
  risk_free_rate : float64;
  n_assets : nat
}.

Definition __init__ (mean_returns : Np.ndarray) (cov_matrix : Np.matrix)
    (risk_free_rate : float64) : result t :=
  let n := length mean_returns in
  if (n =? 0)%nat then
    Raise (ValueError "No assets available for optimization. Please check your ticker symbols.")
  else
    Ok {| mean_returns := mean_returns; cov_matrix := cov_matrix;
          risk_free_rate := risk_free_rate; n_assets := n |}.

Definition _get_constraints (self : t) (allow_short : bool) : list Scipy.constraint :=
  [ {| Scipy.type := Scipy.eq_constraint;
       Scipy.fun_ := fun x => Np.sum x - one |} ].

Definition _get_bounds (self : t) (allow_short : bool) (min_weight max_weight : float64)
    : list (float64 * float64) :=
  if allow_short then replicate (n_assets self) (of_Z (-1), of_Z 1)
  else replicate (n_assets self) (min_weight, max_weight).

(** The three-entry metrics dictionary every objective returns. *)
Definition metrics_at (self : t) (weights : Np.ndarray) : Py.dict float64 :=
  [ ("Expected Return"%string,
      PortfolioMetrics.portfolio_return weights (mean_returns self));
    ("Volatility"%string,
      PortfolioMetrics.portfolio_volatility weights (cov_matrix self));
    ("Sharpe Ratio"%string,
      PortfolioMetrics.sharpe_ratio weights (mean_returns self) (cov_matrix self)
        (risk_free_rate self)) ].

(** The starting point shared by the four solver-backed objectives. *)
Definition initial_guess (self : t) (min_weight : float64) : result Np.ndarray :=
  if min_weight * of_nat (n_assets self) >? one then
    v ← Py.truediv one (of_nat (n_assets self));
    mret (replicate (n_assets self) v)
  else
    v ← Py.truediv one (of_nat (n_assets self));
    let x0 := replicate (n_assets self) (Py.max min_weight v) in
    mret (Np.div_scalar x0 (Np.sum x0)).

Definition neg_sharpe (self : t) (weights : Np.ndarray) : float64 :=
  - PortfolioMetrics.sharpe_ratio weights (mean_returns self) (cov_matrix self)
      (risk_free_rate self).

Definition portfolio_vol (self : t) (weights : Np.ndarray) : float64 :=
  PortfolioMetrics.portfolio_volatility weights (cov_matrix self).

Definition neg_return (self : t) (weights : Np.ndarray) : float64 :=
  - PortfolioMetrics.portfolio_return weights (mean_returns self).

Definition risk_parity_objective (self : t) (weights : Np.ndarray) : float64 :=
  let portfolio_vol := PortfolioMetrics.portfolio_volatility weights (cov_matrix self) in
  let marginal_contrib := Np.matvec (cov_matrix self) weights in
  let risk_contrib := Np.div_scalar (Np.mul weights marginal_contrib) portfolio_vol in
  let target_risk := portfolio_vol / of_nat (n_assets self) in
  Np.sum (map (fun rc => (rc - target_risk) * (rc - target_risk)) risk_contrib).

Section Solver.

Variable minimize : Scipy.minimize_t.

Definition optimize_max_sharpe (self : t) (allow_short : bool)
    (min_weight max_weight : float64) : result (Np.ndarray * Py.dict float64) :=
  x0 ← initial_guess self min_weight;
  result ← minimize (neg_sharpe self) x0
             (_get_bounds self allow_short min_weight max_weight)
             (_get_constraints self allow_short);
  let weights := Scipy.x result in
  mret (weights, metrics_at self weights).

Definition optimize_min_volatility (self : t) (allow_short : bool)
    (min_weight max_weight : float64) : result (Np.ndarray * Py.dict float64) :=
  x0 ← initial_guess self min_weight;
  result ← minimize (portfolio_vol self) x0
             (_get_bounds self allow_short min_weight max_weight)
             (_get_constraints self allow_short);
  let weights := Scipy.x result in
  mret (weights, metrics_at self weights).

Definition optimize_max_return (self : t) (target_volatility : option float64)
    (allow_short : bool) (min_weight max_weight : float64)
    : result (Np.ndarray * Py.dict float64) :=
  x0 ← initial_guess self min_weight;
  let constraints := _get_constraints self allow_short in
  let constraints :=
    match target_volatility with
    | Some tv =>
        constraints ++
        [ {| Scipy.type := Scipy.ineq_constraint;
             Scipy.fun_ := fun x =>
               tv - PortfolioMetrics.portfolio_volatility x (cov_matrix self) |} ]
    | None => constraints
    end in
  result ← minimize (neg_return self) x0
             (_get_bounds self allow_short min_weight max_weight)
             constraints;
  let weights := Scipy.x result in
  mret (weights, metrics_at self weights).

Definition optimize_risk_parity (self : t) (min_weight max_weight : float64)
    : result (Np.ndarray * Py.dict float64) :=
  x0 ← initial_guess self min_weight;
  result ← minimize (risk_parity_objective self) x0
             (_get_bounds self false min_weight max_weight)
             (_get_constraints self false);
  let weights := Scipy.x result in
  mret (weights, metrics_at self weights).

End Solver.

Definition optimize_equal_weight (self : t) : result (Np.ndarray * Py.dict float64) :=
  v ← Py.truediv one (of_nat (n_assets self));
  let weights := replicate (n_assets self) v in
  mret (weights, metrics_at self weights).

(** The keyword arguments a caller forwards through [optimize]:
    the four names some objective accepts, and any other names. *)
Record kwargs : Type := {
  kw_allow_short : option bool;
  kw_min_weight : option float64;
  kw_max_weight : option float64;
  kw_target_volatility : option (option float64);
  kw_other : list string
}.

Definition no_kwargs : kwargs :=
  {| kw_allow_short := None; kw_min_weight := None; kw_max_weight := None;
     kw_target_volatility := None; kw_other := [] |}.

Definition unexpected_keyword : exn :=
  TypeError "got an unexpected keyword argument".

Definition call_max_sharpe (minimize : Scipy.minimize_t) (self : t) (kw : kwargs)
    : result (Np.ndarray * Py.dict float64) :=
  match kw_target_volatility kw, kw_other kw with
  | None, [] =>
      optimize_max_sharpe minimize self (default false (kw_allow_short kw))
        (default zero (kw_min_weight kw)) (default one (kw_max_weight kw))
  | _, _ => Raise unexpected_keyword
  end.

Definition call_min_volatility (minimize : Scipy.minimize_t) (self : t) (kw : kwargs)
    : result (Np.ndarray * Py.dict float64) :=
  match kw_target_volatility kw, kw_other kw with
  | None, [] =>
      optimize_min_volatility minimize self (default false (kw_allow_short kw))
        (default zero (kw_min_weight kw)) (default one (kw_max_weight kw))
  | _, _ => Raise unexpected_keyword
  end.

Definition call_max_return (minimize : Scipy.minimize_t) (self : t) (kw : kwargs)
    : result (Np.ndarray * Py.dict float64) :=
  match kw_other kw with
  | [] =>
      optimize_max_return minimize self (default None (kw_target_volatility kw))
        (default false (kw_allow_short kw))
        (default zero (kw_min_weight kw)) (default one (kw_max_weight kw))
  | _ => Raise unexpected_keyword
  end.

Definition call_risk_parity (minimize : Scipy.minimize_t) (self : t) (kw : kwargs)
    : result (Np.ndarray * Py.dict float64) :=
  match kw_allow_short kw, kw_target_volatility kw, kw_other kw with
  | None, None, [] =>
      optimize_risk_parity minimize self
        (default zero (kw_min_weight kw)) (default one (kw_max_weight kw))
  | _, _, _ => Raise unexpected_keyword
  end.

Definition optimize (minimize : Scipy.minimize_t) (self : t) (objective : string)
    (kw : kwargs) : result (Np.ndarray * Py.dict float64) :=
  let objective := Py.lower objective in
  if String.eqb objective "max_sharpe" then call_max_sharpe minimize self kw
  else if String.eqb objective "min_volatility" then call_min_volatility minimize self kw
  else if String.eqb objective "max_return" then call_max_return minimize self kw
  else if String.eqb objective "risk_parity" then call_risk_parity minimize self kw
  else if String.eqb objective "equal_weight" then optimize_equal_weight self
  else Raise (ValueError ("Unknown objective: " ++ objective)).

(** One pass of the loop of [generate_efficient_frontier], inside its [try]:
    the minimum-volatility solve under the target return; no point when the
    solver reports no success. *)
Definition frontier_point (minimize : Scipy.minimize_t) (self : t)
    (target_return : float64) : result (option (float64 * float64 * float64)) :=
  let constraints :=
    _get_constraints self false ++
    [ {| Scipy.type := Scipy.eq_constraint;
         Scipy.fun_ := fun x =>
           PortfolioMetrics.portfolio_return x (mean_returns self) - target_return |} ] in
  v ← Py.truediv one (of_nat (n_assets self));
  let x0 := replicate (n_assets self) v in
  result ← minimize (portfolio_vol self) x0 (_get_bounds self false zero one) constraints;
  if Scipy.success result then
    let weights := Scipy.x result in
    mret (Some (PortfolioMetrics.portfolio_return weights (mean_returns self),
                PortfolioMetrics.portfolio_volatility weights (cov_matrix self),
                PortfolioMetrics.sharpe_ratio weights (mean_returns self)
                  (cov_matrix self) (risk_free_rate self)))
  else mret None.

(** The pass with its [except: continue]: whatever is raised, the loop goes
    on with the lists as they are. *)
Definition frontier_step (minimize : Scipy.minimize_t) (self : t)
    (lists : list float64 * list float64 * list float64) (target_return : float64)
    : list float64 * list float64 * list float64 :=
  let '(returns, volatilities, sharpe_ratios) := lists in
  match frontier_point minimize self target_return with
  | Ok (Some (r, v, s)) => (returns ++ [r], volatilities ++ [v], sharpe_ratios ++ [s])
  | Ok None => lists
  | Raise _ => lists
  end.

Definition generate_efficient_frontier (minimize : Scipy.minimize_t) (self : t)
    (n_portfolios : nat) : result (Np.ndarray * Np.ndarray * Np.ndarray) :=
  min_vol ← optimize_min_volatility minimize self false zero one;
  max_ret ← optimize_max_return minimize self None false zero one;
  let min_vol_weights := fst min_vol in
  let max_ret_weights := fst max_ret in
  let min_return := PortfolioMetrics.portfolio_return min_vol_weights (mean_returns self) in
  let max_return := PortfolioMetrics.portfolio_return max_ret_weights (mean_returns self) in
  let target_returns := Np.linspace min_return max_return n_portfolios in
  mret (foldl (frontier_step minimize self) ([], [], []) target_returns).

End PortfolioOptimizer.

(** ** src/rebalancer.py *)

Module PortfolioRebalancer.

Record t : Type := {
  target_weights : Np.ndarray;
  tickers : list string;
  drift_threshold : float64;
  n_assets : nat
}.

Definition __init__ (target_weights : Np.ndarray) (tickers : list string)
    (drift_threshold : float64) : t :=
  {| target_weights := target_weights; tickers := tickers;
     drift_threshold := drift_threshold; n_assets := length tickers |}.

Definition calculate_current_weights (self : t) (current_values : Np.ndarray)
    : result Np.ndarray :=
  let total_value := Np.sum current_values in
  if total_value =? zero then Raise (ValueError "Total portfolio value is zero")
  else Ok (Np.div_scalar current_values total_value).

Definition check_drift (self : t) (current_weights : Np.ndarray) : bool * Np.ndarray :=
  let weight_diff := Np.abs (Np.sub current_weights (target_weights self)) in
  let needs_rebalancing :=
    Np.any (map (fun d => d >? drift_threshold self) weight_diff) in
  (needs_rebalancing, weight_diff).

(** The trade table of [calculate_rebalancing_trades], column by column. *)
Record Trades : Type := {
  Ticker : list string;
  Current_Weight : Np.ndarray;
  Target_Weight : Np.ndarray;
  Weight_Drift : Np.ndarray;
  Current_Value : Np.ndarray;
  Target_Value : Np.ndarray;
  Value_to_Trade : Np.ndarray;
  Current_Price : Np.ndarray;
  Shares_to_Trade : Np.ndarray;
  Action : list string;
  Drift_pct : Np.ndarray
}.

(** ['BUY' if x > 0 else ('SELL' if x < 0 else 'HOLD')] *)
Definition action_of (x : float64) : string :=
  if x >? zero then "BUY" else if x <? zero then "SELL" else "HOLD".

Definition calculate_rebalancing_trades (self : t) (current_values current_prices : Np.ndarray)
    : result Trades :=
  let total_value := Np.sum current_values in
  current_weights ← calculate_current_weights self current_values;
  let target_values := Np.mul_scalar (target_weights self) total_value in
  let value_to_trade := Np.sub target_values current_values in
  let shares_to_trade := Np.div value_to_trade current_prices in
  let weight_drift := Np.sub current_weights (target_weights self) in
  mret {| Ticker := tickers self;
          Current_Weight := current_weights;
          Target_Weight := target_weights self;
          Weight_Drift := weight_drift;
          Current_Value := current_values;
          Target_Value := target_values;
          Value_to_Trade := value_to_trade;
          Current_Price := current_prices;
          Shares_to_Trade := shares_to_trade;
          Action := map action_of shares_to_trade;
          Drift_pct :=
            Pd.fillna zero
              (Np.mul_scalar (Np.div weight_drift (target_weights self)) (of_Z 100)) |}.





(** One alert of [monitor_portfolio]. *)
Record Alert : Type := {
  a_Ticker : string;
  a_Current_Weight : float64;
  a_Target_Weight : float64;
  a_Drift : float64;
  a_Drift_pct : float64;
  a_Status : string
}.

Record Monitoring : Type := {
  Timestamp : Z;
  Needs_Rebalancing : bool;
  Max_Drift : float64;
  Avg_Drift : float64;
  Alerts : list Alert;
  Current_Weights : Py.dict float64;
  Target_Weights : Py.dict float64
}.

(** The alert of asset [i], if its drift exceeds the threshold. *)
Definition alert_of (self : t) (current_weights weight_diff : Np.ndarray)
    (i : nat) (ticker : string) : list Alert :=
  match weight_diff !! i, current_weights !! i, target_weights self !! i with
  | Some diff, Some current, Some target =>
      if diff >? drift_threshold self then
        [ {| a_Ticker := ticker;
             a_Current_Weight := current;
             a_Target_Weight := target;
             a_Drift := diff;
             a_Drift_pct := (current - target) / target * of_Z 100;
             a_Status := if current >? target then "OVERWEIGHT" else "UNDERWEIGHT" |} ]
      else []
  | _, _, _ => []
  end.

(** [timestamp] is the optional argument, [now] the clock read when it is
    absent. *)
Definition monitor_portfolio (self : t) (current_values : Np.ndarray)
    (timestamp : option Z) (now : Z) : result Monitoring :=
  let timestamp := default now timestamp in
  current_weights ← calculate_current_weights self current_values;
  let '(needs_rebalancing, weight_diff) := check_drift self current_weights in
  let alerts :=
    concat (imap (alert_of self current_weights weight_diff) (tickers self)) in
  max_drift ← Np.max weight_diff;
  mret {| Timestamp := timestamp;
          Needs_Rebalancing := needs_rebalancing;
          Max_Drift := max_drift;
          Avg_Drift := Np.mean weight_diff;
          Alerts := alerts;
          Current_Weights := Py.dict_of (zip (tickers self) current_weights);
          Target_Weights := Py.dict_of (zip (tickers self) (target_weights self)) |}.

End PortfolioRebalancer.

(** ** src/monte_carlo.py *)

Module MonteCarloSimulator.

Record t : Type := {
  mean_returns : Np.ndarray;
  cov_matrix : Np.matrix;
  n_assets : nat
}.

Definition __init__ (mean_returns : Np.ndarray) (cov_matrix : Np.matrix) : t :=
  {| mean_returns := mean_returns; cov_matrix := cov_matrix;
     n_assets := length mean_returns |}.

(** The global generator behind [np.random]: a stream of standard normal
    deviates and the position of the next one to hand out. *)
Record RandomState : Type := {
  gauss : nat -> Qc;
  position : nat
}.

(** Computations that consume random draws and may raise. *)
Definition Rand (A : Type) : Type := RandomState -> result (A * RandomState).

#[global] Instance Rand_ret : MRet Rand := fun _ a st => Ok (a, st).
#[global] Instance Rand_bind : MBind Rand := fun _ _ k m st =>
  match m st with
  | Ok (a, st') => k a st'
  | Raise e => Raise e
  end.

Definition lift {A : Type} (r : result A) : Rand A := fun st =>
  match r with
  | Ok a => Ok (a, st)
  | Raise e => Raise e
  end.

(** [np.random.normal(loc, scale)]: [loc + scale * z] for the next standard
    deviate [z]; a negative scale raises ValueError. *)
Definition normal (loc scale : float64) : Rand float64 := fun st =>
  if scale <? zero then Raise (ValueError "scale < 0")
  else Ok (loc + scale * Finite (gauss st (position st)),
           {| gauss := gauss st; position := S (position st) |}).

(** [for i in idx: s = body(i, s)] *)
Fixpoint for_each {S : Type} (idx : list nat) (body : nat -> S -> Rand S) (s : S)
    : Rand S :=
  match idx with
  | [] => mret s
  | i :: rest => s' ← body i s; for_each rest body s'
  end.

Record SimulationResult : Type := {
  final_values : Np.ndarray;
  paths : Np.matrix;
  percentiles : Py.dict float64;
  expected_value : float64;
  prob_loss : float64;
  var_95 : float64;
  cvar_95 : float64;
  portfolio_return : float64;
  portfolio_std : float64
}.

(** One year of one trial: draw the return, update the value, record it. *)
Definition simulate_year (portfolio_return portfolio_std annual_contribution : float64)
    (sim year : nat) (s : float64 * Np.matrix) : Rand (float64 * Np.matrix) :=
  let '(value, paths) := s in
  annual_return ← normal portfolio_return portfolio_std;
  let value := value * (one + annual_return) + annual_contribution in
  mret (value, alter (fun row => <[year := value]> row) sim paths).

(** One trial: start from the initial investment and walk the years. *)
Definition simulate_trial (portfolio_return portfolio_std initial_investment
    annual_contribution : float64) (time_horizon_years : nat)
    (sim : nat) (s : Np.ndarray * Np.matrix) : Rand (Np.ndarray * Np.matrix) :=
  let '(final_values, paths) := s in
  let value := initial_investment in
  '(value, paths) ← for_each (seq 1 time_horizon_years)
      (simulate_year portfolio_return portfolio_std annual_contribution sim)
      (value, paths);
  mret (<[sim := value]> final_values, paths).

Definition simulate_portfolio (self : t) (weights : Np.ndarray)
    (initial_investment : float64) (time_horizon_years n_simulations : nat)
    (annual_contribution : float64) : Rand SimulationResult :=
  let portfolio_return := Np.dot weights (mean_returns self) in
  let portfolio_variance := Np.dot weights (Np.matvec (cov_matrix self) weights) in
  let portfolio_std := fsqrt portfolio_variance in
  let final_values := replicate n_simulations zero in
  let paths := replicate n_simulations (replicate (time_horizon_years + 1) zero) in
  let paths := map (fun row => <[0%nat := initial_investment]> row) paths in
  '(final_values, paths) ← for_each (seq 0 n_simulations)
      (simulate_trial portfolio_return portfolio_std initial_investment
         annual_contribution time_horizon_years)
      (final_values, paths);
  p10 ← lift (Np.percentile final_values (of_Z 10));
  p25 ← lift (Np.percentile final_values (of_Z 25));
  p50 ← lift (Np.percentile final_values (of_Z 50));
  p75 ← lift (Np.percentile final_values (of_Z 75));
  p90 ← lift (Np.percentile final_values (of_Z 90));
  let percentiles :=
    [ ("10th"%string, p10); ("25th"%string, p25); ("50th"%string, p50);
      ("75th"%string, p75); ("90th"%string, p90) ] in
  let prob_loss :=
    of_nat (length (List.filter (fun v => v <? initial_investment) final_values))
    / of_nat n_simulations in
  let expected_value := Np.mean final_values in
  var_95 ← lift (Np.percentile final_values (of_Z 5));
  let cvar_95 := Np.mean (List.filter (fun v => v <=? var_95) final_values) in
  mret {| final_values := final_values; paths := paths; percentiles := percentiles;
          expected_value := expected_value; prob_loss := prob_loss;
          var_95 := var_95; cvar_95 := cvar_95;
          portfolio_return := portfolio_return; portfolio_std := portfolio_std |}.

(** [for x in items: s = body(x, s)] *)
Fixpoint for_each_in {A St : Type} (items : list A) (body : A -> St -> Rand St) (s : St)
    : Rand St :=
  match items with
  | [] => mret s
  | x :: rest => s' ← body x s; for_each_in rest body s'
  end.

(** A scenario: a dict with the key 'years' and, if given, 'contributions'. *)
Record Scenario : Type := {
  years : nat;
  contributions : option float64
}.

Definition compare_scenarios (self : t) (weights : Np.ndarray)
    (initial_investment : float64) (scenarios : list Scenario)
    : Rand (Py.dict SimulationResult) :=
  for_each_in scenarios
    (fun scenario results =>
       let contributions := default zero (contributions scenario) in
       result ← simulate_portfolio self weights initial_investment (years scenario)
                  10000 contributions;
       mret (Py.set results (Py.str_of_nat (years scenario) +:+ "yr") result))
    [].

(** The dictionary that [calculate_retirement_probability] returns. *)
Module Retirement.
Record Analysis : Type := {
  success_rate : float64;
  expected_value : float64;
  median_value : float64;
  retirement_goal : float64;
  shortfall : float64;
  years_needed : Py.dict nat;
  simulation_data : SimulationResult
}.
End Retirement.

(** [for test_years in ...: if reaches(test_years): ...; break]: the first
    horizon that reaches the target, if one does. *)
Fixpoint first_horizon (tests : list nat) (reaches : nat -> Rand bool)
    : Rand (option nat) :=
  match tests with
  | [] => mret None
  | test_years :: rest =>
      hit ← reaches test_years;
      if hit : bool then (mret (Some test_years) : Rand (option nat))
      else first_horizon rest reaches
  end.

Definition confidence_levels : list Qc :=
  [Q2Qc (1 # 2); Q2Qc (3 # 4); Q2Qc (9 # 10); Q2Qc (95 # 100)].

(** [calculate_retirement_probability].  The median is read from the
    percentiles of the simulation of the same call, where the key '50th' is
    always present. *)
Definition calculate_retirement_probability (self : t) (weights : Np.ndarray)
    (current_portfolio : float64) (years_to_retirement : nat)
    (annual_contribution retirement_goal : float64) (n_simulations : nat)
    : Rand Retirement.Analysis :=
  result ← simulate_portfolio self weights current_portfolio years_to_retirement
             n_simulations annual_contribution;
  let final_values := final_values result in
  let success_count :=
    length (List.filter (fun v => retirement_goal <=? v) final_values) in
  let success_rate := of_nat success_count / of_nat n_simulations in
  let shortfalls :=
    map (fun v => retirement_goal - v)
      (List.filter (fun v => v <? retirement_goal) final_values) in
  let avg_shortfall :=
    if (0 <? length shortfalls)%nat then Np.mean shortfalls else zero in
  years_needed ← for_each_in confidence_levels
    (fun conf years_needed =>
       let target_value := retirement_goal in
       found ← first_horizon (seq 1 49)
         (fun test_years =>
            test_result ← simulate_portfolio self weights current_portfolio test_years
                            1000 annual_contribution;
            percentile_val ← lift (Np.percentile (MonteCarloSimulator.final_values test_result)
                                     (Finite conf * of_Z 100));
            mret (target_value <=? percentile_val));
       mret (match found with
             | Some test_years =>
                 Py.set years_needed
                   (Py.str_of_int (Py.int_of (conf * Q2Qc (inject_Z 100))) +:+ "%") test_years
             | None => years_needed
             end))
    [];
  mret {| Retirement.success_rate := success_rate;
          Retirement.expected_value := expected_value result;
          Retirement.median_value := default NaN (Py.get (percentiles result) "50th");
          Retirement.retirement_goal := retirement_goal;
          Retirement.shortfall := avg_shortfall;
          Retirement.years_needed := years_needed;
          Retirement.simulation_data := result |}.

End MonteCarloSimulator.

(** ** The risk measures of src/metrics.py in binary64

    The embedding above computes with exact rationals.  Where a property of
    the code depends on the rounding of float64, the same code is replayed
    here on IEEE-754 binary64 numbers, every operation rounded to nearest as
    the hardware does it for NumPy.  A decimal literal denotes the nearest
    binary64 number, as it does in Python. *)

Module B64.

Import PrimFloat.
Local Open Scope float_scope.

Abbreviation float64 := float.

(** The float64 of a count. *)
Definition of_nat (n : nat) : float64 := of_uint63 (Uint63.of_Z (Z.of_nat n)).

Module Np.

Abbreviation ndarray := (list float64).

(** [np.sum]: the elements are added one after the other, starting from 0.0
    (the order NumPy and pandas use for fewer than eight elements). *)
Definition sum (a : ndarray) : float64 := foldl add 0 a.

(** Element-wise [a * b]. *)
Definition mul (a b : ndarray) : ndarray := zip_with PrimFloat.mul a b.

(** Sorting in ascending order (insertion into a sorted prefix). *)
Fixpoint insert_sorted (x : float64) (s : ndarray) : ndarray :=
  match s with
  | [] => [x]
  | y :: s' => if x <=? y then x :: y :: s' else y :: insert_sorted x s'
  end.

Definition sort (a : ndarray) : ndarray := foldr insert_sorted [] a.

(** [np.floor] of a virtual index, which lies between 0 and [k]. *)
Fixpoint floor_index (virtual_index : float64) (k : nat) : nat :=
  match k with
  | O => O
  | S k' => if of_nat (S k') <=? virtual_index then S k'
            else floor_index virtual_index k'
  end.

(** NumPy's linear interpolation [_lerp(a, b, t)]: [a + (b - a) * t], and
    [b - (b - a) * (1 - t)] where [t >= 0.5]. *)
Definition _lerp (a b t : float64) : float64 :=
  let diff_b_a := b - a in
  if 0.5 <=? t then b - diff_b_a * (1 - t) else a + diff_b_a * t.

(** [np.percentile(a, q)] with the default method: the percentile is divided
    by 100 and checked, then the two order statistics around the virtual
    index [(n - 1) * (q / 100)] are interpolated. *)
Definition percentile (a : ndarray) (q : float64) : result float64 :=
  let quantile := q / 100 in
  if negb ((0 <=? quantile) && (quantile <=? 1)) then
    Raise (ValueError "Percentiles must be in the range [0, 100]")
  else if existsb is_nan a then Ok nan
  else
    match a with
    | [] => Raise (IndexError "index -1 is out of bounds for axis 0 with size 0")
    | _ :: _ =>
        let s := sort a in
        let n := length s in
        let virtual_index := of_nat (n - 1) * quantile in
        let lo := floor_index virtual_index (n - 1) in
        let hi := Nat.min (lo + 1) (n - 1) in
        let gamma := virtual_index - of_nat lo in
        Ok (_lerp (nth lo s nan) (nth hi s nan) gamma)
    end.

End Np.

Module Pd.

Abbreviation Series := (list float64).
Abbreviation DataFrame := (list (list float64)).

Definition dropna (s : Series) : Series := List.filter (fun x => negb (is_nan x)) s.

(** [Series.sum()] and [DataFrame.sum(axis=1)]: NaN entries are skipped. *)
Definition sum (s : Series) : float64 := Np.sum (dropna s).
Definition sum_axis1 (df : DataFrame) : Series := map sum df.

(** [df * weights]: every row is multiplied element-wise by the array. *)
Definition mul_row (df : DataFrame) (w : Np.ndarray) : DataFrame :=
  map (fun row => Np.mul row w) df.

(** [Series.mean()]: the sum of the non-NaN entries divided by their number,
    NaN when there is none. *)
Definition mean (s : Series) : float64 :=
  let v := dropna s in
  match v with
  | [] => nan
  | _ :: _ => Np.sum v / of_nat (length v)
  end.

(** Boolean indexing [s[mask]]. *)
Definition select (p : float64 -> bool) (s : Series) : Series := List.filter p s.

End Pd.

Module PortfolioMetrics.

Definition calculate_portfolio_returns (weights : Np.ndarray) (returns : Pd.DataFrame)
    : Pd.Series :=
  Pd.sum_axis1 (Pd.mul_row returns weights).

Definition value_at_risk (weights : Np.ndarray) (returns : Pd.DataFrame)
    (confidence_level : float64) : result float64 :=
  let portfolio_returns := Pd.sum_axis1 (Pd.mul_row returns weights) in
  Np.percentile portfolio_returns ((1 - confidence_level) * 100).

Definition conditional_value_at_risk (weights : Np.ndarray) (returns : Pd.DataFrame)
    (confidence_level : float64) : result float64 :=
  let portfolio_returns := Pd.sum_axis1 (Pd.mul_row returns weights) in
  var ← value_at_risk weights returns confidence_level;
  mret (Pd.mean (Pd.select (fun r => r <=? var) portfolio_returns)).

End PortfolioMetrics.

(** One asset that returns 0.1 in each of three periods. *)
Definition three_flat_periods : Pd.DataFrame := [[0.1]; [0.1]; [0.1]].

End B64.


(** ** Vocabulary of the statements *)

(** [np.isfinite(a).all()]: no infinity and no NaN in the array. *)
Definition all_finite (a : Np.ndarray) : bool := forallb is_finite a.

(** The sum of a list of rationals, and the array of a list of rationals. *)
Definition Qsum (qs : list Qc) : Qc := foldr Qcplus 0%Qc qs.
Definition finite_array (qs : list Qc) : Np.ndarray := map Finite qs.

(** A confidence level is a number between 0 and 1. *)
Definition valid_confidence (c : float64) : bool := (zero <=? c) && (c <=? one).

(** The k-th smallest element of an array, counting from 1. *)
Definition order_statistic (k : nat) (a : Np.ndarray) : float64 :=
  nth (k - 1) (Np.sort a) NaN.

(** Ascending order of an array. *)
Definition ascending (s : Np.ndarray) : Prop :=
  StronglySorted (fun x y => (x <=? y) = true) s.

(** The five objectives the dispatcher knows, and their names. *)
Inductive objective_kind : Type :=
| MaxSharpe | MinVolatility | MaxReturn | RiskParity | EqualWeight.

Definition objective_name (k : objective_kind) : string :=
  match k with
  | MaxSharpe => "max_sharpe"
  | MinVolatility => "min_volatility"
  | MaxReturn => "max_return"
  | RiskParity => "risk_parity"
  | EqualWeight => "equal_weight"
  end.

Definition all_objectives : list objective_kind :=
  [MaxSharpe; MinVolatility; MaxReturn; RiskParity; EqualWeight].

(** Equality of ASCII text up to the case of its letters, position by
    position: the same character, or a capital letter and its small form. *)
Definition is_upper (n : nat) : bool := ((65 <=? n) && (n <=? 90))%nat.

Definition caseless_ascii (c d : ascii) : bool :=
  let m := nat_of_ascii c in
  let n := nat_of_ascii d in
  ((m =? n) || (is_upper m && (n =? m + 32)) || (is_upper n && (m =? n + 32)))%nat.

Fixpoint caseless_eqb (s t : string) : bool :=
  match s, t with
  | EmptyString, EmptyString => true
  | String c s', String d t' => caseless_ascii c d && caseless_eqb s' t'
  | _, _ => false
  end.

(** Text without capital letters, as the five names are. *)
Fixpoint no_capital (s : string) : bool :=
  match s with
  | EmptyString => true
  | String c s' => negb (is_upper (nat_of_ascii c)) && no_capital s'
  end.

(** The objective a string names, up to case, if any. *)
Definition recognize (objective : string) : option objective_kind :=
  List.find (fun k => caseless_eqb objective (objective_name k)) all_objectives.

(** What the dispatcher runs for a recognized objective. *)
Definition run_objective (minimize : Scipy.minimize_t) (self : PortfolioOptimizer.t)
    (k : objective_kind) (kw : PortfolioOptimizer.kwargs)
    : result (Np.ndarray * Py.dict float64) :=
  match k with
  | MaxSharpe => PortfolioOptimizer.call_max_sharpe minimize self kw
  | MinVolatility => PortfolioOptimizer.call_min_volatility minimize self kw
  | MaxReturn => PortfolioOptimizer.call_max_return minimize self kw
  | RiskParity => PortfolioOptimizer.call_risk_parity minimize self kw
  | EqualWeight => PortfolioOptimizer.optimize_equal_weight self
  end.

(** Two solvers return the same iterate on every call, whatever else their
    results say (success flag, status, message, iteration count). *)
Definition same_iterate (minimize minimize' : Scipy.minimize_t) : Prop :=
  forall f x0 bounds constraints,
    Scipy.x <$> minimize f x0 bounds constraints
    = Scipy.x <$> minimize' f x0 bounds constraints.

(** An objective's outcome is the solver's iterate with the metrics computed
    at it, for whatever result the solver call produced. *)
Definition returns_iterate (self : PortfolioOptimizer.t)
    (solved : result Scipy.OptimizeResult)
    (outcome : result (Np.ndarray * Py.dict float64)) : Prop :=
  forall r : Scipy.OptimizeResult,
    solved = Ok r ->
    outcome = Ok (Scipy.x r, PortfolioOptimizer.metrics_at self (Scipy.x r)).

(** The constraint list [optimize_max_return] hands to the solver. *)
Definition max_return_constraints (self : PortfolioOptimizer.t) (allow_short : bool)
    (target_volatility : option float64) : list Scipy.constraint :=
  match target_volatility with
  | Some tv =>
      PortfolioOptimizer._get_constraints self allow_short ++
      [ {| Scipy.type := Scipy.ineq_constraint;
           Scipy.fun_ := fun x =>
             tv - PortfolioMetrics.portfolio_volatility x
                    (PortfolioOptimizer.cov_matrix self) |} ]
  | None => PortfolioOptimizer._get_constraints self allow_short
  end.

(** The arrays the trial loop starts from. *)
Definition initial_paths (initial_investment : float64)
    (time_horizon_years n_simulations : nat) : Np.matrix :=
  map (fun row => <[0%nat := initial_investment]> row)
    (replicate n_simulations (replicate (time_horizon_years + 1) zero)).

(** The loop over the trials, as [simulate_portfolio] runs it. *)
Definition trial_loop (self : MonteCarloSimulator.t) (weights : Np.ndarray)
    (initial_investment : float64) (time_horizon_years n_simulations : nat)
    (annual_contribution : float64)
    : MonteCarloSimulator.Rand (Np.ndarray * Np.matrix) :=
  MonteCarloSimulator.for_each (seq 0 n_simulations)
    (MonteCarloSimulator.simulate_trial
       (Np.dot weights (MonteCarloSimulator.mean_returns self))
       (fsqrt (Np.dot weights (Np.matvec (MonteCarloSimulator.cov_matrix self) weights)))
       initial_investment annual_contribution time_horizon_years)
    (replicate n_simulations zero,
     initial_paths initial_investment time_horizon_years n_simulations).

(** The wealth curve and the drawdown series that [maximum_drawdown] builds
    from a return series. *)
Definition cumulative_returns (returns : Pd.Series) : Pd.Series :=
  Pd.cumprod (map (fun r => one + r) returns).

Definition drawdown_series (returns : Pd.Series) : Pd.Series :=
  let cumulative := cumulative_returns returns in
  let running_max := Pd.expanding_max cumulative in
  Np.div (Np.sub cumulative running_max) running_max.

(** The same two series over the rationals, from the growth factors
    [1 + r]: [acc] is the wealth so far, [best] the highest wealth so far. *)
Fixpoint Qcumprod (acc : Qc) (fs : list Qc) : list Qc :=
  match fs with
  | [] => []
  | f :: fs' => (acc * f)%Qc :: Qcumprod (acc * f)%Qc fs'
  end.

Definition Qcmax (a b : Qc) : Qc := if Qclt_le_dec a b then b else a.

Definition Qpeak (best : option Qc) (c : Qc) : Qc :=
  match best with
  | None => c
  | Some m => Qcmax m c
  end.

Fixpoint Qdrawdown (best : option Qc) (acc : Qc) (fs : list Qc) : list Qc :=
  match fs with
  | [] => []
  | f :: fs' =>
      let c := (acc * f)%Qc in
      let m := Qpeak best c in
      ((c - m) / m)%Qc :: Qdrawdown (Some m) c fs'
  end.

Definition growth (rs : list Qc) : list Qc := map (fun r : Qc => (1 + r)%Qc) rs.

(** The return drawn for year [year] (counted from 1) of trial [sim], when
    the simulation starts in generator state [st]: trial after trial, year
    after year, each draw takes the next deviate of the stream. *)
Definition drawn_return (self : MonteCarloSimulator.t) (weights : Np.ndarray)
    (st : MonteCarloSimulator.RandomState) (years sim year : nat) : float64 :=
  Np.dot weights (MonteCarloSimulator.mean_returns self)
  + fsqrt (Np.dot weights (Np.matvec (MonteCarloSimulator.cov_matrix self) weights))
    * Finite (MonteCarloSimulator.gauss st
                (MonteCarloSimulator.position st + sim * years + (year - 1))%nat).

(** The equal-weight vector over [n] assets. *)
Definition equal_weights (n : nat) : Np.ndarray :=
  replicate n (Finite (1 / Qc_of_nat n)).

(** The targets that [generate_efficient_frontier] walks through, given the
    weights of its two first solves. *)
Definition frontier_targets (self : PortfolioOptimizer.t)
    (min_vol_weights max_ret_weights : Np.ndarray) (n_portfolios : nat) : Np.ndarray :=
  Np.linspace
    (PortfolioMetrics.portfolio_return min_vol_weights (PortfolioOptimizer.mean_returns self))
    (PortfolioMetrics.portfolio_return max_ret_weights (PortfolioOptimizer.mean_returns self))
    n_portfolios.

(** The generator state after [k] more deviates have been handed out. *)
Definition advance (st : MonteCarloSimulator.RandomState) (k : nat)
    : MonteCarloSimulator.RandomState :=
  {| MonteCarloSimulator.gauss := MonteCarloSimulator.gauss st;
     MonteCarloSimulator.position := (MonteCarloSimulator.position st + k)%nat |}.

(** The key under which [compare_scenarios] files a scenario, and the years
    that a list of scenarios simulates in all. *)
Definition scenario_key (scenario : MonteCarloSimulator.Scenario) : string :=
  Py.str_of_nat (MonteCarloSimulator.years scenario) +:+ "yr".

Definition total_years (scenarios : list MonteCarloSimulator.Scenario) : nat :=
  foldr (fun scenario total => (MonteCarloSimulator.years scenario + total)%nat) 0%nat
    scenarios.

(** The keys that the retirement analysis can file a horizon under. *)
Definition confidence_keys : list string := ["50%"; "75%"; "90%"; "95%"]%string.

(** The analysis that [calculate_retirement_probability] assembles from the
    simulation of the call and the horizons found. *)
Definition retirement_analysis (result : MonteCarloSimulator.SimulationResult)
    (retirement_goal : float64) (n_simulations : nat) (years_needed : Py.dict nat)
    : MonteCarloSimulator.Retirement.Analysis :=
  let final_values := MonteCarloSimulator.final_values result in
  let shortfalls :=
    map (fun v => retirement_goal - v)
      (List.filter (fun v => v <? retirement_goal) final_values) in
  {| MonteCarloSimulator.Retirement.success_rate :=
       of_nat (length (List.filter (fun v => retirement_goal <=? v) final_values))
       / of_nat n_simulations;
     MonteCarloSimulator.Retirement.expected_value :=
       MonteCarloSimulator.expected_value result;
     MonteCarloSimulator.Retirement.median_value :=
       default NaN (Py.get (MonteCarloSimulator.percentiles result) "50th");
     MonteCarloSimulator.Retirement.retirement_goal := retirement_goal;
     MonteCarloSimulator.Retirement.shortfall :=
       if (0 <? length shortfalls)%nat then Np.mean shortfalls else zero;
     MonteCarloSimulator.Retirement.years_needed := years_needed;
     MonteCarloSimulator.Retirement.simulation_data := result |}.

(** The value after [years] years of growth at the rate [mu] with the
    contribution [c] at the end of each year. *)
Fixpoint compound (v mu c : Qc) (years : nat) : Qc :=
  match years with
  | 0%nat => v
  | S k => (compound v mu c k * (1 + mu) + c)%Qc
  end.

(** ** Sample inputs *)

(** Four assets with uncorrelated returns, risk-free rate 2%. *)
Definition four_assets : PortfolioOptimizer.t :=
  {| PortfolioOptimizer.mean_returns := [frac 1 10; frac 3 25; frac 2 25; frac 1 20];
     PortfolioOptimizer.cov_matrix :=
       [ [frac 1 25; zero; zero; zero]; [zero; frac 3 50; zero; zero];
         [zero; zero; frac 3 100; zero]; [zero; zero; zero; frac 1 100] ];
     PortfolioOptimizer.risk_free_rate := frac 1 50;
     PortfolioOptimizer.n_assets := 4 |}.

(** A solver run that stops at the iteration limit without converging, and a
    converged run that ends on the same point. *)
Definition stalled_result : Scipy.OptimizeResult :=
  {| Scipy.x := [frac 1 4; frac 1 4; frac 1 4; frac 1 4];
     Scipy.success := false;
     Scipy.status := 9;
     Scipy.message := "Iteration limit reached";
     Scipy.nit := 100 |}.

Definition converged_result : Scipy.OptimizeResult :=
  {| Scipy.x := [frac 1 4; frac 1 4; frac 1 4; frac 1 4];
     Scipy.success := true;
     Scipy.status := 0;
     Scipy.message := "Optimization terminated successfully";
     Scipy.nit := 12 |}.

Definition solver_stalled : Scipy.minimize_t := fun _ _ _ _ => Ok stalled_result.
Definition solver_converged : Scipy.minimize_t := fun _ _ _ _ => Ok converged_result.

(** One asset held at weight 1 over 100 periods with the returns
    0.01, 0.02, ..., 1.00. *)
Definition hundred_periods : Pd.DataFrame :=
  map (fun k => [frac (Z.of_nat k) 100]) (seq 1 100).

(** Two assets whose weighted mean return is 0 under equal weights, with a
    zero covariance matrix, and a generator state to draw from. *)
Definition flat_market : MonteCarloSimulator.t :=
  MonteCarloSimulator.__init__ [frac 1 10; frac (-1) 10] [[zero; zero]; [zero; zero]].

(** One asset with mean return 10% and standard deviation 20%. *)
Definition one_asset_market : MonteCarloSimulator.t :=
  MonteCarloSimulator.__init__ [frac 1 10] [[frac 1 25]].

(** One asset with mean return 10% and no variance. *)
Definition riskless_market : MonteCarloSimulator.t :=
  MonteCarloSimulator.__init__ [frac 1 10] [[zero]].

Definition sample_stream : MonteCarloSimulator.RandomState :=
  {| MonteCarloSimulator.gauss := fun k => Q2Qc ((Z.of_nat k - 3) # 2);
     MonteCarloSimulator.position := 0 |}.

(** A rebalancer with target (0.5, 0.5) and a 5% threshold. *)
Definition half_half : PortfolioRebalancer.t :=
  PortfolioRebalancer.__init__ [frac 1 2; frac 1 2] ["AAA"; "BBB"]%string (frac 5 100).


(** Three periods: a gain of 10%, a loss of 20%, a gain of 5%; and the same
    history as a frame of one asset. *)
Definition gain_loss_gain : list Qc := [Q2Qc (1 # 10); Q2Qc (-1 # 5); Q2Qc (1 # 20)].

Definition gain_loss_gain_frame : Pd.DataFrame :=
  [[frac 1 10]; [frac (-1) 5]; [frac 1 20]].

(** Two periods with gains of 1% and 2%. *)
Definition two_gains : list Qc := [Q2Qc (1 # 100); Q2Qc (1 # 50)].

Definition two_gains_frame : Pd.DataFrame := [[frac 1 100]; [frac 1 50]].
(** * Properties *)

(** ** Facts about the float64 model *)

Section F64_facts.

Implicit Types x y : float64.

Lemma fmul_nan_l y : NaN * y = NaN.
Proof. reflexivity. Qed.

Lemma fdiv_nan_r x : x / NaN = NaN.
Proof. by destruct x. Qed.

Lemma fadd_zero_r x : x + zero = x.
Proof. destruct x; simpl; try done. by rewrite Qcplus_0_r. Qed.

Lemma fadd_zero_l x : zero + x = x.
Proof. destruct x; simpl; try done. by rewrite Qcplus_0_l. Qed.

Lemma fmul_one_r x : x * one = x.
Proof.
  destruct x; simpl; try done. by rewrite Qcmult_1_r.
Qed.

Lemma fmul_zero_finite (q : Qc) : zero * Finite q = zero.
Proof. simpl. by rewrite Qcmult_0_l. Qed.

(** Division of a finite number by zero: an infinity of the sign of the
    numerator, NaN for 0 / 0. *)
Lemma fdiv_finite_zero (a : Qc) : Finite a / zero = inf_of_sgn (a ?= 0)%Qc.
Proof. unfold fdiv, zero. by destruct (Qc_eq_dec 0 0). Qed.

Lemma feqb_nan_l y : (NaN =? y) = false.
Proof. reflexivity. Qed.

Lemma Qc_of_nat_nonzero (n : nat) : (1 <= n)%nat -> Qc_of_nat n <> 0%Qc.
Proof.
  intros Hn Heq. unfold Qc_of_nat in Heq.
  apply (Q2Qc_eq_iff (inject_Z (Z.of_nat n)) 0%Q) in Heq.
  unfold Qeq in Heq. simpl in Heq. lia.
Qed.

End F64_facts.

(** ** The primitives on small inputs *)

Section Primitive_examples.

Example fdiv_by_zero :
  one / zero = PosInf /\ (- one) / zero = NegInf /\ zero / zero = NaN.
Proof. repeat split; compute_done. Qed.

Example fsqrt_values :
  fsqrt (frac 9 4) = frac 3 2 /\ fsqrt zero = zero /\ fsqrt (of_Z (-1)) = NaN.
Proof. repeat split; compute_done. Qed.

Example nan_compares_false :
  (NaN =? NaN) = false /\ (NaN <? zero) = false /\ (zero <=? NaN) = false.
Proof. repeat split; reflexivity. Qed.

Example sort_three : Np.sort [of_Z 3; of_Z 1; of_Z 2] = [of_Z 1; of_Z 2; of_Z 3].
Proof. compute_done. Qed.

(** [np.percentile([1, 2, 3, 4], 50)] is 2.5, and the extreme percentiles are
    the extreme elements. *)
Example percentile_four :
  Np.percentile [of_Z 4; of_Z 1; of_Z 3; of_Z 2] (of_Z 50) = Ok (frac 5 2) /\
  Np.percentile [of_Z 4; of_Z 1; of_Z 3; of_Z 2] (of_Z 0) = Ok (of_Z 1) /\
  Np.percentile [of_Z 4; of_Z 1; of_Z 3; of_Z 2] (of_Z 100) = Ok (of_Z 4).
Proof. repeat split; compute_done. Qed.

Example percentile_out_of_range :
  Np.percentile [of_Z 1; of_Z 2] (of_Z 101)
  = Raise (ValueError "Percentiles must be in the range [0, 100]").
Proof. compute_done. Qed.

(** [pd.Series([2, 4, 6]).std()] is 2; one observation has no sample
    deviation; NaN entries are skipped by the pandas reductions. *)
Example std_values :
  Pd.std [of_Z 2; of_Z 4; of_Z 6] = of_Z 2 /\
  Pd.std [of_Z 5] = NaN /\
  Pd.std [] = NaN /\
  Pd.mean [of_Z 1; NaN; of_Z 3] = of_Z 2 /\
  Pd.sum [NaN; of_Z 3] = of_Z 3.
Proof. repeat split; compute_done. Qed.

Example lower_mixed_case : Py.lower "Max_SHARPE" = "max_sharpe"%string.
Proof. reflexivity. Qed.

End Primitive_examples.

(** ** Metrics *)

Section Metrics_facts.

Import PortfolioMetrics.

(** With a volatility of exactly zero the Sharpe ratio is the plain quotient
    by zero: plus or minus infinity with the sign of the excess return, and
    NaN when the excess return is zero as well. *)
Lemma sharpe_ratio_zero_volatility (weights mean_returns : Np.ndarray)
    (cov_matrix : Np.matrix) (risk_free_rate : float64) (excess : Qc) :
  portfolio_volatility weights cov_matrix = zero ->
  portfolio_return weights mean_returns - risk_free_rate = Finite excess ->
  sharpe_ratio weights mean_returns cov_matrix risk_free_rate
    = inf_of_sgn (excess ?= 0)%Qc.
Proof.
  intros Hvol Hret. unfold sharpe_ratio. rewrite Hvol, Hret.
  apply fdiv_finite_zero.
Qed.

(** C1.  A riskless single-asset portfolio (weight 1, variance 0) whose mean
    return equals the risk-free rate 0.02 has volatility exactly 0, and
    [sharpe_ratio] divides by it: the result is NaN; with a mean return of
    0.01, below the risk-free rate, the result is minus infinity.  No
    zero-volatility guard exists in [sharpe_ratio], unlike the guards of
    [sortino_ratio] and [calmar_ratio]. *)
Theorem sharpe_ratio_zero_volatility_not_handled :
  portfolio_volatility [one] [[zero]] = zero /\
  sharpe_ratio [one] [frac 1 50] [[zero]] (frac 1 50) = NaN /\
  sharpe_ratio [one] [frac 1 100] [[zero]] (frac 1 50) = NegInf.
Proof. repeat split; compute_done. Qed.

(** Without a negative portfolio return the downside sample is empty, its
    standard deviation is NaN, the guard [downside_std == 0] is false and the
    ratio is NaN. *)
Lemma sortino_ratio_no_downside (weights mean_returns : Np.ndarray)
    (returns : Pd.DataFrame) (risk_free_rate : float64) :
  Forall (fun r => (r <? zero) = false) (calculate_portfolio_returns weights returns) ->
  sortino_ratio weights mean_returns returns risk_free_rate = NaN.
Proof.
  intros Hpos. unfold sortino_ratio.
  fold (calculate_portfolio_returns weights returns).
  assert (Hsel : Pd.select (fun r => r <? zero)
                   (calculate_portfolio_returns weights returns) = []).
  { unfold Pd.select. induction Hpos as [|r l Hr _ IH]; simpl; [done|].
    by rewrite Hr. }
  rewrite Hsel. cbn [Pd.std Pd.dropna List.filter length Nat.leb].
  rewrite fmul_nan_l, feqb_nan_l. apply fdiv_nan_r.
Qed.

(** C4.  Two periods with the positive returns 0.01 and 0.02 on a single
    asset held at weight 1: the portfolio return series has no negative
    value, and [sortino_ratio] returns NaN, not plus infinity. *)
Theorem sortino_ratio_no_negative_returns_is_nan :
  calculate_portfolio_returns [one] [[frac 1 100]; [frac 1 50]]
    = [frac 1 100; frac 1 50] /\
  sortino_ratio [one] [frac 1 10] [[frac 1 100]; [frac 1 50]] (frac 1 50) = NaN.
Proof. split; compute_done. Qed.

End Metrics_facts.

(** ** Sorting and percentiles *)

Section Percentile_facts.

Lemma fleb_finite (a b : Qc) : (Finite a <=? Finite b) = true <-> (a <= b)%Qc.
Proof.
  unfold fleb, fltb, feqb.
  destruct (Qclt_le_dec a b) as [Hlt|Hge]; cbn [orb].
  - split; [intros _; by apply Qclt_le_weak | done].
  - destruct (Qc_eq_dec a b) as [->|Hne].
    + split; [intros _; apply Qcle_refl | done].
    + split; [done|]. intros Hle. destruct Hne. by apply Qcle_antisym.
Qed.

Lemma fleb_finite_total (a b : Qc) :
  (Finite a <=? Finite b) = false -> (Finite b <=? Finite a) = true.
Proof.
  intros Hab. apply fleb_finite.
  destruct (Qclt_le_dec a b) as [Hlt|Hge]; [|done].
  apply Qclt_le_weak, fleb_finite in Hlt. congruence.
Qed.

Lemma all_finite_cons (x : float64) (a : list float64) :
  all_finite (x :: a) = true <->
  (exists q : Qc, x = Finite q) /\ all_finite a = true.
Proof.
  unfold all_finite. cbn [forallb]. rewrite andb_true_iff. split.
  - intros [Hx Ha]. destruct x; try done. split; [by eexists | done].
  - intros [[q ->] Ha]. by split.
Qed.

Lemma all_finite_Forall (a : list float64) :
  all_finite a = true <-> Forall (fun x => exists q : Qc, x = Finite q) a.
Proof.
  induction a as [|x a IH].
  - split; [constructor | done].
  - rewrite all_finite_cons, IH. split.
    + intros [Hx Ha]. by constructor.
    + by inversion 1.
Qed.

Lemma insert_sorted_perm (x : float64) (s : list float64) :
  Permutation (Np.insert_sorted x s) (x :: s).
Proof.
  induction s as [|y s IH]; cbn [Np.insert_sorted]; [done|].
  destruct (x <=? y); [done|].
  rewrite IH. apply perm_swap.
Qed.

Lemma sort_perm (a : list float64) : Permutation (Np.sort a) a.
Proof.
  unfold Np.sort. induction a as [|x a IH]; cbn [foldr]; [done|].
  rewrite insert_sorted_perm. by constructor.
Qed.

Lemma sort_length (a : list float64) : length (Np.sort a) = length a.
Proof. apply Permutation_length, sort_perm. Qed.

Lemma sort_all_finite (a : list float64) :
  all_finite a = true -> all_finite (Np.sort a) = true.
Proof.
  rewrite !all_finite_Forall. intros Ha.
  eapply Permutation_Forall; [symmetry; apply sort_perm | done].
Qed.

Lemma insert_sorted_ascending (x : float64) (s : list float64) :
  all_finite (x :: s) = true -> ascending s -> ascending (Np.insert_sorted x s).
Proof.
  unfold ascending. intros Hfin Hs.
  induction Hs as [|y s Hs IH Hy]; cbn [Np.insert_sorted].
  - repeat constructor.
  - apply all_finite_cons in Hfin as [[qx ->] Hfin].
    apply all_finite_cons in Hfin as [[qy ->] Hfin].
    destruct (Finite qx <=? Finite qy) eqn:Hxy.
    + constructor; [by constructor|]. constructor; [done|].
      apply all_finite_Forall in Hfin.
      rewrite Forall_forall in Hy, Hfin |- *. intros z Hz.
      destruct (Hfin z Hz) as [qz ->]. specialize (Hy _ Hz).
      apply fleb_finite in Hxy, Hy. apply fleb_finite.
      by eapply Qcle_trans.
    + constructor.
      * apply IH. apply all_finite_cons. split; [by eexists | done].
      * eapply Permutation_Forall; [symmetry; apply insert_sorted_perm|].
        constructor; [by apply fleb_finite_total | done].
Qed.

Lemma sort_ascending (a : list float64) :
  all_finite a = true -> ascending (Np.sort a).
Proof.
  unfold Np.sort. induction a as [|x a IH]; cbn [foldr]; intros Hfin.
  - constructor.
  - apply insert_sorted_ascending.
    + apply all_finite_cons in Hfin as [Hx Ha]. apply all_finite_cons.
      split; [done | by apply sort_all_finite].
    + apply IH. by apply all_finite_cons in Hfin as [_ Ha].
Qed.

Lemma ascending_lookup (s : list float64) (i j : nat) (x y : float64) :
  ascending s -> (i < j)%nat -> s !! i = Some x -> s !! j = Some y ->
  (x <=? y) = true.
Proof.
  unfold ascending. intros Hs. revert i j.
  induction Hs as [|z s Hs IH Hz]; intros i j Hij Hi Hj; [done|].
  destruct j as [|j]; [lia|]. cbn in Hj.
  destruct i as [|i]; cbn in Hi.
  - injection Hi as ->. rewrite Forall_forall in Hz. apply Hz.
    by eapply list_elem_of_lookup_2.
  - apply (IH i j); [lia|done|done].
Qed.

(** Rational arithmetic on canonical fractions, through plain fractions. *)
Lemma Qc_eq_Qeq (a b : Qc) : a = b <-> (a == b)%Q.
Proof. split; [by intros -> | apply Qc_is_canon]. Qed.

Ltac qc_to_q :=
  rewrite ?Qc_eq_Qeq in *;
  unfold Qcle, Qclt, Qcminus, Qcdiv, Qcplus, Qcmult, Qcopp, Qcinv in *;
  cbn [this Q2Qc] in *;
  rewrite ?Qred_correct in *.

Lemma all_finite_no_nan (a : list float64) :
  all_finite a = true -> existsb is_nan a = false.
Proof.
  induction a as [|x a IH]; [done|].
  intros [[q ->] Ha]%all_finite_cons. cbn [existsb is_nan orb]. by apply IH.
Qed.

Lemma percentile_in_range (qq : Qc) :
  (0 <= qq)%Qc -> (qq <= Q2Qc (inject_Z 100))%Qc ->
  negb ((zero <=? Finite qq) && (Finite qq <=? of_Z 100)) = false.
Proof.
  intros H0 H100. apply negb_false_iff, andb_true_iff.
  split; by apply fleb_finite.
Qed.

(** The percentile of NaN-free data, spelled out: linear interpolation
    between the order statistics around the virtual index. *)
Lemma percentile_linear (a : list float64) (qq : Qc) :
  existsb is_nan a = false -> a <> [] ->
  (0 <= qq)%Qc -> (qq <= Q2Qc (inject_Z 100))%Qc ->
  Np.percentile a (Finite qq) =
    Ok (let s := Np.sort a in
        let n := length a in
        let vi := (Qc_of_nat (n - 1) * (qq / Q2Qc (inject_Z 100)))%Qc in
        let lo := Np.floor_nat vi in
        let hi := Nat.min (lo + 1) (n - 1) in
        let g := (vi - Qc_of_nat lo)%Qc in
        nth lo s NaN + (nth hi s NaN - nth lo s NaN) * Finite g).
Proof.
  intros Hnan Hne H0 H100. unfold Np.percentile.
  rewrite percentile_in_range, Hnan by done.
  destruct a as [|x a]; [done|]. cbv zeta. by rewrite sort_length.
Qed.

Lemma interpolation_between (a b g : Qc) :
  (a <= b)%Qc -> (0 <= g)%Qc -> (g <= 1)%Qc ->
  (a <= a + (b - a) * g)%Qc /\ (a + (b - a) * g <= b)%Qc.
Proof.
  intros Hab Hg0 Hg1. qc_to_q. split; nra.
Qed.

Lemma sum_finite (a : list float64) :
  all_finite a = true -> exists q : Qc, Np.sum a = Finite q.
Proof.
  unfold Np.sum, zero. generalize 0%Qc.
  induction a as [|x a IH]; intros acc Ha; cbn [foldl]; [by eexists|].
  apply all_finite_cons in Ha as [[q ->] Ha]. by apply IH.
Qed.

Lemma mul_finite (a b : list float64) :
  all_finite a = true -> all_finite b = true -> all_finite (Np.mul a b) = true.
Proof.
  unfold Np.mul. revert b. induction a as [|x a IH]; intros [|y b] Ha Hb; try done.
  apply all_finite_cons in Ha as [[qx ->] Ha].
  apply all_finite_cons in Hb as [[qy ->] Hb].
  cbn [zip_with]. apply all_finite_cons. split; [by eexists | by apply IH].
Qed.

Lemma dropna_finite (a : list float64) :
  all_finite a = true -> Pd.dropna a = a.
Proof.
  unfold Pd.dropna. induction a as [|x a IH]; [done|].
  intros [[q ->] Ha]%all_finite_cons. cbn [List.filter is_nan negb].
  by rewrite IH.
Qed.

(** Finite weights and finite asset returns give finite portfolio returns,
    one per period. *)
Lemma calculate_portfolio_returns_finite (weights : Np.ndarray) (returns : Pd.DataFrame) :
  all_finite weights = true -> forallb all_finite returns = true ->
  all_finite (PortfolioMetrics.calculate_portfolio_returns weights returns) = true.
Proof.
  intros Hw. unfold PortfolioMetrics.calculate_portfolio_returns, Pd.sum_axis1, Pd.mul_row.
  induction returns as [|row returns IH]; [done|].
  cbn [forallb map]. intros [Hrow Hrest]%andb_true_iff.
  apply all_finite_cons. split; [|by apply IH].
  unfold Pd.sum. rewrite dropna_finite by (by apply mul_finite).
  by apply sum_finite, mul_finite.
Qed.

Lemma calculate_portfolio_returns_length (weights : Np.ndarray) (returns : Pd.DataFrame) :
  length (PortfolioMetrics.calculate_portfolio_returns weights returns) = length returns.
Proof.
  unfold PortfolioMetrics.calculate_portfolio_returns, Pd.sum_axis1, Pd.mul_row.
  by rewrite !length_map.
Qed.

Lemma nth_lookup_finite (s : list float64) (i : nat) :
  all_finite s = true -> (i < length s)%nat ->
  exists q : Qc, nth i s NaN = Finite q /\ s !! i = Some (Finite q).
Proof.
  intros Hfin Hi. destruct (lookup_lt_is_Some_2 s i Hi) as [x Hx].
  rewrite all_finite_Forall, Forall_forall in Hfin.
  destruct (Hfin x) as [q ->]; [by eapply list_elem_of_lookup_2|].
  exists q. split; [|done]. by apply nth_lookup_Some with (d := NaN) in Hx.
Qed.

(** C3, as the code has it.  Over 100 periods of finite data, the 95% value
    at risk is NumPy's default percentile of the realized weighted returns:
    the point 95% of the way from the 5th-smallest to the 6th-smallest
    return.  It lies between the two and equals the 5th-smallest only when
    they coincide.  Nothing but the realized series enters the value (no
    mean, no variance, no normal quantile). *)
Theorem value_at_risk_95_interpolates (weights : Np.ndarray) (returns : Pd.DataFrame) :
  length returns = 100%nat ->
  all_finite weights = true ->
  forallb all_finite returns = true ->
  exists fifth sixth : Qc,
    order_statistic 5 (PortfolioMetrics.calculate_portfolio_returns weights returns)
      = Finite fifth /\
    order_statistic 6 (PortfolioMetrics.calculate_portfolio_returns weights returns)
      = Finite sixth /\
    PortfolioMetrics.value_at_risk weights returns (frac 95 100)
      = Ok (Finite (fifth + (sixth - fifth) * Q2Qc (19 # 20))) /\
    (fifth <= fifth + (sixth - fifth) * Q2Qc (19 # 20))%Qc /\
    (fifth + (sixth - fifth) * Q2Qc (19 # 20) <= sixth)%Qc /\
    ((fifth + (sixth - fifth) * Q2Qc (19 # 20))%Qc = fifth <-> fifth = sixth).
Proof.
  intros Hlen Hw Hret.
  pose proof (calculate_portfolio_returns_finite weights returns Hw Hret) as Hfin.
  pose proof (calculate_portfolio_returns_length weights returns) as Hlen'.
  unfold PortfolioMetrics.value_at_risk.
  fold (PortfolioMetrics.calculate_portfolio_returns weights returns).
  set (pr := PortfolioMetrics.calculate_portfolio_returns weights returns) in *.
  rewrite Hlen in Hlen'.
  pose proof (sort_all_finite pr Hfin) as Hsfin.
  pose proof (sort_ascending pr Hfin) as Hasc.
  destruct (nth_lookup_finite (Np.sort pr) 4 Hsfin) as (fifth & H5 & L5);
    [rewrite sort_length; lia|].
  destruct (nth_lookup_finite (Np.sort pr) 5 Hsfin) as (sixth & H6 & L6);
    [rewrite sort_length; lia|].
  exists fifth, sixth.
  assert (Hle : (fifth <= sixth)%Qc).
  { apply fleb_finite. by apply (ascending_lookup (Np.sort pr) 4 5); [|lia| |]. }
  split; [exact H5|]. split; [exact H6|]. split.
  - replace ((one - frac 95 100) * of_Z 100) with (Finite (Q2Qc (inject_Z 5)))
      by compute_done.
    rewrite percentile_linear; [|by apply all_finite_no_nan| |done|done].
    + cbv zeta. rewrite Hlen'.
      set (vi := (Qc_of_nat (100 - 1) * (Q2Qc (inject_Z 5) / Q2Qc (inject_Z 100)))%Qc).
      replace (Np.floor_nat vi) with 4%nat by (vm_compute; reflexivity).
      replace (vi - Qc_of_nat 4)%Qc with (Q2Qc (19 # 20)) by compute_done.
      change (Nat.min (4 + 1) (100 - 1)) with 5%nat.
      by rewrite H5, H6.
    + intros ->. discriminate.
  - assert (Hg0 : (0 <= Q2Qc (19 # 20))%Qc) by done.
    assert (Hg1 : (Q2Qc (19 # 20) <= 1)%Qc) by done.
    destruct (interpolation_between fifth sixth (Q2Qc (19 # 20)) Hle Hg0 Hg1)
      as [Hlo Hhi].
    split; [done|]. split; [done|].
    clear -Hle. qc_to_q. split; intros H; lra.
Qed.

Lemma Qc_of_nat_Q (k : nat) : (Qc_of_nat k == inject_Z (Z.of_nat k))%Q.
Proof. unfold Qc_of_nat. cbn [this Q2Qc]. apply Qred_correct. Qed.

Lemma inject_Z_of_nat_nonneg (k : nat) : (0 <= inject_Z (Z.of_nat k))%Q.
Proof. unfold Qle. simpl. lia. Qed.

(** The virtual index [(n - 1) * q / 100] stays within the array. *)
Lemma virtual_index_bounds (n : nat) (qq : Qc) :
  (0 <= qq)%Qc -> (qq <= Q2Qc (inject_Z 100))%Qc ->
  (0 <= Qc_of_nat (n - 1) * (qq / Q2Qc (inject_Z 100)))%Qc /\
  (Qc_of_nat (n - 1) * (qq / Q2Qc (inject_Z 100)) <= Qc_of_nat (n - 1))%Qc.
Proof.
  intros H0 H100. pose proof (inject_Z_of_nat_nonneg (n - 1)) as HN.
  qc_to_q. rewrite !Qc_of_nat_Q. change (inject_Z 100) with (100 # 1)%Q in *.
  change (/ (100 # 1))%Q with (1 # 100)%Q.
  set (N := inject_Z (Z.of_nat (n - 1))) in *.
  assert (Ht0 : (0 <= qq * (1 # 100))%Q) by lra.
  assert (Ht1 : (qq * (1 # 100) <= 1)%Q) by lra.
  set (t := (qq * (1 # 100))%Q) in *. split; nra.
Qed.

Lemma floor_nat_bounds (vi : Qc) (m : nat) :
  (0 <= vi)%Qc -> (vi <= Qc_of_nat m)%Qc ->
  (Np.floor_nat vi <= m)%nat /\ (Qc_of_nat (Np.floor_nat vi) <= vi)%Qc.
Proof.
  intros H0 Hm. unfold Np.floor_nat.
  assert (Hz0 : (0 <= Qfloor vi)%Z) by apply (Qfloor_resp_le 0 vi H0).
  assert (Hzm : (Qfloor vi <= Z.of_nat m)%Z).
  { rewrite <- (Qfloor_Z (Z.of_nat m)). apply Qfloor_resp_le.
    unfold Qcle in Hm. by rewrite Qc_of_nat_Q in Hm. }
  split; [lia|].
  unfold Qcle. rewrite Qc_of_nat_Q, Z2Nat.id by done. apply Qfloor_le.
Qed.

Lemma Qc_of_nat_succ (k : nat) : Qc_of_nat (S k) = (Qc_of_nat k + 1)%Qc.
Proof.
  apply Qc_is_canon. unfold Qcplus. cbn [this Q2Qc].
  rewrite Qred_correct, !Qc_of_nat_Q, Nat2Z.inj_succ.
  unfold Z.succ. rewrite inject_Z_plus. reflexivity.
Qed.

(** The sum of finite values that are all at most [v]. *)
Lemma sum_le_bound (l : list float64) (v : Qc) :
  all_finite l = true ->
  Forall (fun x => (x <=? Finite v) = true) l ->
  exists t : Qc, Np.sum l = Finite t /\ (t <= Qc_of_nat (length l) * v)%Qc.
Proof.
  intros Hfin Hle.
  assert (Hgen : forall acc : Qc, exists t : Qc,
            foldl fadd (Finite acc) l = Finite t /\
            (t <= acc + Qc_of_nat (length l) * v)%Qc).
  { induction l as [|x l IH]; intros acc.
    - exists acc. split; [done|]. cbn [length].
      change (Qc_of_nat 0) with 0%Qc. qc_to_q. lra.
    - apply all_finite_cons in Hfin as [[qx ->] Hfin].
      inversion Hle as [|? ? Hx Hl]; subst. apply fleb_finite in Hx.
      destruct (IH Hfin Hl (acc + qx)%Qc) as (t & Ht & Hbound).
      exists t. split; [exact Ht|]. cbn [length]. rewrite Qc_of_nat_succ.
      qc_to_q. nra. }
  destruct (Hgen 0%Qc) as (t & Ht & Hbound).
  exists t. split; [exact Ht|]. qc_to_q. lra.
Qed.

(** The mean of a non-empty sample of finite values at most [v] is finite and
    at most [v]. *)
Lemma mean_le_bound (l : list float64) (v : Qc) :
  l <> [] -> all_finite l = true ->
  Forall (fun x => (x <=? Finite v) = true) l ->
  exists m : Qc,
    Pd.mean l = Finite m /\
    Np.sum l / of_nat (length l) = Finite m /\ (m <= v)%Qc.
Proof.
  intros Hne Hfin Hle.
  destruct (sum_le_bound l v Hfin Hle) as (t & Ht & Hbound).
  assert (Hlen : (1 <= length l)%nat) by (destruct l; [done | simpl; lia]).
  pose proof (Qc_of_nat_nonzero (length l) Hlen) as Hnz.
  exists (t / Qc_of_nat (length l))%Qc.
  assert (Hdiv : Np.sum l / of_nat (length l) = Finite (t / Qc_of_nat (length l))).
  { rewrite Ht. unfold of_nat, fdiv. by destruct (Qc_eq_dec (Qc_of_nat (length l)) 0). }
  split; [|split; [exact Hdiv|]].
  - unfold Pd.mean. rewrite dropna_finite by done. by destruct l.
  - assert (Hpos : (0 < Qc_of_nat (length l))%Q).
    { rewrite Qc_of_nat_Q. unfold Qlt. simpl. lia. }
    clear Hnz Hdiv. qc_to_q. apply Qle_shift_div_r; [done|]. lra.
Qed.

Lemma filter_all_finite (f : float64 -> bool) (l : list float64) :
  all_finite l = true -> all_finite (List.filter f l) = true.
Proof.
  induction l as [|x l IH]; [done|].
  intros [Hx Hl]%all_finite_cons. cbn [List.filter].
  destruct (f x); [|by apply IH].
  apply all_finite_cons. split; [done | by apply IH].
Qed.

Lemma filter_Forall (f : float64 -> bool) (l : list float64) :
  Forall (fun x => f x = true) (List.filter f l).
Proof.
  apply List.Forall_forall. intros x Hx. by apply filter_In in Hx as [_ Hx].
Qed.

(** The percentile of finite data is finite and at least one of the data. *)
Lemma percentile_finite_lower (a : list float64) (qq : Qc) :
  all_finite a = true -> a <> [] ->
  (0 <= qq)%Qc -> (qq <= Q2Qc (inject_Z 100))%Qc ->
  exists v x : Qc,
    Np.percentile a (Finite qq) = Ok (Finite v) /\
    In (Finite x) a /\ (x <= v)%Qc.
Proof.
  intros Hfin Hne H0 H100.
  rewrite percentile_linear by (done || by apply all_finite_no_nan).
  cbv zeta.
  assert (Hn : (1 <= length a)%nat) by (destruct a; [done | simpl; lia]).
  destruct (virtual_index_bounds (length a) qq H0 H100) as [Hvi0 Hvin].
  set (vi := (Qc_of_nat (length a - 1) * (qq / Q2Qc (inject_Z 100)))%Qc) in *.
  destruct (floor_nat_bounds vi (length a - 1) Hvi0 Hvin) as [Hlo Hg].
  set (lo := Np.floor_nat vi) in *.
  set (hi := Nat.min (lo + 1) (length a - 1)).
  pose proof (sort_all_finite a Hfin) as Hsfin.
  pose proof (sort_ascending a Hfin) as Hasc.
  destruct (nth_lookup_finite (Np.sort a) lo Hsfin) as (x & Hx & Lx);
    [rewrite sort_length; lia|].
  destruct (nth_lookup_finite (Np.sort a) hi Hsfin) as (y & Hy & Ly);
    [rewrite sort_length; lia|].
  rewrite Hx, Hy.
  assert (Hxy : (x <= y)%Qc).
  { destruct (decide (lo = hi)) as [Heq|Hneq].
    - rewrite <- Heq, Lx in Ly. injection Ly as ->. apply Qcle_refl.
    - apply fleb_finite. apply (ascending_lookup (Np.sort a) lo hi); [done|lia|done|done]. }
  exists (x + (y - x) * (vi - Qc_of_nat lo))%Qc, x.
  split; [reflexivity|]. split.
  - eapply Permutation_in; [apply sort_perm|].
    by eapply list_elem_of_In, list_elem_of_lookup_2.
  - clear -Hxy Hg. qc_to_q. nra.
Qed.

(** C5, as the code has it.  Over a non-empty series of finite data and a
    confidence level in [0, 1], both risk measures are finite numbers.  The
    realized weighted returns that are at most the value at risk of the same
    confidence level form a tail that is not empty, and the conditional value
    at risk is the mean of exactly that tail: the sum of its members divided
    by their number.  Every member of the tail is at most the value at risk;
    for the mean itself this holds up to rounding only, see
    [conditional_value_at_risk_above_value_at_risk]. *)
Theorem conditional_value_at_risk_tail_mean (weights : Np.ndarray)
    (returns : Pd.DataFrame) (confidence_level : Qc) :
  returns <> [] ->
  all_finite weights = true ->
  forallb all_finite returns = true ->
  (0 <= confidence_level)%Qc -> (confidence_level <= 1)%Qc ->
  exists var cvar : Qc,
    PortfolioMetrics.value_at_risk weights returns (Finite confidence_level)
      = Ok (Finite var) /\
    PortfolioMetrics.conditional_value_at_risk weights returns (Finite confidence_level)
      = Ok (Finite cvar) /\
    let tail := List.filter (fun r => r <=? Finite var)
                  (PortfolioMetrics.calculate_portfolio_returns weights returns) in
    tail <> [] /\
    Forall (fun r => (r <=? Finite var) = true) tail /\
    Np.sum tail / of_nat (length tail) = Finite cvar.
Proof.
  intros Hne Hw Hret Hc0 Hc1.
  pose proof (calculate_portfolio_returns_finite weights returns Hw Hret) as Hfin.
  pose proof (calculate_portfolio_returns_length weights returns) as Hlen.
  unfold PortfolioMetrics.conditional_value_at_risk, PortfolioMetrics.value_at_risk.
  fold (PortfolioMetrics.calculate_portfolio_returns weights returns).
  set (pr := PortfolioMetrics.calculate_portfolio_returns weights returns) in *.
  assert (Hpr : pr <> []).
  { intros Hnil. rewrite Hnil in Hlen. by destruct returns. }
  change ((one - Finite confidence_level) * of_Z 100)
    with (Finite ((1 + - confidence_level) * Q2Qc (inject_Z 100))%Qc).
  set (qq := ((1 + - confidence_level) * Q2Qc (inject_Z 100))%Qc).
  assert (Hq : (0 <= qq)%Qc /\ (qq <= Q2Qc (inject_Z 100))%Qc).
  { subst qq. clear -Hc0 Hc1. qc_to_q.
    change (inject_Z 100) with (100 # 1)%Q. split; lra. }
  destruct Hq as [Hq0 Hq100].
  destruct (percentile_finite_lower pr qq Hfin Hpr Hq0 Hq100)
    as (var & x & Hvar & Hin & Hx).
  set (tail := List.filter (fun r => r <=? Finite var) pr).
  assert (Htail : tail <> []).
  { assert (Hmem : In (Finite x) tail).
    { apply filter_In. split; [done | by apply fleb_finite]. }
    intros Hnil. by rewrite Hnil in Hmem. }
  destruct (mean_le_bound tail var Htail) as (cvar & Hmean & Hsum & Hle).
  { by apply filter_all_finite. }
  { apply (filter_Forall (fun r => r <=? Finite var)). }
  exists var, cvar. rewrite Hvar. cbn [mbind result_bind mret result_ret].
  unfold Pd.select. fold tail. rewrite Hmean.
  split; [done|]. split; [done|]. split; [done|]. split; [|done].
  apply Forall_forall. intros r Hr. apply list_elem_of_In in Hr.
  by apply filter_In in Hr as [_ Hr].
Qed.

Lemma value_at_risk_95_interpolates_witness :
  length hundred_periods = 100%nat /\
  all_finite [one] = true /\
  forallb all_finite hundred_periods = true /\
  exists fifth sixth : Qc,
    order_statistic 5 (PortfolioMetrics.calculate_portfolio_returns [one] hundred_periods)
      = Finite fifth /\
    order_statistic 6 (PortfolioMetrics.calculate_portfolio_returns [one] hundred_periods)
      = Finite sixth /\
    PortfolioMetrics.value_at_risk [one] hundred_periods (frac 95 100)
      = Ok (Finite (fifth + (sixth - fifth) * Q2Qc (19 # 20))).
Proof.
  assert (Hlen : length hundred_periods = 100%nat) by reflexivity.
  assert (Hw : all_finite [one] = true) by reflexivity.
  assert (Hret : forallb all_finite hundred_periods = true) by (vm_compute; reflexivity).
  destruct (value_at_risk_95_interpolates [one] hundred_periods Hlen Hw Hret)
    as (fifth & sixth & H5 & H6 & Hvar & _).
  split; [exact Hlen|]. split; [exact Hw|]. split; [exact Hret|].
  exists fifth, sixth. split; [exact H5|]. split; [exact H6 | exact Hvar].
Defined.

(** C3, as stated, fails.  One asset at weight 1 over 100 periods with the
    returns 0.01, 0.02, ..., 1.00: the 5th-smallest realized return is 0.05
    and the 6th-smallest 0.06, while [value_at_risk] at 95% returns 0.0595,
    a value interpolated between the two. *)
Lemma value_at_risk_95_is_not_the_fifth_smallest :
  length hundred_periods = 100%nat /\
  order_statistic 5 (PortfolioMetrics.calculate_portfolio_returns [one] hundred_periods)
    = frac 5 100 /\
  order_statistic 6 (PortfolioMetrics.calculate_portfolio_returns [one] hundred_periods)
    = frac 6 100 /\
  PortfolioMetrics.value_at_risk [one] hundred_periods (frac 95 100)
    = Ok (frac 595 10000) /\
  frac 595 10000 <> frac 5 100.
Proof. repeat split; compute_done. Qed.

Lemma conditional_value_at_risk_tail_mean_witness :
  hundred_periods <> [] /\
  all_finite [one] = true /\
  forallb all_finite hundred_periods = true /\
  (0 <= Q2Qc (95 # 100))%Qc /\ (Q2Qc (95 # 100) <= 1)%Qc /\
  exists var cvar : Qc,
    PortfolioMetrics.value_at_risk [one] hundred_periods (Finite (Q2Qc (95 # 100)))
      = Ok (Finite var) /\
    PortfolioMetrics.conditional_value_at_risk [one] hundred_periods
      (Finite (Q2Qc (95 # 100))) = Ok (Finite cvar) /\
    Np.sum (List.filter (fun r => r <=? Finite var)
              (PortfolioMetrics.calculate_portfolio_returns [one] hundred_periods))
    / of_nat (length (List.filter (fun r => r <=? Finite var)
                        (PortfolioMetrics.calculate_portfolio_returns [one]
                           hundred_periods)))
    = Finite cvar.
Proof.
  assert (Hne : hundred_periods <> []) by discriminate.
  assert (Hw : all_finite [one] = true) by reflexivity.
  assert (Hret : forallb all_finite hundred_periods = true) by (vm_compute; reflexivity).
  assert (Hc0 : (0 <= Q2Qc (95 # 100))%Qc) by (vm_compute; discriminate).
  assert (Hc1 : (Q2Qc (95 # 100) <= 1)%Qc) by (vm_compute; discriminate).
  destruct (conditional_value_at_risk_tail_mean [one] hundred_periods (Q2Qc (95 # 100))
              Hne Hw Hret Hc0 Hc1) as (var & cvar & Hvar & Hcvar & _ & _ & Hmean).
  split; [exact Hne|]. split; [exact Hw|]. split; [exact Hret|].
  split; [exact Hc0|]. split; [exact Hc1|].
  exists var, cvar. split; [exact Hvar|]. split; [exact Hcvar | exact Hmean].
Defined.

End Percentile_facts.

(** ** The risk measures in binary64 *)

Section Binary64_facts.

Import PrimFloat.

(** C5, as stated, fails in the float64 arithmetic of the code.  One asset at
    weight 1.0 that returns 0.1 in each of three periods: the value at risk
    at 95% is 0.1, all three realized returns are in the tail, and their
    float64 mean, the conditional value at risk, is 0.10000000000000002,
    above the value at risk. *)
Lemma conditional_value_at_risk_above_value_at_risk :
  B64.PortfolioMetrics.calculate_portfolio_returns [1%float] B64.three_flat_periods
    = [0.1; 0.1; 0.1]%float /\
  B64.PortfolioMetrics.value_at_risk [1%float] B64.three_flat_periods 0.95%float
    = Ok 0.1%float /\
  B64.PortfolioMetrics.conditional_value_at_risk [1%float] B64.three_flat_periods
    0.95%float = Ok 0.10000000000000002%float /\
  PrimFloat.ltb 0.1%float 0.10000000000000002%float = true.
Proof. repeat split; vm_compute; reflexivity. Qed.

End Binary64_facts.

(** ** Rebalancer *)

Section Rebalancer_facts.

Import PortfolioRebalancer.

Lemma any_zip_with_lookup {A B C : Type} (f : A -> B -> C) (p : C -> bool)
    (l1 : list A) (l2 : list B) :
  Np.any (map p (zip_with f l1 l2)) = true <->
  exists (i : nat) (a : A) (b : B),
    l1 !! i = Some a /\ l2 !! i = Some b /\ p (f a b) = true.
Proof.
  unfold Np.any. revert l2. induction l1 as [|a l1 IH]; intros [|b l2]; simpl.
  - split; [done | by intros (i & ? & ? & ? & _)].
  - split; [done | by intros (i & ? & ? & ? & _)].
  - split; [done | by intros ([|i] & ? & ? & _ & ? & _)].
  - rewrite orb_true_iff, IH. unfold id. split.
    + intros [Hp | (i & a' & b' & Ha & Hb & Hp)].
      * by exists 0%nat, a, b.
      * by exists (S i), a', b'.
    + intros ([|i] & a' & b' & Ha & Hb & Hp); simpl in *.
      * left. congruence.
      * right. by exists i, a', b'.
Qed.

(** C7.  [check_drift] reports a need to rebalance exactly when some asset's
    own absolute drift [|current_i - target_i|] exceeds the threshold, and the
    second component is the vector of these absolute drifts.  With target
    (0.5, 0.5) and threshold 0.05: the values (50, 50) give the weights
    (0.5, 0.5), drifts (0, 0) and no rebalancing; the values (80, 20) give the
    weights (0.8, 0.2), rebalancing, and a largest drift of 0.30. *)
Theorem check_drift_per_asset_threshold :
  (forall (self : t) (current_weights : Np.ndarray),
     (fst (check_drift self current_weights) = true <->
      exists (i : nat) (current target : float64),
        current_weights !! i = Some current /\
        target_weights self !! i = Some target /\
        (fabs (current - target) >? drift_threshold self) = true) /\
     snd (check_drift self current_weights)
       = zip_with (fun current target => fabs (current - target))
           current_weights (target_weights self)) /\
  (forall tickers : list string,
     let self := __init__ [frac 1 2; frac 1 2] tickers (frac 5 100) in
     calculate_current_weights self [of_Z 50; of_Z 50] = Ok [frac 1 2; frac 1 2] /\
     check_drift self [frac 1 2; frac 1 2] = (false, [zero; zero]) /\
     calculate_current_weights self [of_Z 80; of_Z 20] = Ok [frac 4 5; frac 1 5] /\
     check_drift self [frac 4 5; frac 1 5] = (true, [frac 3 10; frac 3 10]) /\
     Np.max [frac 3 10; frac 3 10] = Ok (frac 3 10)).
Proof.
  split.
  - intros self current_weights. split.
    + unfold check_drift, Np.abs, Np.sub. cbn [fst].
      rewrite <- (any_zip_with_lookup fsub (fun d => fabs d >? drift_threshold self)).
      by rewrite map_map.
    + unfold check_drift, Np.abs, Np.sub. cbn [snd].
      generalize (target_weights self). induction current_weights as [|c l IH];
        intros [|t l']; simpl; try done. by rewrite IH.
  - intros tickers self. repeat split; compute_done.
Qed.

End Rebalancer_facts.

(** ** Optimizer: closed-form objective and dispatch *)

Section Optimizer_facts.

Import PortfolioOptimizer.

Lemma truediv_one_of_nat (n : nat) :
  (1 <= n)%nat -> Py.truediv one (of_nat n) = Ok (Finite (1 / Qc_of_nat n)).
Proof.
  intros Hn. unfold Py.truediv, of_nat, zero, one, feqb, fdiv.
  destruct (Qc_eq_dec (Qc_of_nat n) 0) as [H0|_]; [|done].
  by apply Qc_of_nat_nonzero in H0.
Qed.

(** The constructor accepts exactly the non-empty asset lists. *)
Lemma init_n_assets (mean_returns : Np.ndarray) (cov_matrix : Np.matrix)
    (risk_free_rate : float64) (self : t) :
  __init__ mean_returns cov_matrix risk_free_rate = Ok self ->
  n_assets self = length mean_returns /\ (1 <= n_assets self)%nat.
Proof.
  unfold __init__. destruct (Nat.eqb_spec (length mean_returns) 0) as [|Hn]; [done|].
  intros [= <-]. simpl. lia.
Qed.

(** C8.  For an optimiser over N >= 1 assets, [optimize_equal_weight] returns
    the N weights 1/N, computed in closed form: the function takes no solver,
    and the dispatcher reaches it for 'equal_weight' whatever solver it is
    given.  For N = 4 the weights are exactly (0.25, 0.25, 0.25, 0.25). *)
Theorem optimize_equal_weight_closed_form (self : t) :
  (1 <= n_assets self)%nat ->
  let weights := replicate (n_assets self) (Finite (1 / Qc_of_nat (n_assets self))) in
  optimize_equal_weight self = Ok (weights, metrics_at self weights) /\
  (forall (minimize : Scipy.minimize_t) (kw : kwargs),
     optimize minimize self "equal_weight" kw = optimize_equal_weight self) /\
  (n_assets self = 4%nat ->
   weights = [frac 1 4; frac 1 4; frac 1 4; frac 1 4]).
Proof.
  intros Hn weights. repeat split.
  - unfold optimize_equal_weight. by rewrite truediv_one_of_nat.
  - intros Hfour. subst weights. rewrite Hfour. compute_done.
Qed.

Lemma optimize_equal_weight_closed_form_witness :
  __init__ (mean_returns four_assets) (cov_matrix four_assets) (risk_free_rate four_assets)
    = Ok four_assets /\
  fst <$> optimize_equal_weight four_assets
    = Ok [frac 1 4; frac 1 4; frac 1 4; frac 1 4].
Proof.
  split; [reflexivity|].
  destruct (optimize_equal_weight_closed_form four_assets) as (Hw & _ & Hfour).
  - simpl. lia.
  - rewrite Hw. cbn [fmap result_fmap fst]. rewrite Hfour; reflexivity.
Defined.

(** Lowering a character and comparing with a character that is not a
    capital letter is comparison up to case. *)
Lemma lower_ascii_caseless (c d : ascii) :
  is_upper (nat_of_ascii d) = false ->
  Ascii.eqb (Py.lower_ascii c) d = caseless_ascii c d.
Proof.
  intros Hd. unfold Py.lower_ascii, caseless_ascii. fold (is_upper (nat_of_ascii c)).
  rewrite Hd, andb_false_l, orb_false_r.
  pose proof (nat_ascii_bounded c) as Hc.
  destruct (is_upper (nat_of_ascii c)) eqn:Hup.
  - unfold is_upper in Hup, Hd.
    apply andb_true_iff in Hup as [Hlo%Nat.leb_le Hhi%Nat.leb_le].
    rewrite andb_true_l.
    destruct (Nat.eqb_spec (nat_of_ascii d) (nat_of_ascii c + 32)) as [He|Hne].
    + rewrite orb_true_r. apply Ascii.eqb_eq.
      rewrite <- He. apply ascii_nat_embedding.
    + rewrite orb_false_r.
      destruct (Nat.eqb_spec (nat_of_ascii c) (nat_of_ascii d)) as [He|_].
      { rewrite <- He in Hd. apply andb_false_iff in Hd as [H%Nat.leb_gt|H%Nat.leb_gt]; lia. }
      apply Ascii.eqb_neq. intros He. apply Hne. rewrite <- He.
      rewrite nat_ascii_embedding; lia.
  - rewrite andb_false_l, orb_false_r.
    destruct (Nat.eqb_spec (nat_of_ascii c) (nat_of_ascii d)) as [He|Hne].
    + apply Ascii.eqb_eq. rewrite <- (ascii_nat_embedding c), He.
      apply ascii_nat_embedding.
    + apply Ascii.eqb_neq. congruence.
Qed.

Lemma lower_eqb_caseless (s name : string) :
  no_capital name = true ->
  String.eqb (Py.lower s) name = caseless_eqb s name.
Proof.
  revert name. induction s as [|c s IH]; intros [|d name]; simpl; try done.
  intros [Hd Hname]%andb_true_iff. apply negb_true_iff in Hd.
  rewrite lower_ascii_caseless by done. rewrite IH by done.
  by destruct (caseless_ascii c d).
Qed.

(** A string names an objective exactly when it equals the objective's name
    up to case. *)
Lemma recognize_Some (objective : string) (k : objective_kind) :
  recognize objective = Some k <-> caseless_eqb objective (objective_name k) = true.
Proof.
  unfold recognize, all_objectives.
  destruct k; cbn [List.find objective_name];
    rewrite <- !lower_eqb_caseless by reflexivity;
    generalize (Py.lower objective); intros name;
    repeat match goal with
           | |- context [String.eqb name ?n] =>
               destruct (String.eqb_spec name n) as [->|?]; [simpl|]
           end;
    split; intros H; try done; congruence.
Qed.

Lemma recognize_None (objective : string) :
  recognize objective = None <->
  forall k : objective_kind, caseless_eqb objective (objective_name k) = false.
Proof.
  split.
  - intros Hnone k. destruct (caseless_eqb objective (objective_name k)) eqn:Hk; [|done].
    apply recognize_Some in Hk. congruence.
  - intros Hall. destruct (recognize objective) as [k|] eqn:Hk; [|done].
    apply recognize_Some in Hk. by rewrite Hall in Hk.
Qed.

Example recognize_examples :
  recognize "MAX_SHARPE" = Some MaxSharpe /\
  recognize "Risk_Parity" = Some RiskParity /\
  recognize "sharpe" = None /\
  recognize "" = None.
Proof. repeat split; reflexivity. Qed.

(** C9.  The dispatcher lowers the objective string and compares it with the
    five names, so a string is accepted exactly when it equals one of the
    names up to the case of its letters, and it then runs that objective;
    every other string raises ValueError, and no allocation is returned. *)
Theorem optimize_dispatch_caseless (minimize : Scipy.minimize_t) (self : t)
    (objective : string) (kw : kwargs) :
  optimize minimize self objective kw =
    match recognize objective with
    | Some k => run_objective minimize self k kw
    | None => Raise (ValueError ("Unknown objective: " ++ Py.lower objective))
    end.
Proof.
  unfold optimize, recognize, all_objectives. cbn [List.find objective_name].
  rewrite !lower_eqb_caseless by reflexivity.
  repeat match goal with
         | |- context [caseless_eqb objective ?n] =>
             destruct (caseless_eqb objective n); [reflexivity|]
         end.
  reflexivity.
Qed.

End Optimizer_facts.

(** ** Optimizer: solver-backed objectives *)

Section Solver_facts.

Import PortfolioOptimizer.

Lemma initial_guess_ok (self : t) (min_weight : float64) :
  (1 <= n_assets self)%nat ->
  exists x0 : Np.ndarray, initial_guess self min_weight = Ok x0.
Proof.
  intros Hn. unfold initial_guess. rewrite truediv_one_of_nat by done.
  destruct (_ >? _); eexists; reflexivity.
Qed.

(** The shared tail of the four objectives: run the solver, keep [result.x],
    compute the metrics there. *)
Lemma solver_tail_returns_iterate (self : t) (solved : result Scipy.OptimizeResult) :
  returns_iterate self solved
    (result ← solved;
     mret (Scipy.x result, metrics_at self (Scipy.x result))).
Proof. intros r ->. reflexivity. Qed.

Lemma solver_tail_same_iterate (self : t) (solved solved' : result Scipy.OptimizeResult) :
  Scipy.x <$> solved = Scipy.x <$> solved' ->
  (result ← solved; mret (Scipy.x result, metrics_at self (Scipy.x result)))
  = (result ← solved'; mret (Scipy.x result, metrics_at self (Scipy.x result))).
Proof.
  destruct solved as [r|e], solved' as [r'|e']; cbn; intros [=]; congruence.
Qed.

(** C2, as the code has it.  Over at least one asset, each of the four
    solver-backed objectives computes its starting point and, for whatever
    result the solver call produces (converged or not), returns the solver's
    final iterate together with the three metrics computed at it: a run that
    did not converge is not an error.  The returned pair carries no
    convergence flag: two solvers that end on the same iterates give equal
    results, whatever their success flags say. *)
Theorem optimize_returns_final_iterate_without_flag
    (minimize minimize' : Scipy.minimize_t) (self : t) :
  (1 <= n_assets self)%nat ->
  same_iterate minimize minimize' ->
  (forall (allow_short : bool) (min_weight max_weight : float64)
          (target_volatility : option float64),
     exists x0 : Np.ndarray,
       initial_guess self min_weight = Ok x0 /\
       returns_iterate self
         (minimize (neg_sharpe self) x0
            (_get_bounds self allow_short min_weight max_weight)
            (_get_constraints self allow_short))
         (optimize_max_sharpe minimize self allow_short min_weight max_weight) /\
       returns_iterate self
         (minimize (portfolio_vol self) x0
            (_get_bounds self allow_short min_weight max_weight)
            (_get_constraints self allow_short))
         (optimize_min_volatility minimize self allow_short min_weight max_weight) /\
       returns_iterate self
         (minimize (neg_return self) x0
            (_get_bounds self allow_short min_weight max_weight)
            (max_return_constraints self allow_short target_volatility))
         (optimize_max_return minimize self target_volatility allow_short
            min_weight max_weight) /\
       returns_iterate self
         (minimize (risk_parity_objective self) x0
            (_get_bounds self false min_weight max_weight)
            (_get_constraints self false))
         (optimize_risk_parity minimize self min_weight max_weight)) /\
  (forall (allow_short : bool) (min_weight max_weight : float64)
          (target_volatility : option float64),
     optimize_max_sharpe minimize self allow_short min_weight max_weight
       = optimize_max_sharpe minimize' self allow_short min_weight max_weight /\
     optimize_min_volatility minimize self allow_short min_weight max_weight
       = optimize_min_volatility minimize' self allow_short min_weight max_weight /\
     optimize_max_return minimize self target_volatility allow_short min_weight max_weight
       = optimize_max_return minimize' self target_volatility allow_short
           min_weight max_weight /\
     optimize_risk_parity minimize self min_weight max_weight
       = optimize_risk_parity minimize' self min_weight max_weight).
Proof.
  intros Hn Hsame. split.
  - intros allow_short min_weight max_weight target_volatility.
    destruct (initial_guess_ok self min_weight Hn) as [x0 Hx0].
    exists x0. split; [done|].
    unfold optimize_max_sharpe, optimize_min_volatility, optimize_max_return,
      optimize_risk_parity.
    rewrite Hx0. cbn [mbind result_bind].
    repeat split; apply solver_tail_returns_iterate.
  - intros allow_short min_weight max_weight target_volatility.
    unfold optimize_max_sharpe, optimize_min_volatility, optimize_max_return,
      optimize_risk_parity.
    destruct (initial_guess self min_weight) as [x0|e]; cbn [mbind result_bind];
      [|done].
    repeat split; apply solver_tail_same_iterate, Hsame.
Qed.

(** A run stopped at the iteration limit on four assets: the optimiser
    returns its iterate, and the same pair as for the converged run. *)
Lemma optimize_returns_final_iterate_without_flag_witness :
  (1 <= n_assets four_assets)%nat /\
  same_iterate solver_stalled solver_converged /\
  optimize_max_sharpe solver_stalled four_assets false zero one
    = Ok (Scipy.x stalled_result, metrics_at four_assets (Scipy.x stalled_result)) /\
  optimize_max_sharpe solver_stalled four_assets false zero one
    = optimize_max_sharpe solver_converged four_assets false zero one.
Proof.
  assert (Hn : (1 <= n_assets four_assets)%nat) by (simpl; lia).
  assert (Hsame : same_iterate solver_stalled solver_converged)
    by (intros f x0 bounds constraints; reflexivity).
  destruct (optimize_returns_final_iterate_without_flag
              solver_stalled solver_converged four_assets Hn Hsame) as [Hret Heq].
  split; [exact Hn|]. split; [exact Hsame|]. split.
  - destruct (Hret false zero one None) as (x0 & _ & Hsharpe & _).
    apply Hsharpe. reflexivity.
  - apply (Heq false zero one None).
Defined.

(** C2, as stated, fails: a run that stopped at the iteration limit
    ([success = False]) and a converged run ending on the same point give the
    very same returned pair, whose metrics dictionary has the three keys
    'Expected Return', 'Volatility' and 'Sharpe Ratio' and nothing else; no
    convergence flag reaches the caller. *)
Lemma optimize_result_has_no_convergence_flag :
  Scipy.success stalled_result = false /\
  Scipy.success converged_result = true /\
  optimize_max_sharpe solver_stalled four_assets false zero one
    = optimize_max_sharpe solver_converged four_assets false zero one /\
  (Py.keys ∘ snd) <$> optimize_max_sharpe solver_stalled four_assets false zero one
    = Ok ["Expected Return"; "Volatility"; "Sharpe Ratio"]%string.
Proof. repeat split; reflexivity. Qed.

End Solver_facts.

(** ** Monte Carlo simulation *)

Section MonteCarlo_facts.

Import MonteCarloSimulator.

(** A loop over [a, a + n) keeps an invariant indexed by the next index, when
    every iteration keeps it and does not raise. *)
Lemma for_each_seq_inv {St : Type} (Inv : nat -> St -> Prop)
    (body : nat -> St -> Rand St) (n : nat) :
  forall (a : nat) (s : St) (st : RandomState),
    Inv a s ->
    (forall (i : nat) (s : St) (st : RandomState),
       (a <= i < a + n)%nat -> Inv i s ->
       exists (s' : St) (st' : RandomState),
         body i s st = Ok (s', st') /\ Inv (S i) s') ->
    exists (s' : St) (st' : RandomState),
      for_each (seq a n) body s st = Ok (s', st') /\ Inv (a + n)%nat s'.
Proof.
  induction n as [|n IH]; intros a s st Hinv Hbody.
  - exists s, st. rewrite Nat.add_0_r. by split.
  - assert (Ha : (a <= a < a + S n)%nat) by lia.
    destruct (Hbody a s st Ha Hinv) as (s1 & st1 & Hrun & Hinv1).
    destruct (IH (S a) s1 st1 Hinv1) as (s2 & st2 & Hrest & Hinv2).
    { intros i s' st' Hi. apply Hbody. lia. }
    exists s2, st2. split.
    + cbn [seq for_each]. unfold mbind, Rand_bind at 1. by rewrite Hrun.
    + by replace (a + S n)%nat with (S a + n)%nat by lia.
Qed.

Lemma Qc_sqrt_nonneg (q : Qc) : (0 <= Qc_sqrt q)%Qc.
Proof.
  assert (Hpos : forall (z : Z) (p : positive), (0 <= z)%Z -> (0 <= Q2Qc (z # p))%Qc).
  { intros z p Hz. unfold Qcle. cbn [this Q2Qc]. rewrite !Qred_correct.
    unfold Qle. simpl. lia. }
  unfold Qc_sqrt. destruct (Qnum q <=? 0)%Z; [apply Qcle_refl|].
  destruct (_ && _); apply Hpos, Z.sqrt_nonneg.
Qed.

(** A standard deviation obtained from [np.sqrt] is never negative, so the
    draw does not raise. *)
Lemma fsqrt_not_negative (x : float64) : (fsqrt x <? zero) = false.
Proof.
  destruct x as [q| | |]; try done. unfold fsqrt.
  destruct (Qclt_le_dec q 0); [done|]. unfold fltb, zero.
  destruct (Qclt_le_dec (Qc_sqrt q) 0) as [Hlt|Hle]; [|done].
  apply Qclt_not_le in Hlt. destruct Hlt. apply Qc_sqrt_nonneg.
Qed.

Lemma normal_ok (loc variance : float64) (st : RandomState) :
  normal loc (fsqrt variance) st
  = Ok (loc + fsqrt variance * Finite (gauss st (position st)),
        {| gauss := gauss st; position := S (position st) |}).
Proof. unfold normal. by rewrite fsqrt_not_negative. Qed.

Lemma percentile_ok (a : Np.ndarray) (q : float64) :
  a <> [] ->
  negb ((zero <=? q) && (q <=? of_Z 100)) = false ->
  exists v : float64, Np.percentile a q = Ok v.
Proof.
  intros Ha Hq. unfold Np.percentile. rewrite Hq.
  destruct (existsb is_nan a); [by eexists|].
  destruct a as [|x a]; [done|]. destruct q; by eexists.
Qed.

Lemma percentile_empty (q : float64) :
  negb ((zero <=? q) && (q <=? of_Z 100)) = false ->
  Np.percentile [] q
  = Raise (IndexError "index -1 is out of bounds for axis 0 with size 0").
Proof. intros Hq. unfold Np.percentile. by rewrite Hq. Qed.

Lemma nonempty_of_length (a : Np.ndarray) (n : nat) :
  length a = n -> (1 <= n)%nat -> a <> [].
Proof. intros Hlen Hn ->. simpl in Hlen. lia. Qed.

(** Once the trial loop has run and left at least one final value, the
    statistics do not raise, and the result exposes the arrays the loop
    built. *)
Lemma simulate_portfolio_after_loop (self : t) (weights : Np.ndarray)
    (initial_investment : float64) (time_horizon_years n_simulations : nat)
    (annual_contribution : float64) (st st' : RandomState)
    (final : Np.ndarray) (path_matrix : Np.matrix) :
  trial_loop self weights initial_investment time_horizon_years n_simulations
    annual_contribution st = Ok ((final, path_matrix), st') ->
  final <> [] ->
  exists r : SimulationResult,
    simulate_portfolio self weights initial_investment time_horizon_years
      n_simulations annual_contribution st = Ok (r, st') /\
    final_values r = final /\ paths r = path_matrix.
Proof.
  intros Hloop Hne. unfold simulate_portfolio.
  destruct (percentile_ok final (of_Z 10) Hne eq_refl) as [p10 H10].
  destruct (percentile_ok final (of_Z 25) Hne eq_refl) as [p25 H25].
  destruct (percentile_ok final (of_Z 50) Hne eq_refl) as [p50 H50].
  destruct (percentile_ok final (of_Z 75) Hne eq_refl) as [p75 H75].
  destruct (percentile_ok final (of_Z 90) Hne eq_refl) as [p90 H90].
  destruct (percentile_ok final (of_Z 5) Hne eq_refl) as [p5 H5].
  cbv zeta. unfold mbind, Rand_bind, lift. cbv beta.
  match goal with
  | |- context [for_each ?idx ?body ?s st] =>
      change (for_each idx body s st)
        with (trial_loop self weights initial_investment time_horizon_years
                n_simulations annual_contribution st)
  end.
  rewrite Hloop, H10, H25, H50, H75, H90, H5.
  eexists. split; [reflexivity|]. by split.
Qed.

Lemma simulate_year_run (mu variance contribution : float64) (sim year : nat)
    (value : float64) (path_matrix : Np.matrix) (st : RandomState) :
  exists (value' : float64) (st' : RandomState),
    simulate_year mu (fsqrt variance) contribution sim year (value, path_matrix) st
    = Ok ((value', alter (fun row => <[year := value']> row) sim path_matrix), st') /\
    value' = value * (one + (mu + fsqrt variance * Finite (gauss st (position st))))
             + contribution.
Proof.
  eexists _, _. split; [|reflexivity].
  unfold simulate_year, mbind, Rand_bind. by rewrite normal_ok.
Qed.

Lemma initial_paths_lookup (initial_investment : float64) (years n sim : nat)
    (row : list float64) :
  initial_paths initial_investment years n !! sim = Some row ->
  length row = (years + 1)%nat /\ row !! 0%nat = Some initial_investment.
Proof.
  unfold initial_paths. revert sim.
  induction n as [|n IH]; intros [|sim]; simpl; try done.
  - intros [= <-]. rewrite length_insert, length_replicate. split; [done|].
    apply list_lookup_insert_eq. rewrite length_replicate. lia.
  - apply IH.
Qed.

Lemma initial_paths_length (initial_investment : float64) (years n : nat) :
  length (initial_paths initial_investment years n) = n.
Proof. unfold initial_paths. by rewrite length_map, length_replicate. Qed.

(** The year loop of trial [sim]: the value in hand is the last entry written
    to row [sim]; the other rows, the row lengths and column 0 are untouched. *)
Lemma year_loop_consistent (mu variance contribution initial_investment : float64)
    (years sim : nat) (P0 : Np.matrix) (row0 : list float64) (st : RandomState) :
  P0 !! sim = Some row0 ->
  length row0 = (years + 1)%nat ->
  row0 !! 0%nat = Some initial_investment ->
  exists (value : float64) (P : Np.matrix) (st' : RandomState) (row : list float64),
    for_each (seq 1 years) (simulate_year mu (fsqrt variance) contribution sim)
      (initial_investment, P0) st = Ok ((value, P), st') /\
    length P = length P0 /\
    (forall j : nat, j <> sim -> P !! j = P0 !! j) /\
    P !! sim = Some row /\
    length row = (years + 1)%nat /\
    row !! 0%nat = Some initial_investment /\
    row !! years = Some value.
Proof.
  intros Hrow0 Hlen0 Hcol0.
  set (Inv := fun (y : nat) (s : float64 * Np.matrix) =>
    length s.2 = length P0 /\
    (forall j : nat, j <> sim -> s.2 !! j = P0 !! j) /\
    exists row : list float64,
      s.2 !! sim = Some row /\ length row = (years + 1)%nat /\
      row !! 0%nat = Some initial_investment /\ row !! (y - 1)%nat = Some s.1).
  destruct (for_each_seq_inv Inv
              (simulate_year mu (fsqrt variance) contribution sim) years
              1%nat (initial_investment, P0) st)
    as ([value P] & st' & Hrun & HlenP & Hframe & row & Hrow & Hlen & Hcol & Hlast).
  - split; [done|]. split; [done|]. by exists row0.
  - intros i [v P] st1 Hi (HlenP & Hframe & row & Hrow & Hlen & Hcol & Hlast).
    simpl in *.
    destruct (simulate_year_run mu variance contribution sim i v P st1)
      as (v' & st2 & Hrun & _).
    eexists _, st2. split; [exact Hrun|]. unfold Inv. simpl.
    split; [by rewrite length_alter|]. split.
    + intros j Hj. rewrite list_lookup_alter_ne by done. by apply Hframe.
    + exists (<[i := v']> row). split; [by rewrite list_lookup_alter_eq, Hrow|].
      split; [by rewrite length_insert|]. split.
      * rewrite list_lookup_insert_ne by lia. done.
      * rewrite Nat.sub_0_r. apply list_lookup_insert_eq. lia.
  - exists value, P, st', row. cbn [fst snd] in *.
    replace (1 + years - 1)%nat with years in Hlast by lia. done.
Qed.

(** A call that asks for no trial at all leaves the array of final values
    empty, and the first percentile taken of it raises IndexError. *)
Lemma simulate_portfolio_no_trials (self : t) (weights : Np.ndarray)
    (initial_investment : float64) (time_horizon_years : nat)
    (annual_contribution : float64) (st : RandomState) :
  simulate_portfolio self weights initial_investment time_horizon_years 0
    annual_contribution st
  = Raise (IndexError "index -1 is out of bounds for axis 0 with size 0").
Proof. reflexivity. Qed.

(** C10.  Every simulation call with at least one trial returns, with one
    final value and one path row per trial; each row has [years + 1] entries,
    starts at the initial investment, and ends on that trial's final value.
    (The horizon may even be 0 years, where both coincide with the initial
    investment.  With no trial at all the call raises instead, see
    [simulate_portfolio_no_trials].) *)
Theorem simulate_portfolio_paths_consistent (self : t) (weights : Np.ndarray)
    (initial_investment : float64) (time_horizon_years n_simulations : nat)
    (annual_contribution : float64) (st : RandomState) :
  (1 <= n_simulations)%nat ->
  exists (r : SimulationResult) (st' : RandomState),
    simulate_portfolio self weights initial_investment time_horizon_years
      n_simulations annual_contribution st = Ok (r, st') /\
    length (final_values r) = n_simulations /\
    length (paths r) = n_simulations /\
    forall sim : nat, (sim < n_simulations)%nat ->
      exists (row : list float64) (final : float64),
        paths r !! sim = Some row /\
        final_values r !! sim = Some final /\
        length row = (time_horizon_years + 1)%nat /\
        row !! 0%nat = Some initial_investment /\
        row !! time_horizon_years = Some final.
Proof.
  intros Htrials.
  set (mu := Np.dot weights (mean_returns self)).
  set (variance := Np.dot weights (Np.matvec (cov_matrix self) weights)).
  set (Inv := fun (k : nat) (s : Np.ndarray * Np.matrix) =>
    length s.1 = n_simulations /\ length s.2 = n_simulations /\
    (forall (j : nat) (row : list float64), s.2 !! j = Some row ->
       length row = (time_horizon_years + 1)%nat /\
       row !! 0%nat = Some initial_investment) /\
    (forall j : nat, (j < k)%nat ->
       exists (row : list float64) (final : float64),
         s.2 !! j = Some row /\ s.1 !! j = Some final /\
         row !! time_horizon_years = Some final)).
  destruct (for_each_seq_inv Inv
              (simulate_trial mu (fsqrt variance) initial_investment
                 annual_contribution time_horizon_years)
              n_simulations 0%nat
              (replicate n_simulations zero,
               initial_paths initial_investment time_horizon_years n_simulations) st)
    as ([F P] & st' & Hrun & HlenF & HlenP & Hrows & Hdone).
  - unfold Inv. cbn [fst snd].
    split; [by rewrite length_replicate|].
    split; [apply initial_paths_length|]. split.
    + intros j row Hrow. by apply initial_paths_lookup in Hrow.
    + intros j Hj. lia.
  - intros k [F P] st1 Hk (HlenF & HlenP & Hrows & Hdone). cbn [fst snd] in *.
    destruct (lookup_lt_is_Some_2 P k) as [row0 Hrow0]; [lia|].
    destruct (Hrows k row0 Hrow0) as [Hlen0 Hcol0].
    destruct (year_loop_consistent mu variance annual_contribution initial_investment
                time_horizon_years k P row0 st1 Hrow0 Hlen0 Hcol0)
      as (v & P' & st2 & row & Hloop & HlenP' & Hframe & Hrow & Hlen & Hcol & Hlast).
    exists (<[k := v]> F, P'), st2. split.
    + unfold simulate_trial, mbind, Rand_bind. by rewrite Hloop.
    + unfold Inv. cbn [fst snd].
      split; [by rewrite length_insert|]. split; [congruence|]. split.
      * intros j rowj Hrowj. destruct (decide (j = k)) as [->|Hne].
        -- split; congruence.
        -- rewrite Hframe in Hrowj by done. by apply Hrows in Hrowj.
      * intros j Hj. destruct (decide (j = k)) as [->|Hne].
        -- exists row, v. split; [done|]. split; [|done].
           apply list_lookup_insert_eq. lia.
        -- destruct (Hdone j) as (rowj & vj & Hrj & Hfj & Hlj); [lia|].
           exists rowj, vj. split; [by rewrite Hframe|].
           split; [by rewrite list_lookup_insert_ne|done].
  - cbn [fst snd] in *.
    destruct (simulate_portfolio_after_loop self weights initial_investment
                time_horizon_years n_simulations annual_contribution st st' F P Hrun
                (nonempty_of_length F n_simulations HlenF Htrials))
      as (r & Hsim & HF & HP).
    exists r, st'. rewrite HF, HP.
    split; [done|]. split; [done|]. split; [done|].
    intros sim Hsim'. destruct (Hdone sim Hsim') as (row & final & Hr & Hf & Hl).
    exists row, final. destruct (Hrows sim row Hr) as [Hlen Hcol]. by repeat split.
Qed.

Lemma simulate_portfolio_paths_consistent_witness :
  exists (r : SimulationResult) (st' : RandomState),
    simulate_portfolio flat_market [frac 1 2; frac 1 2] (of_Z 1000) 5 100 zero
      sample_stream = Ok (r, st') /\
    length (final_values r) = 100%nat /\
    length (paths r) = 100%nat /\
    forall sim : nat, (sim < 100)%nat ->
      exists (row : list float64) (final : float64),
        paths r !! sim = Some row /\
        final_values r !! sim = Some final /\
        length row = 6%nat /\
        row !! 0%nat = Some (of_Z 1000) /\
        row !! 5%nat = Some final.
Proof.
  apply (simulate_portfolio_paths_consistent flat_market [frac 1 2; frac 1 2]
           (of_Z 1000) 5 100 zero sample_stream).
  lia.
Defined.

(** With mean 0, deviation 0 and no contribution, a year leaves the value
    as it is, whatever deviate is drawn. *)
Lemma degenerate_year (value : float64) (z : Qc) :
  value * (one + (zero + zero * Finite z)) + zero = value.
Proof.
  rewrite fmul_zero_finite, fadd_zero_r, fadd_zero_r. apply fmul_one_r.
Qed.

Lemma year_loop_degenerate (variance initial_investment : float64)
    (years sim : nat) (P0 : Np.matrix) (st : RandomState) :
  fsqrt variance = zero ->
  exists (P : Np.matrix) (st' : RandomState),
    for_each (seq 1 years) (simulate_year zero (fsqrt variance) zero sim)
      (initial_investment, P0) st = Ok ((initial_investment, P), st').
Proof.
  intros Hsd.
  destruct (for_each_seq_inv (fun (_ : nat) (s : float64 * list (list float64)) =>
                                s.1 = initial_investment)
              (simulate_year zero (fsqrt variance) zero sim) years
              1%nat (initial_investment, P0) st)
    as ([value P] & st' & Hrun & Hvalue).
  - reflexivity.
  - intros i [v P] st1 _ Hv. cbn [fst] in Hv. subst v.
    destruct (simulate_year_run zero variance zero sim i initial_investment P st1)
      as (v' & st2 & Hrun & Hv').
    rewrite Hsd, degenerate_year in Hv'. subst v'.
    by eexists (_, _), st2.
  - cbn [fst] in Hvalue. subst value. by exists P, st'.
Qed.

(** C6.  When the portfolio mean return is 0, its standard deviation is 0
    and nothing is contributed, every trial ends on the initial investment
    exactly, for every positive number of trials and every number of years
    (100 trials over 5 years among them) and every state of the random
    generator. *)
Theorem simulate_portfolio_degenerate (self : t) (weights : Np.ndarray)
    (initial_investment : float64) (time_horizon_years n_simulations : nat)
    (st : RandomState) :
  (1 <= n_simulations)%nat ->
  Np.dot weights (mean_returns self) = zero ->
  fsqrt (Np.dot weights (Np.matvec (cov_matrix self) weights)) = zero ->
  exists (r : SimulationResult) (st' : RandomState),
    simulate_portfolio self weights initial_investment time_horizon_years
      n_simulations zero st = Ok (r, st') /\
    portfolio_return r = zero /\
    portfolio_std r = zero /\
    final_values r = replicate n_simulations initial_investment.
Proof.
  intros Htrials Hmu Hsd.
  set (variance := Np.dot weights (Np.matvec (cov_matrix self) weights)) in *.
  destruct (for_each_seq_inv
              (fun (k : nat) (s : list float64 * list (list float64)) =>
                 length s.1 = n_simulations /\
                 forall j : nat, (j < k)%nat -> s.1 !! j = Some initial_investment)
              (simulate_trial zero (fsqrt variance) initial_investment zero
                 time_horizon_years)
              n_simulations 0%nat
              (replicate n_simulations zero,
               initial_paths initial_investment time_horizon_years n_simulations) st)
    as ([F P] & st' & Hrun & HlenF & Hdone).
  - cbn [fst]. split; [by rewrite length_replicate|]. intros j Hj. lia.
  - intros k [F P] st1 Hk [HlenF Hdone]. cbn [fst] in *.
    destruct (year_loop_degenerate variance initial_investment time_horizon_years
                k P st1 Hsd) as (P' & st2 & Hloop).
    exists (<[k := initial_investment]> F, P'), st2. split.
    + unfold simulate_trial, mbind, Rand_bind. by rewrite Hloop.
    + cbn [fst]. split; [by rewrite length_insert|].
      intros j Hj. destruct (decide (j = k)) as [->|Hne].
      * apply list_lookup_insert_eq. lia.
      * rewrite list_lookup_insert_ne by done. apply Hdone. lia.
  - cbn [fst] in *.
    destruct (simulate_portfolio_after_loop self weights initial_investment
                time_horizon_years n_simulations zero st st' F P)
      as (r & Hsim & HF & HP).
    { unfold trial_loop. fold variance. by rewrite Hmu. }
    { exact (nonempty_of_length F n_simulations HlenF Htrials). }
    exists r, st'. split; [done|].
    assert (Hstats : portfolio_return r = zero /\ portfolio_std r = zero).
    { unfold simulate_portfolio in Hsim. cbv zeta in Hsim.
      unfold mbind, Rand_bind, lift in Hsim.
      repeat match type of Hsim with
             | match ?scrut with _ => _ end = _ =>
                 destruct scrut as [[? ?]|?]; [|discriminate]
             | match ?scrut with _ => _ end = _ =>
                 destruct scrut as [?|?]; [|discriminate]
             | (let (_, _) := ?scrut in _) _ = _ => destruct scrut
             end.
      injection Hsim as <- _. cbn [portfolio_return portfolio_std].
      fold variance. by rewrite Hmu, Hsd. }
    destruct Hstats as [Hret Hstd]. split; [done|]. split; [done|].
    rewrite HF. apply list_eq. intros i.
    destruct (decide (i < n_simulations)%nat) as [Hi|Hi].
    + rewrite Hdone by lia. symmetry. by apply lookup_replicate_2.
    + rewrite !lookup_ge_None_2; [done| |]; rewrite ?length_replicate; lia.
Qed.

Lemma simulate_portfolio_degenerate_witness :
  (1 <= 100)%nat /\
  Np.dot [frac 1 2; frac 1 2] (mean_returns flat_market) = zero /\
  fsqrt (Np.dot [frac 1 2; frac 1 2]
           (Np.matvec (cov_matrix flat_market) [frac 1 2; frac 1 2])) = zero /\
  exists (r : SimulationResult) (st' : RandomState),
    simulate_portfolio flat_market [frac 1 2; frac 1 2] (of_Z 1000) 5 100 zero
      sample_stream = Ok (r, st') /\
    final_values r = replicate 100 (of_Z 1000).
Proof.
  assert (Hmu : Np.dot [frac 1 2; frac 1 2] (mean_returns flat_market) = zero)
    by compute_done.
  assert (Hsd : fsqrt (Np.dot [frac 1 2; frac 1 2]
                  (Np.matvec (cov_matrix flat_market) [frac 1 2; frac 1 2])) = zero)
    by compute_done.
  assert (Htrials : (1 <= 100)%nat) by lia.
  destruct (simulate_portfolio_degenerate flat_market [frac 1 2; frac 1 2]
              (of_Z 1000) 5 100 sample_stream Htrials Hmu Hsd)
    as (r & st' & Hrun & _ & _ & Hfinal).
  split; [exact Htrials|]. split; [exact Hmu|]. split; [exact Hsd|].
  exists r, st'. split; [exact Hrun | exact Hfinal].
Defined.

End MonteCarlo_facts.

(** * Further properties of the code *)

(** ** Arrays of finite numbers *)

Section Finite_array_facts.

Lemma all_finite_finite_array (qs : list Qc) : all_finite (finite_array qs) = true.
Proof. induction qs as [|q qs IH]; [done|]. by apply all_finite_cons; split; [eexists|]. Qed.

Lemma all_finite_inv (a : list float64) :
  all_finite a = true -> exists qs : list Qc, a = finite_array qs.
Proof.
  induction a as [|x a IH]; intros Ha; [by exists []|].
  apply all_finite_cons in Ha as [[q ->] Ha]. destruct (IH Ha) as [qs ->].
  by exists (q :: qs).
Qed.

Lemma finite_array_length (qs : list Qc) : length (finite_array qs) = length qs.
Proof. apply length_map. Qed.

Lemma finite_array_lookup (qs : list Qc) (i : nat) :
  finite_array qs !! i = Finite <$> qs !! i.
Proof. unfold finite_array. revert i. induction qs; intros [|i]; simpl; auto. Qed.

Lemma finite_array_inj (qs qs' : list Qc) :
  finite_array qs = finite_array qs' -> qs = qs'.
Proof.
  revert qs'. induction qs as [|q qs IH]; intros [|q' qs']; try done.
  intros [= -> Hrest]. f_equal. by apply IH.
Qed.

Lemma sum_finite_array (qs : list Qc) : Np.sum (finite_array qs) = Finite (Qsum qs).
Proof.
  unfold Np.sum, zero.
  assert (Hgen : forall acc : Qc,
            foldl fadd (Finite acc) (finite_array qs) = Finite (acc + Qsum qs)).
  { induction qs as [|q qs IH]; intros acc.
    - cbn. by rewrite Qcplus_0_r.
    - cbn [finite_array map foldl fadd]. fold (finite_array qs). rewrite IH.
      apply (f_equal Finite). cbn [Qsum foldr]. fold (Qsum qs). ring. }
  rewrite Hgen. apply (f_equal Finite). ring.
Qed.

Lemma Qsum_scale (qs : list Qc) (t : Qc) :
  Qsum (map (fun q : Qc => (q * t)%Qc) qs) = (Qsum qs * t)%Qc.
Proof.
  induction qs as [|q qs IH]; [change (0 = 0 * t)%Qc; ring|].
  cbn [map Qsum foldr]. fold (Qsum (map (fun q : Qc => (q * t)%Qc) qs)). fold (Qsum qs).
  rewrite IH. ring.
Qed.

Lemma Qsum_div (qs : list Qc) (t : Qc) :
  Qsum (map (fun q : Qc => (q / t)%Qc) qs) = (Qsum qs / t)%Qc.
Proof. unfold Qcdiv. apply Qsum_scale. Qed.

Lemma Qsum_zip_minus (a b : list Qc) :
  length a = length b ->
  Qsum (zip_with Qcminus a b) = (Qsum a - Qsum b)%Qc.
Proof.
  revert b. induction a as [|x a IH]; intros [|y b] Hlen; try done.
  cbn [zip_with Qsum foldr]. fold (Qsum (zip_with Qcminus a b)).
  fold (Qsum a). fold (Qsum b).
  rewrite IH by (simpl in Hlen; lia). ring.
Qed.

Lemma mul_scalar_finite_array (qs : list Qc) (t : Qc) :
  Np.mul_scalar (finite_array qs) (Finite t) = finite_array (map (fun q : Qc => (q * t)%Qc) qs).
Proof. unfold Np.mul_scalar, finite_array. by rewrite !map_map. Qed.

Lemma div_scalar_finite_array (qs : list Qc) (t : Qc) :
  t <> 0%Qc ->
  Np.div_scalar (finite_array qs) (Finite t) = finite_array (map (fun q : Qc => (q / t)%Qc) qs).
Proof.
  intros Ht. unfold Np.div_scalar, finite_array. rewrite !map_map.
  apply map_ext. intros q. unfold fdiv. by destruct (Qc_eq_dec t 0).
Qed.

Lemma sub_finite_array (a b : list Qc) :
  Np.sub (finite_array a) (finite_array b) = finite_array (zip_with Qcminus a b).
Proof.
  unfold Np.sub, finite_array. revert b.
  induction a as [|x a IH]; intros [|y b]; cbn; try done. by rewrite IH.
Qed.

Lemma lookup_map {A B : Type} (f : A -> B) (l : list A) (i : nat) :
  map f l !! i = f <$> l !! i.
Proof. revert i. induction l; intros [|i]; simpl; auto. Qed.

Lemma add_finite_array (a b : list Qc) :
  zip_with fadd (finite_array a) (finite_array b) = finite_array (zip_with Qcplus a b).
Proof.
  unfold finite_array. revert b.
  induction a as [|x a IH]; intros [|y b]; cbn; try done. by rewrite IH.
Qed.

Lemma feqb_finite (a b : Qc) : (Finite a =? Finite b) = true <-> a = b.
Proof. unfold feqb. by destruct (Qc_eq_dec a b). Qed.

Lemma fltb_finite (a b : Qc) : (Finite a <? Finite b) = true <-> (a < b)%Qc.
Proof.
  unfold fltb. destruct (Qclt_le_dec a b) as [Hlt|Hge]; [done|].
  split; [done|]. intros Hlt. by apply Qcle_not_lt in Hge.
Qed.

End Finite_array_facts.

(** ** Order and division of rationals *)

Section Qc_order_facts.

Lemma Qc_div_mul (x p : Qc) : p <> 0%Qc -> (x / p * p)%Qc = x.
Proof. intros Hp. by field. Qed.

Lemma Qc_pos_nonzero (p : Qc) : (0 < p)%Qc -> p <> 0%Qc.
Proof. intros Hp ->. by apply Qclt_not_eq in Hp. Qed.

Lemma Qc_lt_div_iff (v w T : Qc) :
  (0 < T)%Qc -> ((v / T < w)%Qc <-> (v < w * T)%Qc).
Proof.
  intros HT. pose proof (Qc_pos_nonzero T HT) as Hne. split.
  - intros Hlt. apply (Qcmult_lt_compat_r _ _ T HT) in Hlt.
    by rewrite Qc_div_mul in Hlt.
  - intros Hlt. apply Qcnot_le_lt. intros Hle.
    apply (Qcmult_le_compat_r _ _ T) in Hle; [|by apply Qclt_le_weak].
    rewrite Qc_div_mul in Hle by done. by apply Qcle_not_lt in Hle.
Qed.

Lemma Qc_div_lt_iff (v w T : Qc) :
  (0 < T)%Qc -> ((w < v / T)%Qc <-> (w * T < v)%Qc).
Proof.
  intros HT. pose proof (Qc_pos_nonzero T HT) as Hne. split.
  - intros Hlt. apply (Qcmult_lt_compat_r _ _ T HT) in Hlt.
    by rewrite Qc_div_mul in Hlt.
  - intros Hlt. apply Qcnot_le_lt. intros Hle.
    apply (Qcmult_le_compat_r _ _ T) in Hle; [|by apply Qclt_le_weak].
    rewrite Qc_div_mul in Hle by done. by apply Qcle_not_lt in Hle.
Qed.

End Qc_order_facts.

Ltac qc_as_q :=
  rewrite ?Qc_eq_Qeq in *;
  unfold Qcle, Qclt, Qcminus, Qcdiv, Qcplus, Qcmult, Qcopp, Qcinv in *;
  cbn [this Q2Qc] in *;
  rewrite ?Qred_correct in *.

(** ** Rebalancer: weights and trades *)

Section Rebalancer_trades.

Import PortfolioRebalancer.

(** With a non-zero total, the weights are the values divided by the total. *)
Lemma calculate_current_weights_finite (self : t) (values : list Qc) :
  Qsum values <> 0%Qc ->
  calculate_current_weights self (finite_array values)
  = Ok (finite_array (map (fun v : Qc => (v / Qsum values)%Qc) values)).
Proof.
  intros Hne. unfold calculate_current_weights. rewrite sum_finite_array.
  unfold zero, feqb. destruct (Qc_eq_dec (Qsum values) 0) as [H0|_]; [done|].
  by rewrite div_scalar_finite_array.
Qed.

(** Sums of numbers that are not negative. *)
Lemma Qsum_all_zero (values : list Qc) :
  Forall (fun v : Qc => v = 0%Qc) values -> Qsum values = 0%Qc.
Proof.
  induction 1 as [|v l Hv _ IH]; [done|].
  cbn [Qsum foldr]. fold (Qsum l). rewrite Hv, IH. ring.
Qed.

Lemma Qsum_nonneg (values : list Qc) :
  Forall (fun v : Qc => (0 <= v)%Qc) values -> (0 <= Qsum values)%Qc.
Proof.
  induction 1 as [|v l Hv _ IH]; [apply Qcle_refl|].
  cbn [Qsum foldr]. fold (Qsum l). clear -Hv IH. qc_as_q. lra.
Qed.

Lemma Qsum_nonneg_ge (values : list Qc) (v : Qc) :
  Forall (fun v : Qc => (0 <= v)%Qc) values -> v ∈ values -> (v <= Qsum values)%Qc.
Proof.
  intros Hall Hin. induction Hall as [|x l Hx Hl IH]; [by apply elem_of_nil in Hin|].
  pose proof (Qsum_nonneg l Hl) as Hsum.
  cbn [Qsum foldr]. fold (Qsum l).
  apply elem_of_cons in Hin as [->|Hin].
  - clear -Hsum. qc_as_q. lra.
  - specialize (IH Hin). clear -Hx IH. qc_as_q. lra.
Qed.

Lemma Qsum_some_positive (values : list Qc) :
  Forall (fun v : Qc => (0 <= v)%Qc) values ->
  Exists (fun v : Qc => (0 < v)%Qc) values ->
  (0 < Qsum values)%Qc.
Proof.
  intros Hall Hex. apply Exists_exists in Hex as (v & Hin & Hv).
  eapply Qclt_le_trans; [exact Hv|]. by apply Qsum_nonneg_ge.
Qed.

(** A part [v] of a positive total [T], [0 <= v <= T], is a share in [0, 1]. *)
Lemma Qc_share_range (v T : Qc) :
  (0 <= v)%Qc -> (v <= T)%Qc -> (0 < T)%Qc -> (0 <= v / T)%Qc /\ (v / T <= 1)%Qc.
Proof.
  intros Hv HvT HT. split.
  - apply Qcnot_lt_le. intros Hneg. apply Qc_lt_div_iff in Hneg; [|done].
    rewrite Qcmult_0_l in Hneg. by apply Qclt_not_le in Hneg.
  - apply Qcnot_lt_le. intros Hbig. apply Qc_div_lt_iff in Hbig; [|done].
    rewrite Qcmult_1_l in Hbig. by apply Qclt_not_le in Hbig.
Qed.

(** X1.  [calculate_current_weights] on position values that are finite and
    not negative.  When every value is zero (an empty portfolio included) the
    call raises ValueError.  When some value is positive it returns one
    weight per position, the value divided by the total, and every weight
    lies in [0, 1]; in exact arithmetic the weights sum to 1, which the
    float64 weights of the code do up to rounding. *)
Theorem calculate_current_weights_normalizes (self : t) (values : list Qc) :
  Forall (fun v : Qc => (0 <= v)%Qc) values ->
  (Forall (fun v : Qc => v = 0%Qc) values ->
   calculate_current_weights self (finite_array values)
   = Raise (ValueError "Total portfolio value is zero")) /\
  (Exists (fun v : Qc => (0 < v)%Qc) values ->
   calculate_current_weights self (finite_array values)
   = Ok (finite_array (map (fun v : Qc => (v / Qsum values)%Qc) values)) /\
   Forall (fun w : Qc => (0 <= w)%Qc /\ (w <= 1)%Qc)
     (map (fun v : Qc => (v / Qsum values)%Qc) values) /\
   Qsum (map (fun v : Qc => (v / Qsum values)%Qc) values) = 1%Qc).
Proof.
  intros Hnonneg. split.
  - intros Hzero. unfold calculate_current_weights.
    rewrite sum_finite_array, (Qsum_all_zero values Hzero). reflexivity.
  - intros Hsome. pose proof (Qsum_some_positive values Hnonneg Hsome) as Htotal.
    pose proof (Qc_pos_nonzero _ Htotal) as Hne.
    split; [by apply calculate_current_weights_finite|]. split.
    + apply Forall_map. apply Forall_forall. intros v Hin. cbn beta.
      apply Qc_share_range; [|by apply Qsum_nonneg_ge|done].
      by apply (proj1 (Forall_forall _ _) Hnonneg).
    + rewrite Qsum_div. unfold Qcdiv. by apply Qcmult_inv_r.
Qed.

Lemma calculate_current_weights_normalizes_witness :
  Forall (fun v : Qc => (0 <= v)%Qc) [Q2Qc 80; Q2Qc 20] /\
  Exists (fun v : Qc => (0 < v)%Qc) [Q2Qc 80; Q2Qc 20] /\
  calculate_current_weights half_half (finite_array [Q2Qc 80; Q2Qc 20])
  = Ok (finite_array (map (fun v : Qc => (v / Qsum [Q2Qc 80; Q2Qc 20])%Qc)
                        [Q2Qc 80; Q2Qc 20])).
Proof.
  assert (Hnonneg : Forall (fun v : Qc => (0 <= v)%Qc) [Q2Qc 80; Q2Qc 20])
    by (repeat constructor; by vm_compute).
  assert (Hsome : Exists (fun v : Qc => (0 < v)%Qc) [Q2Qc 80; Q2Qc 20])
    by (left; by vm_compute).
  split; [exact Hnonneg|]. split; [exact Hsome|].
  exact (proj1 (proj2 (calculate_current_weights_normalizes half_half
                         [Q2Qc 80; Q2Qc 20] Hnonneg) Hsome)).
Defined.

(** The trade table on finite inputs, spelled out. *)
Lemma calculate_rebalancing_trades_finite (self : t) (targets values prices : list Qc) :
  target_weights self = finite_array targets ->
  Qsum values <> 0%Qc ->
  exists tr : Trades,
    calculate_rebalancing_trades self (finite_array values) (finite_array prices) = Ok tr /\
    Current_Value tr = finite_array values /\
    Current_Price tr = finite_array prices /\
    Current_Weight tr = finite_array (map (fun v : Qc => (v / Qsum values)%Qc) values) /\
    Target_Weight tr = finite_array targets /\
    Target_Value tr = finite_array (map (fun w : Qc => (w * Qsum values)%Qc) targets) /\
    Value_to_Trade tr
      = finite_array (zip_with Qcminus
                        (map (fun w : Qc => (w * Qsum values)%Qc) targets) values) /\
    Shares_to_Trade tr = Np.div (Value_to_Trade tr) (finite_array prices) /\
    Action tr = map action_of (Shares_to_Trade tr).
Proof.
  intros Htargets Hne.
  pose proof (calculate_current_weights_finite self values Hne) as Hweights.
  unfold calculate_rebalancing_trades. rewrite Hweights.
  cbn [mbind result_bind mret result_ret].
  rewrite Htargets, sum_finite_array, mul_scalar_finite_array, sub_finite_array.
  eexists. split; [reflexivity|].
  cbn [Current_Value Current_Price Current_Weight Target_Weight Target_Value
       Value_to_Trade Shares_to_Trade Action].
  rewrite sub_finite_array. by repeat split.
Qed.

(** X2.  Full rebalancing is self-financing.  For positions that are not
    negative and have a positive total, and target weights that sum to 1, the
    trade table is returned, its target values add up to the current total
    and its values to trade add up to zero.  The sums are those of exact
    arithmetic; the float64 sums of the code agree with them up to
    rounding. *)
Theorem rebalancing_trades_net_to_zero (self : t) (targets values prices : list Qc) :
  target_weights self = finite_array targets ->
  length targets = length values ->
  Qsum targets = 1%Qc ->
  Forall (fun v : Qc => (0 <= v)%Qc) values ->
  (0 < Qsum values)%Qc ->
  exists tr : Trades,
    calculate_rebalancing_trades self (finite_array values) (finite_array prices) = Ok tr /\
    Np.sum (Target_Value tr) = Np.sum (Current_Value tr) /\
    Np.sum (Value_to_Trade tr) = zero.
Proof.
  intros Htargets Hlen Hone _ Htotal.
  pose proof (Qc_pos_nonzero _ Htotal) as Hne.
  destruct (calculate_rebalancing_trades_finite self targets values prices Htargets Hne)
    as (tr & Hrun & Hcv & _ & _ & _ & Htv & Hvt & _).
  exists tr. split; [exact Hrun|]. rewrite Htv, Hcv, Hvt, !sum_finite_array.
  rewrite Qsum_zip_minus by (by rewrite length_map).
  rewrite Qsum_scale, Hone. split; apply (f_equal Finite); ring.
Qed.

Lemma zip_plus_minus (a b : list Qc) :
  length a = length b -> zip_with Qcplus b (zip_with Qcminus a b) = a.
Proof.
  revert b. induction a as [|x a IH]; intros [|y b] Hlen; try done.
  cbn [zip_with]. rewrite IH by (simpl in Hlen; lia). f_equal. ring.
Qed.

Lemma zip_minus_self (a : list Qc) :
  zip_with Qcminus a a = map (fun _ => 0%Qc) a.
Proof. induction a as [|x a IH]; [done|]. cbn [zip_with map]. rewrite IH. f_equal. ring. Qed.

(** X3.  Carrying out the full rebalancing trades puts the portfolio on
    target.  For positions that are not negative and have a positive total,
    and target weights that sum to 1: position by position, the current value
    plus the value to trade is the target value, and
    [calculate_current_weights] of the traded positions gives the target
    weights.  These are equalities of exact arithmetic; the float64 values of
    the code agree with them up to rounding. *)
Theorem rebalancing_trades_restore_targets (self : t)
    (targets values prices : list Qc) :
  target_weights self = finite_array targets ->
  length targets = length values ->
  Qsum targets = 1%Qc ->
  Forall (fun v : Qc => (0 <= v)%Qc) values ->
  (0 < Qsum values)%Qc ->
  exists tr : Trades,
    calculate_rebalancing_trades self (finite_array values) (finite_array prices) = Ok tr /\
    zip_with fadd (Current_Value tr) (Value_to_Trade tr) = Target_Value tr /\
    calculate_current_weights self (zip_with fadd (Current_Value tr) (Value_to_Trade tr))
      = Ok (target_weights self).
Proof.
  intros Htargets Hlen Hone _ Htotal0.
  pose proof (Qc_pos_nonzero _ Htotal0) as Hne.
  destruct (calculate_rebalancing_trades_finite self targets values prices Htargets Hne)
    as (tr & Hrun & Hcv & _ & _ & _ & Htv & Hvt & _).
  exists tr. split; [exact Hrun|].
  assert (Hnew : zip_with fadd (Current_Value tr) (Value_to_Trade tr) = Target_Value tr).
  { rewrite Hcv, Hvt, Htv, add_finite_array.
    by rewrite zip_plus_minus by (by rewrite length_map). }
  split; [exact Hnew|].
  rewrite Hnew, Htv.
  set (tv := map (fun w : Qc => (w * Qsum values)%Qc) targets).
  assert (Htotal : Qsum tv = Qsum values).
  { subst tv. rewrite Qsum_scale, Hone. ring. }
  assert (Htne : Qsum tv <> 0%Qc) by (by rewrite Htotal).
  rewrite (calculate_current_weights_finite self tv Htne), Htargets, Htotal.
  do 2 f_equal. subst tv.
  rewrite map_map. rewrite <- (map_id targets) at 2.
  apply map_ext. intros w. by field.
Qed.

Lemma rebalancing_trades_net_to_zero_witness :
  target_weights half_half = finite_array [Q2Qc (1 # 2); Q2Qc (1 # 2)] /\
  Qsum [Q2Qc (1 # 2); Q2Qc (1 # 2)] = 1%Qc /\
  Forall (fun v : Qc => (0 <= v)%Qc) [Q2Qc 80; Q2Qc 20] /\
  (0 < Qsum [Q2Qc 80; Q2Qc 20])%Qc /\
  exists tr : Trades,
    calculate_rebalancing_trades half_half
      (finite_array [Q2Qc 80; Q2Qc 20]) (finite_array [Q2Qc 10; Q2Qc 5]) = Ok tr /\
    Np.sum (Value_to_Trade tr) = zero.
Proof.
  assert (Ht : target_weights half_half = finite_array [Q2Qc (1 # 2); Q2Qc (1 # 2)])
    by reflexivity.
  assert (Hone : Qsum [Q2Qc (1 # 2); Q2Qc (1 # 2)] = 1%Qc) by compute_done.
  assert (Hnonneg : Forall (fun v : Qc => (0 <= v)%Qc) [Q2Qc 80; Q2Qc 20])
    by (repeat constructor; by vm_compute).
  assert (Htotal : (0 < Qsum [Q2Qc 80; Q2Qc 20])%Qc) by (vm_compute; reflexivity).
  destruct (rebalancing_trades_net_to_zero half_half
              [Q2Qc (1 # 2); Q2Qc (1 # 2)] [Q2Qc 80; Q2Qc 20] [Q2Qc 10; Q2Qc 5]
              Ht eq_refl Hone Hnonneg Htotal) as (tr & Hrun & _ & Hzero).
  split; [exact Ht|]. split; [exact Hone|]. split; [exact Hnonneg|].
  split; [exact Htotal|].
  exists tr. split; [exact Hrun | exact Hzero].
Defined.

Lemma rebalancing_trades_restore_targets_witness :
  Qsum [Q2Qc (1 # 2); Q2Qc (1 # 2)] = 1%Qc /\
  Forall (fun v : Qc => (0 <= v)%Qc) [Q2Qc 80; Q2Qc 20] /\
  (0 < Qsum [Q2Qc 80; Q2Qc 20])%Qc /\
  exists tr : Trades,
    calculate_rebalancing_trades half_half
      (finite_array [Q2Qc 80; Q2Qc 20]) (finite_array [Q2Qc 10; Q2Qc 5]) = Ok tr /\
    calculate_current_weights half_half
      (zip_with fadd (Current_Value tr) (Value_to_Trade tr))
      = Ok (target_weights half_half).
Proof.
  assert (Ht : target_weights half_half = finite_array [Q2Qc (1 # 2); Q2Qc (1 # 2)])
    by reflexivity.
  assert (Hone : Qsum [Q2Qc (1 # 2); Q2Qc (1 # 2)] = 1%Qc) by compute_done.
  assert (Hnonneg : Forall (fun v : Qc => (0 <= v)%Qc) [Q2Qc 80; Q2Qc 20])
    by (repeat constructor; by vm_compute).
  assert (Htotal : (0 < Qsum [Q2Qc 80; Q2Qc 20])%Qc) by (vm_compute; reflexivity).
  destruct (rebalancing_trades_restore_targets half_half
              [Q2Qc (1 # 2); Q2Qc (1 # 2)] [Q2Qc 80; Q2Qc 20] [Q2Qc 10; Q2Qc 5]
              Ht eq_refl Hone Hnonneg Htotal)
    as (tr & Hrun & _ & Hweights).
  split; [exact Hone|]. split; [exact Hnonneg|]. split; [exact Htotal|].
  exists tr. split; [exact Hrun | exact Hweights].
Defined.

(** The label of a trade of [x] in value at a positive price [p]. *)
Lemma action_of_div (x p : Qc) :
  (0 < p)%Qc ->
  action_of (Finite x / Finite p) =
    if decide (0 < x)%Qc then "BUY"%string
    else if decide (x < 0)%Qc then "SELL"%string else "HOLD"%string.
Proof.
  intros Hp. pose proof (Qc_pos_nonzero p Hp) as Hne.
  unfold fdiv. destruct (Qc_eq_dec p 0) as [|_]; [done|].
  unfold action_of, fgtb, zero.
  pose proof (Qc_lt_div_iff x 0 p Hp) as Hneg.
  pose proof (Qc_div_lt_iff x 0 p Hp) as Hpos.
  rewrite Qcmult_0_l in Hneg, Hpos.
  destruct (Finite 0 <? Finite (x / p)) eqn:Hgt.
  - apply fltb_finite, Hpos in Hgt. by destruct (decide (0 < x)%Qc).
  - destruct (decide (0 < x)%Qc) as [Hx|_].
    { apply Hpos, fltb_finite in Hx. congruence. }
    destruct (Finite (x / p) <? Finite 0) eqn:Hlt.
    + apply fltb_finite, Hneg in Hlt. by destruct (decide (x < 0)%Qc).
    + destruct (decide (x < 0)%Qc) as [Hx|_]; [|done].
      apply Hneg, fltb_finite in Hx. congruence.
Qed.

(** X4.  For positions that are not negative and have a positive total,
    priced at positive prices, the trade table labels every asset BUY, SELL
    or HOLD.  An asset labelled BUY has its target value above its current
    value, an asset labelled SELL has it below, and an asset whose target
    value equals its current value is labelled HOLD. *)
Theorem rebalancing_action_follows_value_gap (self : t)
    (targets values prices : list Qc) :
  target_weights self = finite_array targets ->
  length targets = length values ->
  length prices = length values ->
  Forall (fun v : Qc => (0 <= v)%Qc) values ->
  (0 < Qsum values)%Qc ->
  Forall (fun p : Qc => (0 < p)%Qc) prices ->
  exists tr : Trades,
    calculate_rebalancing_trades self (finite_array values) (finite_array prices) = Ok tr /\
    length (Action tr) = length values /\
    forall (i : nat) (current target : Qc),
      Current_Value tr !! i = Some (Finite current) ->
      Target_Value tr !! i = Some (Finite target) ->
      exists action : string,
        Action tr !! i = Some action /\
        (action = "BUY"%string \/ action = "SELL"%string \/ action = "HOLD"%string) /\
        (action = "BUY"%string -> (current < target)%Qc) /\
        (action = "SELL"%string -> (target < current)%Qc) /\
        (current = target -> action = "HOLD"%string).
Proof.
  intros Htargets Hlt Hlp _ Htotal Hprices.
  pose proof (Qc_pos_nonzero _ Htotal) as Hne.
  destruct (calculate_rebalancing_trades_finite self targets values prices Htargets Hne)
    as (tr & Hrun & Hcv & _ & _ & _ & Htv & Hvt & Hsh & Hact).
  exists tr. split; [exact Hrun|].
  rewrite Hact, Hsh, Hvt, Hcv, Htv. unfold Np.div. split.
  - rewrite length_map, length_zip_with, !finite_array_length, length_zip_with,
      length_map. lia.
  - intros i current target Hc Ht.
    rewrite finite_array_lookup in Hc. rewrite finite_array_lookup, lookup_map in Ht.
    destruct (values !! i) as [v|] eqn:Hv; [|done].
    destruct (targets !! i) as [w|] eqn:Hw; [|done].
    cbn in Hc, Ht. injection Hc as <-. injection Ht as <-.
    destruct (lookup_lt_is_Some_2 prices i) as [p Hp].
    { rewrite Hlp. by eapply lookup_lt_Some. }
    assert (Hppos : (0 < p)%Qc).
    { rewrite Forall_forall in Hprices. apply Hprices.
      by eapply list_elem_of_lookup_2. }
    rewrite lookup_map, lookup_zip_with, !finite_array_lookup, lookup_zip_with,
      lookup_map, Hw, Hv, Hp.
    cbn [fmap option_fmap option_map mbind option_bind].
    rewrite action_of_div by done.
    assert (Hb : (0 < w * Qsum values - v)%Qc <-> (v < w * Qsum values)%Qc).
    { rewrite (Qclt_minus_iff v). unfold Qcminus. done. }
    assert (Hs : (w * Qsum values - v < 0)%Qc <-> (w * Qsum values < v)%Qc).
    { rewrite (Qclt_minus_iff (w * Qsum values - v) 0).
      rewrite (Qclt_minus_iff (w * Qsum values) v).
      by replace (0 + - (w * Qsum values - v))%Qc with (v + - (w * Qsum values))%Qc
        by ring. }
    eexists. split; [reflexivity|].
    repeat case_decide.
    + split; [by left|]. split; [tauto|]. split; [done|].
      intros Heq. rewrite Heq in *. exfalso.
      apply Hb in H. by apply Qclt_not_eq in H.
    + split; [right; by left|]. split; [done|]. split; [tauto|].
      intros Heq. rewrite Heq in *. exfalso.
      apply Hs in H0. by apply Qclt_not_eq in H0.
    + split; [right; by right|]. by repeat split.
Qed.

Lemma rebalancing_action_follows_value_gap_witness :
  Forall (fun v : Qc => (0 <= v)%Qc) [Q2Qc 80; Q2Qc 20] /\
  (0 < Qsum [Q2Qc 80; Q2Qc 20])%Qc /\
  Forall (fun p : Qc => (0 < p)%Qc) [Q2Qc 10; Q2Qc 5] /\
  exists tr : Trades,
    calculate_rebalancing_trades half_half
      (finite_array [Q2Qc 80; Q2Qc 20]) (finite_array [Q2Qc 10; Q2Qc 5]) = Ok tr /\
    length (Action tr) = 2%nat.
Proof.
  assert (Hnonneg : Forall (fun v : Qc => (0 <= v)%Qc) [Q2Qc 80; Q2Qc 20])
    by (repeat constructor; by vm_compute).
  assert (Htotal : (0 < Qsum [Q2Qc 80; Q2Qc 20])%Qc) by (vm_compute; reflexivity).
  assert (Hprices : Forall (fun p : Qc => (0 < p)%Qc) [Q2Qc 10; Q2Qc 5])
    by (repeat constructor).
  destruct (rebalancing_action_follows_value_gap half_half
              [Q2Qc (1 # 2); Q2Qc (1 # 2)] [Q2Qc 80; Q2Qc 20] [Q2Qc 10; Q2Qc 5]
              eq_refl eq_refl eq_refl Hnonneg Htotal Hprices) as (tr & Hrun & Hlen & _).
  split; [exact Hnonneg|]. split; [exact Htotal|]. split; [exact Hprices|].
  exists tr. split; [exact Hrun | exact Hlen].
Defined.

End Rebalancer_trades.

(** ** Percentiles are monotone *)

Section Percentile_monotone.

Lemma floor_nat_frac_le_one (vi : Qc) :
  (0 <= vi)%Qc -> (vi - Qc_of_nat (Np.floor_nat vi) <= 1)%Qc.
Proof.
  intros H0. unfold Np.floor_nat.
  assert (Hz0 : (0 <= Qfloor vi)%Z) by apply (Qfloor_resp_le 0 vi H0).
  pose proof (Qlt_floor vi) as Hlt.
  pose proof (Qc_of_nat_Q (Z.to_nat (Qfloor vi))) as Hn.
  rewrite Z2Nat.id in Hn by done.
  rewrite inject_Z_plus in Hlt. clear H0. qc_as_q. rewrite Hn.
  change (inject_Z 1) with 1%Q in Hlt. lra.
Qed.

Lemma floor_nat_mono (a b : Qc) :
  (a <= b)%Qc -> (Np.floor_nat a <= Np.floor_nat b)%nat.
Proof.
  intros Hab. unfold Np.floor_nat. pose proof (Qfloor_resp_le a b Hab). lia.
Qed.

(** The interpolation data of a percentile of finite data: the two order
    statistics around the virtual index and the weight between them. *)
Lemma percentile_finite_formula (a : list float64) (qq : Qc) :
  all_finite a = true -> a <> [] ->
  (0 <= qq)%Qc -> (qq <= Q2Qc (inject_Z 100))%Qc ->
  let vi := (Qc_of_nat (length a - 1) * (qq / Q2Qc (inject_Z 100)))%Qc in
  let lo := Np.floor_nat vi in
  let hi := Nat.min (lo + 1) (length a - 1) in
  exists x y : Qc,
    Np.sort a !! lo = Some (Finite x) /\
    Np.sort a !! hi = Some (Finite y) /\
    (x <= y)%Qc /\
    (0 <= vi - Qc_of_nat lo)%Qc /\ (vi - Qc_of_nat lo <= 1)%Qc /\
    (lo <= length a - 1)%nat /\
    Np.percentile a (Finite qq) = Ok (Finite (x + (y - x) * (vi - Qc_of_nat lo))).
Proof.
  intros Hfin Hne H0 H100 vi lo hi.
  assert (Hn : (1 <= length a)%nat) by (destruct a; [done | simpl; lia]).
  destruct (virtual_index_bounds (length a) qq H0 H100) as [Hvi0 Hvin].
  fold vi in Hvi0, Hvin.
  destruct (floor_nat_bounds vi (length a - 1) Hvi0 Hvin) as [Hlo Hg].
  fold lo in Hlo, Hg.
  pose proof (floor_nat_frac_le_one vi Hvi0) as Hg1. fold lo in Hg1.
  pose proof (sort_all_finite a Hfin) as Hsfin.
  pose proof (sort_ascending a Hfin) as Hasc.
  destruct (nth_lookup_finite (Np.sort a) lo Hsfin) as (x & Hx & Lx);
    [rewrite sort_length; lia|].
  destruct (nth_lookup_finite (Np.sort a) hi Hsfin) as (y & Hy & Ly);
    [rewrite sort_length; subst hi; lia|].
  exists x, y.
  assert (Hxy : (x <= y)%Qc).
  { destruct (decide (lo = hi)) as [Heq|Hneq].
    - rewrite <- Heq, Lx in Ly. injection Ly as ->. apply Qcle_refl.
    - apply fleb_finite.
      apply (ascending_lookup (Np.sort a) lo hi); [done|subst hi; lia|done|done]. }
  split; [exact Lx|]. split; [exact Ly|]. split; [exact Hxy|].
  split; [clear -Hg; qc_as_q; lra|]. split; [exact Hg1|]. split; [exact Hlo|].
  rewrite percentile_linear by (done || by apply all_finite_no_nan).
  cbv zeta. fold vi. fold lo. fold hi. by rewrite Hx, Hy.
Qed.

(** A higher percentile of the same finite data is never smaller. *)
Lemma percentile_monotone (a : list float64) (q1 q2 : Qc) :
  all_finite a = true -> a <> [] ->
  (0 <= q1)%Qc -> (q1 <= q2)%Qc -> (q2 <= Q2Qc (inject_Z 100))%Qc ->
  exists v1 v2 : Qc,
    Np.percentile a (Finite q1) = Ok (Finite v1) /\
    Np.percentile a (Finite q2) = Ok (Finite v2) /\
    (v1 <= v2)%Qc.
Proof.
  intros Hfin Hne H0 H12 H100.
  assert (H1 : (q1 <= Q2Qc (inject_Z 100))%Qc) by (by eapply Qcle_trans).
  assert (H2 : (0 <= q2)%Qc) by (by eapply Qcle_trans).
  destruct (percentile_finite_formula a q1 Hfin Hne H0 H1)
    as (x1 & y1 & Lx1 & Ly1 & Hxy1 & Hg1 & Hg1' & Hlo1 & Hp1).
  destruct (percentile_finite_formula a q2 Hfin Hne H2 H100)
    as (x2 & y2 & Lx2 & Ly2 & Hxy2 & Hg2 & Hg2' & Hlo2 & Hp2).
  cbv zeta in *.
  set (vi1 := (Qc_of_nat (length a - 1) * (q1 / Q2Qc (inject_Z 100)))%Qc) in *.
  set (vi2 := (Qc_of_nat (length a - 1) * (q2 / Q2Qc (inject_Z 100)))%Qc) in *.
  assert (Hvi : (vi1 <= vi2)%Qc).
  { subst vi1 vi2. pose proof (inject_Z_of_nat_nonneg (length a - 1)) as HN.
    clear -H12 HN. qc_as_q. rewrite !Qc_of_nat_Q.
    change (/ inject_Z 100)%Q with (1 # 100)%Q.
    set (N := inject_Z (Z.of_nat (length a - 1))) in *. nra. }
  pose proof (floor_nat_mono vi1 vi2 Hvi) as Hlo.
  set (lo1 := Np.floor_nat vi1) in *. set (lo2 := Np.floor_nat vi2) in *.
  eexists _, _. split; [exact Hp1|]. split; [exact Hp2|].
  pose proof (sort_ascending a Hfin) as Hasc.
  destruct (decide (lo1 = lo2)) as [Heq|Hneq].
  - rewrite <- Heq in *. rewrite Lx1 in Lx2. injection Lx2 as <-.
    rewrite Ly1 in Ly2. injection Ly2 as <-.
    clear -Hxy1 Hvi. qc_as_q. nra.
  - assert (Hy1x2 : (y1 <= x2)%Qc).
    { destruct (decide (Nat.min (lo1 + 1) (length a - 1) = lo2)) as [Heq|Hneq'].
      - rewrite Heq, Lx2 in Ly1. injection Ly1 as ->. apply Qcle_refl.
      - apply fleb_finite.
        apply (ascending_lookup (Np.sort a) (Nat.min (lo1 + 1) (length a - 1)) lo2);
          [done|lia|done|done]. }
    clear -Hy1x2 Hxy1 Hxy2 Hg1 Hg1' Hg2. qc_as_q. nra.
Qed.

(** The percentile asked for at a finite confidence level. *)
Lemma confidence_percentile (c : Qc) :
  (one - Finite c) * of_Z 100 = Finite ((1 + - c) * Q2Qc (inject_Z 100))%Qc.
Proof. reflexivity. Qed.

Lemma confidence_percentile_range (c : Qc) :
  negb ((zero <=? Finite ((1 + - c) * Q2Qc (inject_Z 100))%Qc)
        && (Finite ((1 + - c) * Q2Qc (inject_Z 100))%Qc <=? of_Z 100))
  = negb (valid_confidence (Finite c)).
Proof.
  f_equal. unfold valid_confidence, zero, one, of_Z.
  apply eq_true_iff_eq. rewrite !andb_true_iff, !fleb_finite.
  qc_as_q. change (inject_Z 100) with (100 # 1)%Q. split; intros [? ?]; split; lra.
Qed.

(** The outcome of [np.percentile] at the level that the risk measures ask
    for: an error for a level that is not a number between 0 and 1, an error
    for an empty series, a value otherwise. *)
Lemma percentile_of_confidence (pr : Np.ndarray) (confidence_level : float64) :
  (valid_confidence confidence_level = true -> pr <> [] ->
   exists v : float64,
     Np.percentile pr ((one - confidence_level) * of_Z 100) = Ok v) /\
  (valid_confidence confidence_level = true -> pr = [] ->
   Np.percentile pr ((one - confidence_level) * of_Z 100)
   = Raise (IndexError "index -1 is out of bounds for axis 0 with size 0")) /\
  (valid_confidence confidence_level = false ->
   Np.percentile pr ((one - confidence_level) * of_Z 100)
   = Raise (ValueError "Percentiles must be in the range [0, 100]")).
Proof.
  destruct confidence_level as [c| | |];
    try (split; [done|]; split; [done|]; by intros _).
  rewrite confidence_percentile. unfold Np.percentile.
  rewrite confidence_percentile_range.
  split; [|split]; intros ->; cbn [negb]; try done.
  - intros Hne. destruct (existsb is_nan pr); [by eexists|].
    destruct pr; [done | by eexists].
  - by intros ->.
Qed.

(** X7.  The confidence level of the two risk measures.  For a level
    between 0 and 1 and a return table with at least one row they return a
    value; for such a level and a table without rows they raise the
    IndexError of [np.percentile]; for a level above 1, an infinite level or
    NaN they raise the ValueError of [np.percentile], whatever the weights
    and the return table are. *)
Theorem value_at_risk_confidence_range (weights : Np.ndarray) (returns : Pd.DataFrame)
    (confidence_level : float64) :
  (valid_confidence confidence_level = true -> returns <> [] ->
   exists var cvar : float64,
     PortfolioMetrics.value_at_risk weights returns confidence_level = Ok var /\
     PortfolioMetrics.conditional_value_at_risk weights returns confidence_level
       = Ok cvar) /\
  (valid_confidence confidence_level = true -> returns = [] ->
   PortfolioMetrics.value_at_risk weights returns confidence_level
     = Raise (IndexError "index -1 is out of bounds for axis 0 with size 0") /\
   PortfolioMetrics.conditional_value_at_risk weights returns confidence_level
     = Raise (IndexError "index -1 is out of bounds for axis 0 with size 0")) /\
  ((one <? confidence_level) = true \/ confidence_level = NegInf
   \/ confidence_level = NaN ->
   PortfolioMetrics.value_at_risk weights returns confidence_level
     = Raise (ValueError "Percentiles must be in the range [0, 100]") /\
   PortfolioMetrics.conditional_value_at_risk weights returns confidence_level
     = Raise (ValueError "Percentiles must be in the range [0, 100]")).
Proof.
  unfold PortfolioMetrics.conditional_value_at_risk, PortfolioMetrics.value_at_risk.
  pose proof (calculate_portfolio_returns_length weights returns) as Hlen.
  unfold PortfolioMetrics.calculate_portfolio_returns in Hlen.
  set (pr := Pd.sum_axis1 (Pd.mul_row returns weights)) in *.
  destruct (percentile_of_confidence pr confidence_level) as (Hok & Hempty & Hbad).
  split; [|split].
  - intros Hvalid Hne. destruct (Hok Hvalid) as [v Hv].
    { intros Hnil. rewrite Hnil in Hlen. by destruct returns. }
    rewrite Hv. by eexists _, _.
  - intros Hvalid Hnil. rewrite Hempty; [done|done|].
    rewrite Hnil in Hlen. by destruct pr.
  - intros Hcase. rewrite Hbad; [done|].
    destruct Hcase as [Habove|[->| ->]]; [|done..].
    destruct confidence_level as [c| | |]; try done.
    unfold valid_confidence. apply andb_false_iff. right.
    unfold one in *. apply fltb_finite in Habove.
    destruct (Finite c <=? Finite 1) eqn:Hle; [|done].
    apply fleb_finite in Hle. by apply Qcle_not_lt in Hle.
Qed.

(** X8.  Over a non-empty table of finite returns, a higher confidence level
    never gives a higher value at risk: the threshold moves down the sorted
    realized returns. *)
Theorem value_at_risk_antitone (weights : Np.ndarray) (returns : Pd.DataFrame)
    (c1 c2 : Qc) :
  returns <> [] ->
  all_finite weights = true ->
  forallb all_finite returns = true ->
  (0 <= c1)%Qc -> (c1 <= c2)%Qc -> (c2 <= 1)%Qc ->
  exists v1 v2 : Qc,
    PortfolioMetrics.value_at_risk weights returns (Finite c1) = Ok (Finite v1) /\
    PortfolioMetrics.value_at_risk weights returns (Finite c2) = Ok (Finite v2) /\
    (v2 <= v1)%Qc.
Proof.
  intros Hne Hw Hret H0 H12 H1.
  pose proof (calculate_portfolio_returns_finite weights returns Hw Hret) as Hfin.
  pose proof (calculate_portfolio_returns_length weights returns) as Hlen.
  unfold PortfolioMetrics.value_at_risk.
  fold (PortfolioMetrics.calculate_portfolio_returns weights returns).
  set (pr := PortfolioMetrics.calculate_portfolio_returns weights returns) in *.
  assert (Hpr : pr <> []).
  { intros Hnil. rewrite Hnil in Hlen. by destruct returns. }
  rewrite !confidence_percentile.
  destruct (percentile_monotone pr
              ((1 + - c2) * Q2Qc (inject_Z 100))%Qc
              ((1 + - c1) * Q2Qc (inject_Z 100))%Qc Hfin Hpr)
    as (v2 & v1 & Hv2 & Hv1 & Hle).
  - clear -H1. qc_as_q. change (inject_Z 100) with (100 # 1)%Q. lra.
  - clear -H12. qc_as_q. change (inject_Z 100) with (100 # 1)%Q. lra.
  - clear -H0. qc_as_q. change (inject_Z 100) with (100 # 1)%Q. lra.
  - by exists v1, v2.
Qed.

Lemma value_at_risk_antitone_witness :
  hundred_periods <> [] /\
  (Q2Qc (9 # 10) <= Q2Qc (95 # 100))%Qc /\
  exists v1 v2 : Qc,
    PortfolioMetrics.value_at_risk [one] hundred_periods (Finite (Q2Qc (9 # 10)))
      = Ok (Finite v1) /\
    PortfolioMetrics.value_at_risk [one] hundred_periods (Finite (Q2Qc (95 # 100)))
      = Ok (Finite v2) /\
    (v2 <= v1)%Qc.
Proof.
  assert (Hne : hundred_periods <> []) by discriminate.
  assert (Hret : forallb all_finite hundred_periods = true) by (vm_compute; reflexivity).
  assert (H0 : (0 <= Q2Qc (9 # 10))%Qc) by (vm_compute; discriminate).
  assert (H12 : (Q2Qc (9 # 10) <= Q2Qc (95 # 100))%Qc) by (vm_compute; discriminate).
  assert (H1 : (Q2Qc (95 # 100) <= 1)%Qc) by (vm_compute; discriminate).
  destruct (value_at_risk_antitone [one] hundred_periods (Q2Qc (9 # 10)) (Q2Qc (95 # 100))
              Hne eq_refl Hret H0 H12 H1) as (v1 & v2 & Hv1 & Hv2 & Hle).
  split; [exact Hne|]. split; [exact H12|].
  exists v1, v2. split; [exact Hv1|]. split; [exact Hv2 | exact Hle].
Defined.

End Percentile_monotone.

(** ** Rebalancer: monitoring and minimal rebalancing *)

Section Rebalancer_monitoring.

Import PortfolioRebalancer.

Lemma any_map_lookup {A : Type} (p : A -> bool) (l : list A) :
  Np.any (map p l) = true <-> exists (i : nat) (x : A), l !! i = Some x /\ p x = true.
Proof.
  unfold Np.any. induction l as [|y l IH]; cbn [map existsb].
  - split; [done | by intros (i & x & ? & _)].
  - rewrite orb_true_iff, IH. unfold id. split.
    + intros [Hy | (i & x & Hx & Hp)]; [by exists 0%nat, y | by exists (S i), x].
    + intros ([|i] & x & Hx & Hp); cbn in Hx; [left; congruence | right; by exists i, x].
Qed.









End Rebalancer_monitoring.

(** ** Drawdown of a return series *)

Section Drawdown_facts.

Lemma growth_finite_array (rs : list Qc) :
  map (fun r => one + r) (finite_array rs) = finite_array (growth rs).
Proof. unfold finite_array, growth. by rewrite !map_map. Qed.

Lemma cumprod_from_finite (fs : list Qc) (acc : Qc) :
  Pd.cumprod_from (Finite acc) (finite_array fs) = finite_array (Qcumprod acc fs).
Proof.
  revert acc. induction fs as [|f fs IH]; intros acc; [done|].
  cbn [finite_array map Pd.cumprod_from is_nan Qcumprod fmul].
  fold (finite_array fs). by rewrite IH.
Qed.

Lemma Qc_mul_pos (a b : Qc) : (0 < a)%Qc -> (0 < b)%Qc -> (0 < a * b)%Qc.
Proof.
  intros Ha Hb. replace 0%Qc with (0 * b)%Qc by ring.
  by apply Qcmult_lt_compat_r.
Qed.

Lemma Qcmax_ge_r (a b : Qc) : (b <= Qcmax a b)%Qc.
Proof.
  unfold Qcmax. destruct (Qclt_le_dec a b) as [Hlt|Hge]; [apply Qcle_refl|done].
Qed.

Lemma Qpeak_ge (best : option Qc) (c : Qc) : (c <= Qpeak best c)%Qc.
Proof. destruct best as [m|]; [apply Qcmax_ge_r|apply Qcle_refl]. Qed.

Lemma max_so_far_finite (best : option Qc) (c : Qc) :
  Pd.max_so_far (Finite <$> best) (Finite c) = Some (Finite (Qpeak best c)).
Proof.
  destruct best as [m|]; [|done].
  cbn [fmap option_fmap option_map Pd.max_so_far is_nan Qpeak].
  unfold fltb, Qcmax. by destruct (Qclt_le_dec m c).
Qed.

Lemma drawdown_from_finite (fs : list Qc) (acc : Qc) (best : option Qc) :
  (0 < acc)%Qc -> Forall (fun f : Qc => (0 < f)%Qc) fs ->
  let cumulative := Pd.cumprod_from (Finite acc) (finite_array fs) in
  let running_max := Pd.expanding_max_from (Finite <$> best) cumulative in
  Np.div (Np.sub cumulative running_max) running_max
  = finite_array (Qdrawdown best acc fs).
Proof.
  revert acc best. induction fs as [|f fs IH]; intros acc best Hacc Hfs; [done|].
  apply Forall_cons in Hfs as [Hf Hfs].
  assert (Hc : (0 < acc * f)%Qc) by by apply Qc_mul_pos.
  pose proof (Qpeak_ge best (acc * f)) as Hm.
  assert (Hm0 : Qpeak best (acc * f) <> 0%Qc).
  { apply Qc_pos_nonzero. by eapply Qclt_le_trans. }
  cbn zeta.
  cbn [finite_array map Pd.cumprod_from is_nan fmul Pd.expanding_max_from].
  fold (finite_array fs). rewrite max_so_far_finite.
  cbn [default from_option id Np.div Np.sub zip_with Qdrawdown finite_array map].
  fold (finite_array (Qdrawdown (Some (Qpeak best (acc * f))) (acc * f) fs)).
  f_equal.
  - cbn [fsub fopp fadd fdiv].
    destruct (Qc_eq_dec (Qpeak best (acc * f)) 0) as [H0|_]; [done|].
    apply (f_equal Finite). unfold Qcminus. done.
  - change (Some (Finite (Qpeak best (acc * f))))
      with (Finite <$> Some (Qpeak best (acc * f))).
    by apply (IH (acc * f)%Qc (Some (Qpeak best (acc * f)))).
Qed.

Lemma cumulative_returns_finite (rs : list Qc) :
  cumulative_returns (finite_array rs) = finite_array (Qcumprod 1 (growth rs)).
Proof.
  unfold cumulative_returns, Pd.cumprod, one.
  by rewrite growth_finite_array, cumprod_from_finite.
Qed.

Lemma growth_positive (rs : list Qc) :
  Forall (fun r : Qc => (-(1) < r)%Qc) rs -> Forall (fun f : Qc => (0 < f)%Qc) (growth rs).
Proof.
  intros Hrs. unfold growth. apply Forall_map. eapply Forall_impl; [exact Hrs|].
  intros r Hr. cbn beta. qc_as_q. lra.
Qed.

Lemma drawdown_series_finite (rs : list Qc) :
  Forall (fun r : Qc => (-(1) < r)%Qc) rs ->
  drawdown_series (finite_array rs) = finite_array (Qdrawdown None 1 (growth rs)).
Proof.
  intros Hrs. unfold drawdown_series, cumulative_returns, Pd.cumprod, Pd.expanding_max, one.
  rewrite growth_finite_array.
  by apply (drawdown_from_finite (growth rs) 1%Qc None); [|apply growth_positive].
Qed.

Lemma Qdrawdown_length (fs : list Qc) (acc : Qc) (best : option Qc) :
  length (Qdrawdown best acc fs) = length fs.
Proof.
  revert acc best. induction fs as [|f fs IH]; intros acc best; [done|].
  cbn [Qdrawdown length]. by rewrite IH.
Qed.

Lemma Qcumprod_length (fs : list Qc) (acc : Qc) : length (Qcumprod acc fs) = length fs.
Proof.
  revert acc. induction fs as [|f fs IH]; intros acc; [done|].
  cbn [Qcumprod length]. by rewrite IH.
Qed.

(** While wealth stays positive, a drawdown lies in (-1, 0]. *)
Lemma Qdrawdown_range (fs : list Qc) (acc : Qc) (best : option Qc) :
  (0 < acc)%Qc -> Forall (fun f : Qc => (0 < f)%Qc) fs ->
  Forall (fun d : Qc => (-(1) < d)%Qc /\ (d <= 0)%Qc) (Qdrawdown best acc fs).
Proof.
  revert acc best. induction fs as [|f fs IH]; intros acc best Hacc Hfs; [by constructor|].
  apply Forall_cons in Hfs as [Hf Hfs].
  assert (Hc : (0 < acc * f)%Qc) by by apply Qc_mul_pos.
  pose proof (Qpeak_ge best (acc * f)) as Hm.
  assert (Hm0 : (0 < Qpeak best (acc * f))%Qc) by by eapply Qclt_le_trans.
  cbn [Qdrawdown]. constructor; [|by apply IH].
  split.
  - apply Qc_div_lt_iff; [done|].
    set (c := (acc * f)%Qc) in *. set (m := Qpeak best c) in *.
    clearbody c m. clear -Hc. qc_as_q. lra.
  - apply Qcnot_lt_le. intros Hpos. apply Qc_div_lt_iff in Hpos; [|done].
    set (c := (acc * f)%Qc) in *. set (m := Qpeak best c) in *.
    clearbody c m. clear -Hm Hpos. qc_as_q. lra.
Qed.

(** The first period has no drawdown. *)
Lemma Qdrawdown_first (f : Qc) (fs : list Qc) (acc : Qc) :
  Qdrawdown None acc (f :: fs) = 0%Qc :: Qdrawdown (Some (acc * f)%Qc) (acc * f)%Qc fs.
Proof. cbn [Qdrawdown Qpeak]. f_equal. unfold Qcdiv. ring. Qed.

(** Growth factors of at least 1 from a new high leave no drawdown. *)
Lemma Qdrawdown_flat (fs : list Qc) (acc : Qc) (best : option Qc) :
  (0 < acc)%Qc -> (forall m : Qc, best = Some m -> (m <= acc)%Qc) ->
  Forall (fun f : Qc => (1 <= f)%Qc) fs ->
  Qdrawdown best acc fs = replicate (length fs) 0%Qc.
Proof.
  revert acc best. induction fs as [|f fs IH]; intros acc best Hacc Hbest Hfs; [done|].
  apply Forall_cons in Hfs as [Hf Hfs].
  assert (Hle : (acc <= acc * f)%Qc).
  { replace acc with (acc * 1)%Qc at 1 by ring. rewrite !(Qcmult_comm acc).
    apply Qcmult_le_compat_r; [done|by apply Qclt_le_weak]. }
  assert (Hpeak : Qpeak best (acc * f) = (acc * f)%Qc).
  { destruct best as [m|]; [|done]. cbn [Qpeak]. unfold Qcmax.
    destruct (Qclt_le_dec m (acc * f)) as [_|Hge]; [done|].
    apply Qcle_antisym; [|done]. eapply Qcle_trans; [by apply Hbest|done]. }
  cbn [Qdrawdown length replicate]. rewrite Hpeak. f_equal.
  - unfold Qcdiv. ring.
  - apply IH; [by eapply Qclt_le_trans|by intros m [= <-]; apply Qcle_refl|done].
Qed.

(** [idxmin] and [idxmax] share one scan; [R a b] says that [a] beats [b]. *)
Section Argbest.

Variable better : float64 -> float64 -> bool.
Variable R : Qc -> Qc -> Prop.
Hypothesis better_spec : forall a b : Qc, better (Finite a) (Finite b) = true <-> R a b.
Hypothesis R_irrefl : forall a : Qc, ~ R a a.
Hypothesis R_trans : forall a b c : Qc, R a b -> R b c -> R a c.
Hypothesis R_cotrans : forall a b x : Qc, R a b -> R a x \/ R x b.

Lemma argbest_from (ds : list Qc) (pos i : nat) (b : Qc) :
  exists (t : nat) (d : Qc),
    Pd.argbest better (finite_array ds) pos (Some (i, Finite b)) = Some (t, Finite d)
    /\ ~ R b d
    /\ Forall (fun x : Qc => ~ R x d) ds
    /\ ((t = i /\ d = b) \/
        ((pos <= t)%nat /\ ds !! (t - pos)%nat = Some d /\ R d b /\
         forall (j : nat) (x : Qc), (j < t - pos)%nat -> ds !! j = Some x -> R d x)).
Proof.
  revert pos i b. induction ds as [|x ds IH]; intros pos i b.
  { exists i, b. split; [done|]. split; [apply R_irrefl|]. split; [constructor|by left]. }
  cbn [finite_array map Pd.argbest is_nan]. fold (finite_array ds).
  destruct (better (Finite x) (Finite b)) eqn:Hb.
  - apply better_spec in Hb.
    destruct (IH (S pos) pos x) as (t & d & Heq & Hxd & Hall & Hcase).
    exists t, d. split; [done|].
    split; [intros Hbd; apply Hxd; by apply (R_trans x b d)|].
    split; [by constructor|]. right.
    destruct Hcase as [[-> ->]|(Hpos & Hlk & Hdx & Hfirst)].
    + split; [lia|]. rewrite Nat.sub_diag. split; [done|]. split; [done|].
      intros j x0 Hj. lia.
    + split; [lia|]. replace (t - pos)%nat with (S (t - S pos)) by lia.
      split; [done|]. split; [by apply (R_trans d x b)|].
      intros [|j] x0 Hj Hlk0.
      * injection Hlk0 as <-. done.
      * apply (Hfirst j); [lia|done].
  - assert (Hnb : ~ R x b).
    { intros HR. apply better_spec in HR. congruence. }
    destruct (IH (S pos) i b) as (t & d & Heq & Hbd & Hall & Hcase).
    exists t, d. split; [done|]. split; [done|]. split.
    { constructor; [|done].
      destruct Hcase as [[-> ->]|(_ & _ & Hdb & _)]; [done|].
      intros Hxd. apply Hnb. by apply (R_trans x d b). }
    destruct Hcase as [[-> ->]|(Hpos & Hlk & Hdb & Hfirst)]; [by left|].
    right. split; [lia|]. replace (t - pos)%nat with (S (t - S pos)) by lia.
    split; [done|]. split; [done|].
    intros [|j] x0 Hj Hlk0.
    + injection Hlk0 as <-. by destruct (R_cotrans d b x Hdb).
    + apply (Hfirst j); [lia|done].
Qed.

(** On a non-empty array of finite numbers the scan returns the first
    position of a best entry. *)
Lemma argbest_finite (d0 : Qc) (ds : list Qc) :
  exists (t : nat) (d : Qc),
    Pd.argbest better (finite_array (d0 :: ds)) 0 None = Some (t, Finite d)
    /\ (d0 :: ds) !! t = Some d
    /\ Forall (fun x : Qc => ~ R x d) (d0 :: ds)
    /\ forall (j : nat) (x : Qc), (j < t)%nat -> (d0 :: ds) !! j = Some x -> R d x.
Proof.
  cbn [finite_array map Pd.argbest is_nan]. fold (finite_array ds).
  destruct (argbest_from ds 1 0 d0) as (t & d & Heq & Hd0 & Hall & Hcase).
  exists t, d. split; [done|].
  destruct Hcase as [[-> ->]|(Hpos & Hlk & Hdb & Hfirst)].
  - split; [done|]. split; [by constructor|]. intros j x Hj. lia.
  - destruct t as [|t]; [lia|]. replace (S t - 1)%nat with t in * by lia.
    split; [done|]. split; [by constructor|].
    intros [|j] x Hj Hlk0.
    + injection Hlk0 as <-. done.
    + apply (Hfirst j); [lia|done].
Qed.

End Argbest.

Lemma lookup_lt_length {A : Type} (l : list A) (i : nat) (x : A) :
  l !! i = Some x -> (i < length l)%nat.
Proof. intros Hlk. apply lookup_lt_is_Some. by exists x. Qed.

Lemma fillna_finite_array (v : float64) (qs : list Qc) :
  Pd.fillna v (finite_array qs) = finite_array qs.
Proof. unfold Pd.fillna, finite_array. rewrite map_map. by apply map_ext. Qed.

(** [idxmin]: the first position of the smallest entry. *)
Lemma idxmin_finite (d0 : Qc) (ds : list Qc) :
  exists (t : nat) (d : Qc),
    Pd.idxmin (finite_array (d0 :: ds)) = Ok (Some t)
    /\ (d0 :: ds) !! t = Some d
    /\ Forall (fun x : Qc => (d <= x)%Qc) (d0 :: ds)
    /\ forall (j : nat) (x : Qc), (j < t)%nat -> (d0 :: ds) !! j = Some x -> (d < x)%Qc.
Proof.
  destruct (argbest_finite fltb Qclt fltb_finite) with (d0 := d0) (ds := ds)
    as (t & d & Heq & Hlk & Hall & Hfirst).
  - intros a Ha. by apply Qclt_not_eq in Ha.
  - apply Qclt_trans.
  - intros a b x Hab. destruct (Qclt_le_dec a x) as [|Hxa]; [by left|].
    right. by eapply Qcle_lt_trans.
  - exists t, d. split.
    { unfold Pd.idxmin. cbn [finite_array map forallb is_nan andb].
      fold (finite_array ds).
      change (Finite d0 :: finite_array ds) with (finite_array (d0 :: ds)).
      by rewrite fillna_finite_array, Heq. }
    split; [done|]. split; [|done].
    eapply Forall_impl; [exact Hall|]. intros x Hx. cbn beta in Hx.
    by apply Qcnot_lt_le.
Qed.

(** [idxmax]: the first position of the largest entry. *)
Lemma idxmax_finite (d0 : Qc) (ds : list Qc) :
  exists (t : nat) (d : Qc),
    Pd.idxmax (finite_array (d0 :: ds)) = Ok (Some t)
    /\ (d0 :: ds) !! t = Some d
    /\ Forall (fun x : Qc => (x <= d)%Qc) (d0 :: ds)
    /\ forall (j : nat) (x : Qc), (j < t)%nat -> (d0 :: ds) !! j = Some x -> (x < d)%Qc.
Proof.
  destruct (argbest_finite (fun x b => b <? x) (fun a b : Qc => (b < a)%Qc))
    with (d0 := d0) (ds := ds) as (t & d & Heq & Hlk & Hall & Hfirst).
  - intros a b. apply fltb_finite.
  - intros a Ha. by apply Qclt_not_eq in Ha.
  - intros a b c Hab Hbc. by apply (Qclt_trans c b a).
  - intros a b x Hab. destruct (Qclt_le_dec x a) as [|Hxa]; [by left|].
    right. by eapply Qclt_le_trans.
  - exists t, d. split.
    { unfold Pd.idxmax. cbn [finite_array map forallb is_nan andb].
      fold (finite_array ds).
      change (Finite d0 :: finite_array ds) with (finite_array (d0 :: ds)).
      by rewrite fillna_finite_array, Heq. }
    split; [done|]. split; [|done].
    eapply Forall_impl; [exact Hall|]. intros x Hx. cbn beta in Hx.
    by apply Qcnot_lt_le.
Qed.

(** [Series.min] of finite numbers is an entry below all the others. *)
Lemma min_finite (d0 : Qc) (ds : list Qc) :
  exists d : Qc,
    Pd.min (finite_array (d0 :: ds)) = Finite d
    /\ d ∈ d0 :: ds
    /\ Forall (fun x : Qc => (d <= x)%Qc) (d0 :: ds).
Proof.
  unfold Pd.min. rewrite dropna_finite by apply all_finite_finite_array.
  cbn [finite_array map]. fold (finite_array ds).
  assert (Hgen : forall (v : list Qc) (m : Qc), exists d : Qc,
            foldl (fun m y => if y <? m then y else m) (Finite m) (finite_array v) = Finite d
            /\ (d = m \/ d ∈ v) /\ (d <= m)%Qc /\ Forall (fun x : Qc => (d <= x)%Qc) v).
  { induction v as [|y v IH]; intros m.
    - exists m. split; [done|]. split; [by left|]. split; [apply Qcle_refl|constructor].
    - cbn [finite_array map foldl]. fold (finite_array v).
      destruct (Finite y <? Finite m) eqn:Hcmp.
      + apply fltb_finite in Hcmp as Hlt. destruct (IH y) as (d & Heq & Hin & Hle & Hall).
        exists d. split; [done|]. split.
        { right. destruct Hin as [->|Hin]; [left|by right]. }
        split; [eapply Qcle_trans; [exact Hle|by apply Qclt_le_weak]|by constructor].
      + assert (Hge : (m <= y)%Qc).
        { apply Qcnot_lt_le. intros Hlt. apply fltb_finite in Hlt. congruence. }
        destruct (IH m) as (d & Heq & Hin & Hle & Hall).
        exists d. split; [done|]. split.
        { destruct Hin as [->|Hin]; [by left|right; by right]. }
        split; [done|]. constructor; [by eapply Qcle_trans|done]. }
  destruct (Hgen ds d0) as (d & Heq & Hin & Hle & Hall).
  exists d. split; [done|]. split.
  - destruct Hin as [->|Hin]; [left|by right].
  - by constructor.
Qed.

Lemma take_finite_array (k : nat) (qs : list Qc) :
  take k (finite_array qs) = finite_array (take k qs).
Proof. unfold finite_array. apply firstn_map. Qed.

(** What [maximum_drawdown] computes on finite returns above -100%: the
    smallest drawdown, its first position, and the scan for the peak. *)
Lemma maximum_drawdown_finite (r0 : Qc) (rs : list Qc) :
  Forall (fun r : Qc => (-(1) < r)%Qc) (r0 :: rs) ->
  exists (t : nat) (d : Qc),
    Qdrawdown None 1 (growth (r0 :: rs)) !! t = Some d
    /\ Forall (fun x : Qc => (d <= x)%Qc) (Qdrawdown None 1 (growth (r0 :: rs)))
    /\ (forall (j : nat) (x : Qc),
          (j < t)%nat -> Qdrawdown None 1 (growth (r0 :: rs)) !! j = Some x -> (d < x)%Qc)
    /\ forall index : Pd.index_kind,
         PortfolioMetrics.maximum_drawdown index (finite_array (r0 :: rs))
         = (peak_date ← Pd.idxmax
              (Pd.slice_to index t (finite_array (Qcumprod 1 (growth (r0 :: rs)))));
            mret (Finite d, peak_date, t)).
Proof.
  intros Hrs. unfold PortfolioMetrics.maximum_drawdown.
  change (Pd.cumprod (map (fun r => one + r) (finite_array (r0 :: rs))))
    with (cumulative_returns (finite_array (r0 :: rs))).
  cbn zeta.
  change (Np.div
            (Np.sub (cumulative_returns (finite_array (r0 :: rs)))
               (Pd.expanding_max (cumulative_returns (finite_array (r0 :: rs)))))
            (Pd.expanding_max (cumulative_returns (finite_array (r0 :: rs)))))
    with (drawdown_series (finite_array (r0 :: rs))).
  rewrite drawdown_series_finite by done. rewrite cumulative_returns_finite.
  change (growth (r0 :: rs)) with ((1 + r0)%Qc :: growth rs).
  rewrite Qdrawdown_first.
  set (ds := Qdrawdown (Some (1 * (1 + r0))%Qc) (1 * (1 + r0))%Qc (growth rs)).
  destruct (idxmin_finite 0%Qc ds) as (t & d & Hidx & Hlk & Hall & Hfirst).
  destruct (min_finite 0%Qc ds) as (d' & Hmin & Hin & Hall').
  assert (Hdd : d' = d).
  { apply Qcle_antisym.
    - apply list_elem_of_lookup_2 in Hlk.
      by apply (proj1 (Forall_forall _ _) Hall' d).
    - by apply (proj1 (Forall_forall _ _) Hall d'). }
  subst d'. exists t, d. split; [done|]. split; [done|]. split; [done|].
  intros index. rewrite Hidx, Hmin. done.
Qed.

Lemma slice_to_finite_array (index : Pd.index_kind) (t : nat) (cs : list Qc) :
  Pd.slice_to index t (finite_array cs)
  = finite_array (match index with
                  | Pd.RangeIndex => take t cs
                  | Pd.LabelIndex => take (S t) cs
                  end).
Proof. destruct index; apply take_finite_array. Qed.

(** With a label index the slice up to the trough holds the trough, so the
    scan for the peak has something to scan. *)
Lemma maximum_drawdown_label_finite (r0 : Qc) (rs : list Qc) :
  Forall (fun r : Qc => (-(1) < r)%Qc) (r0 :: rs) ->
  exists (t p : nat) (d : Qc),
    Qdrawdown None 1 (growth (r0 :: rs)) !! t = Some d
    /\ PortfolioMetrics.maximum_drawdown Pd.LabelIndex (finite_array (r0 :: rs))
       = Ok (Finite d, Some p, t)
    /\ (p <= t)%nat.
Proof.
  intros Hrs.
  destruct (maximum_drawdown_finite r0 rs Hrs) as (t & d & Hlk & _ & _ & Heq).
  rewrite Heq. cbn [Pd.slice_to]. rewrite take_finite_array.
  change (growth (r0 :: rs)) with ((1 + r0)%Qc :: growth rs) in *.
  cbn [Qcumprod take].
  destruct (idxmax_finite (1 * (1 + r0))%Qc (take t (Qcumprod (1 * (1 + r0)) (growth rs))))
    as (p & c & Hidx & Hplk & _ & _).
  rewrite Hidx. exists t, p, d. split; [done|]. split; [done|].
  apply lookup_lt_length in Hplk. cbn [length] in Hplk.
  rewrite length_take in Hplk. lia.
Qed.

Lemma Qdrawdown_lookup_range (rs : list Qc) (t : nat) (d : Qc) :
  Forall (fun r : Qc => (-(1) < r)%Qc) rs ->
  Qdrawdown None 1 (growth rs) !! t = Some d ->
  (-(1) < d)%Qc /\ (d <= 0)%Qc /\ (t < length rs)%nat.
Proof.
  intros Hrs Hlk.
  pose proof (Qdrawdown_range (growth rs) 1 None eq_refl (growth_positive _ Hrs)) as Hrange.
  destruct (proj1 (Forall_forall _ _) Hrange d (list_elem_of_lookup_2 _ _ _ Hlk))
    as [Hlo Hhi].
  apply lookup_lt_length in Hlk. rewrite Qdrawdown_length in Hlk.
  unfold growth in Hlk. rewrite length_map in Hlk. done.
Qed.

(** X9.  [maximum_drawdown] on a non-empty series of finite returns above
    -100% that carries a label index: the call returns, the drawdown lies in
    [-1, 0], and the peak is not later than the trough, both being positions
    of the series. *)
Theorem maximum_drawdown_bounds (rs : list Qc) :
  rs <> [] ->
  Forall (fun r : Qc => (-(1) < r)%Qc) rs ->
  exists (d : Qc) (peak trough : nat),
    PortfolioMetrics.maximum_drawdown Pd.LabelIndex (finite_array rs)
    = Ok (Finite d, Some peak, trough)
    /\ (-(1) <= d)%Qc /\ (d <= 0)%Qc
    /\ (peak <= trough)%nat /\ (trough < length rs)%nat.
Proof.
  intros Hne Hrs. destruct rs as [|r0 rs]; [done|].
  destruct (maximum_drawdown_label_finite r0 rs Hrs) as (t & p & d & Hlk & Heq & Hpt).
  destruct (Qdrawdown_lookup_range (r0 :: rs) t d Hrs Hlk) as (Hlo & Hhi & Hlen).
  exists d, p, t. split; [done|]. split; [by apply Qclt_le_weak|done].
Qed.

(** X10.  Where [maximum_drawdown] returns on finite returns above -100%,
    the reported drawdown is the value of the drawdown series at the trough,
    no entry of the series is smaller and every earlier entry is larger; the
    peak is the first position of the highest cumulative return in the slice
    that ends at the trough. *)
Theorem maximum_drawdown_first_trough_and_peak (index : Pd.index_kind) (rs : list Qc)
    (max_dd : float64) (peak_date : option nat) (trough : nat) :
  Forall (fun r : Qc => (-(1) < r)%Qc) rs ->
  PortfolioMetrics.maximum_drawdown index (finite_array rs)
  = Ok (max_dd, peak_date, trough) ->
  drawdown_series (finite_array rs) !! trough = Some max_dd
  /\ (forall (j : nat) (x : float64),
        drawdown_series (finite_array rs) !! j = Some x ->
        (max_dd <=? x) = true /\ ((j < trough)%nat -> (max_dd <? x) = true))
  /\ exists (peak : nat) (high : float64),
       peak_date = Some peak
       /\ Pd.slice_to index trough (cumulative_returns (finite_array rs)) !! peak = Some high
       /\ forall (j : nat) (x : float64),
            Pd.slice_to index trough (cumulative_returns (finite_array rs)) !! j = Some x ->
            (x <=? high) = true /\ ((j < peak)%nat -> (x <? high) = true).
Proof.
  intros Hrs Hrun. destruct rs as [|r0 rs]; [done|].
  destruct (maximum_drawdown_finite r0 rs Hrs) as (t & d & Hlk & Hall & Hfirst & Heq).
  rewrite Heq in Hrun. rewrite drawdown_series_finite by done.
  rewrite cumulative_returns_finite. rewrite slice_to_finite_array in Hrun.
  assert (Htr : trough = t).
  { destruct (Pd.idxmax _) as [o|e] in Hrun; cbn in Hrun; [by injection Hrun|done]. }
  subst trough. rewrite slice_to_finite_array.
  destruct (match index with
            | Pd.RangeIndex => take t (Qcumprod 1 (growth (r0 :: rs)))
            | Pd.LabelIndex => take (S t) (Qcumprod 1 (growth (r0 :: rs)))
            end) as [|c0 cs]; [done|].
  destruct (idxmax_finite c0 cs) as (p & c & Hidx & Hplk & Hpall & Hpfirst).
  rewrite Hidx in Hrun. injection Hrun as <- <-.
  split; [by rewrite finite_array_lookup, Hlk|]. split.
  - intros j x Hx. rewrite finite_array_lookup in Hx.
    destruct (Qdrawdown None 1 (growth (r0 :: rs)) !! j) as [q|] eqn:Hq; [|done].
    injection Hx as <-. split.
    + apply fleb_finite.
      by apply (proj1 (Forall_forall _ _) Hall q), (list_elem_of_lookup_2 _ j).
    + intros Hj. apply fltb_finite. by apply (Hfirst j).
  - exists p, (Finite c). split; [done|].
    split; [by rewrite finite_array_lookup, Hplk|].
    intros j x Hx. rewrite finite_array_lookup in Hx.
    destruct ((c0 :: cs) !! j) as [q|] eqn:Hq; [|done].
    injection Hx as <-. split.
    + apply fleb_finite.
      by apply (proj1 (Forall_forall _ _) Hpall q), (list_elem_of_lookup_2 _ j).
    + intros Hj. apply fltb_finite. by apply (Hpfirst j).
Qed.

Lemma idxmax_singleton (c : Qc) : Pd.idxmax (finite_array [c]) = Ok (Some 0%nat).
Proof. done. Qed.

(** X11.  [maximum_drawdown] on an array, which gets the default integer
    index, where the slice up to the trough leaves the trough out.  Either
    the call returns a negative drawdown, not below -1, with the peak
    strictly before the trough; or the trough is the first period, the slice
    is empty and the call raises ValueError, where a label index gives
    drawdown 0 with peak and trough at the first period. *)
Theorem maximum_drawdown_default_index (rs : list Qc) :
  rs <> [] ->
  Forall (fun r : Qc => (-(1) < r)%Qc) rs ->
  (exists (d : Qc) (peak trough : nat),
     PortfolioMetrics.maximum_drawdown Pd.RangeIndex (finite_array rs)
     = Ok (Finite d, Some peak, trough)
     /\ (-(1) <= d)%Qc /\ (d < 0)%Qc
     /\ (peak < trough)%nat /\ (trough < length rs)%nat)
  \/ (PortfolioMetrics.maximum_drawdown Pd.RangeIndex (finite_array rs)
      = Raise (ValueError "attempt to get argmax of an empty sequence")
      /\ PortfolioMetrics.maximum_drawdown Pd.LabelIndex (finite_array rs)
         = Ok (zero, Some 0%nat, 0%nat)).
Proof.
  intros Hne Hrs. destruct rs as [|r0 rs]; [done|].
  destruct (maximum_drawdown_finite r0 rs Hrs) as (t & d & Hlk & _ & Hfirst & Heq).
  pose proof (Qdrawdown_range (growth (r0 :: rs)) 1 None eq_refl (growth_positive _ Hrs))
    as Hrange.
  destruct (proj1 (Forall_forall _ _) Hrange d (list_elem_of_lookup_2 _ _ _ Hlk))
    as [Hlo _].
  assert (Hzero : Qdrawdown None 1 (growth (r0 :: rs)) !! 0%nat = Some 0%Qc).
  { change (growth (r0 :: rs)) with ((1 + r0)%Qc :: growth rs).
    by rewrite Qdrawdown_first. }
  rewrite !Heq. rewrite !slice_to_finite_array.
  change (growth (r0 :: rs)) with ((1 + r0)%Qc :: growth rs) in *.
  destruct t as [|t].
  - right. rewrite Hzero in Hlk. injection Hlk as <-.
    cbn [Qcumprod take]. split; [done|]. by rewrite idxmax_singleton.
  - left. pose proof (Hfirst 0%nat 0%Qc ltac:(lia) Hzero) as Hneg.
    apply lookup_lt_length in Hlk. rewrite Qdrawdown_length in Hlk.
    cbn [Qcumprod take].
    destruct (idxmax_finite (1 * (1 + r0))%Qc (take t (Qcumprod (1 * (1 + r0)) (growth rs))))
      as (p & c & Hidx & Hplk & _ & _).
    rewrite Hidx. exists d, p, (S t).
    split; [done|]. split; [by apply Qclt_le_weak|]. split; [done|].
    apply lookup_lt_length in Hplk. cbn [length] in Hplk. rewrite length_take in Hplk.
    cbn [length] in Hlk. unfold growth in Hlk. rewrite length_map in Hlk.
    cbn [length]. lia.
Qed.

(** Returns that are never negative leave no drawdown. *)
Lemma maximum_drawdown_no_losses (rs : list Qc) :
  rs <> [] ->
  Forall (fun r : Qc => (0 <= r)%Qc) rs ->
  PortfolioMetrics.maximum_drawdown Pd.LabelIndex (finite_array rs)
  = Ok (zero, Some 0%nat, 0%nat)
  /\ PortfolioMetrics.maximum_drawdown Pd.RangeIndex (finite_array rs)
     = Raise (ValueError "attempt to get argmax of an empty sequence").
Proof.
  intros Hne Hpos. destruct rs as [|r0 rs]; [done|].
  assert (Hrs : Forall (fun r : Qc => (-(1) < r)%Qc) (r0 :: rs)).
  { eapply Forall_impl; [exact Hpos|]. intros r Hr. cbn beta in *.
    eapply Qclt_le_trans; [|exact Hr]. done. }
  assert (Hgrow : Forall (fun f : Qc => (1 <= f)%Qc) (growth (r0 :: rs))).
  { unfold growth. apply Forall_map. eapply Forall_impl; [exact Hpos|].
    intros r Hr. cbn beta in *. clear -Hr. qc_as_q. lra. }
  destruct (maximum_drawdown_finite r0 rs Hrs) as (t & d & Hlk & _ & Hfirst & Heq).
  assert (Hflat : Qdrawdown None 1 (growth (r0 :: rs))
                  = replicate (length (growth (r0 :: rs))) 0%Qc)
    by by apply Qdrawdown_flat.
  rewrite Hflat in Hlk, Hfirst.
  apply lookup_replicate in Hlk as [-> Hlen].
  assert (Ht : t = 0%nat).
  { destruct t as [|t]; [done|]. exfalso.
    assert (Hlt : (0 < 0)%Qc).
    { apply (Hfirst 0%nat); [lia|]. apply lookup_replicate. split; [done|lia]. }
    by apply Qclt_not_eq in Hlt. }
  subst t. rewrite !Heq. rewrite !slice_to_finite_array.
  change (growth (r0 :: rs)) with ((1 + r0)%Qc :: growth rs).
  cbn [Qcumprod take]. by rewrite idxmax_singleton.
Qed.

(** X12.  [calmar_ratio] when no weighted return of the history is negative:
    the drawdown is zero and the ratio is plus infinity, whatever the expected
    return is; on a frame with the default integer index the call raises
    ValueError instead. *)
Theorem calmar_ratio_without_losses (weights mean_returns : Np.ndarray)
    (returns : Pd.DataFrame) (rs : list Qc) :
  rs <> [] ->
  Forall (fun r : Qc => (0 <= r)%Qc) rs ->
  PortfolioMetrics.calculate_portfolio_returns weights returns = finite_array rs ->
  PortfolioMetrics.calmar_ratio Pd.LabelIndex weights mean_returns returns = Ok PosInf
  /\ PortfolioMetrics.calmar_ratio Pd.RangeIndex weights mean_returns returns
     = Raise (ValueError "attempt to get argmax of an empty sequence").
Proof.
  intros Hne Hpos Hpr. unfold PortfolioMetrics.calculate_portfolio_returns in Hpr.
  destruct (maximum_drawdown_no_losses rs Hne Hpos) as [Hlabel Hrange].
  unfold PortfolioMetrics.calmar_ratio. rewrite Hpr, Hlabel, Hrange. done.
Qed.

(** The two risk measures on a non-empty finite return series. *)
Lemma risk_measures_finite (pr : list float64) (c : Qc) :
  pr <> [] -> all_finite pr = true ->
  (0 <= c)%Qc -> (c <= 1)%Qc ->
  exists var cvar : Qc,
    Np.percentile pr ((one - Finite c) * of_Z 100) = Ok (Finite var)
    /\ Pd.mean (Pd.select (fun r => r <=? Finite var) pr) = Finite cvar
    /\ (cvar <= var)%Qc.
Proof.
  intros Hpr Hfin Hc0 Hc1.
  change ((one - Finite c) * of_Z 100)
    with (Finite ((1 + - c) * Q2Qc (inject_Z 100))%Qc).
  set (qq := ((1 + - c) * Q2Qc (inject_Z 100))%Qc).
  assert (Hq : (0 <= qq)%Qc /\ (qq <= Q2Qc (inject_Z 100))%Qc).
  { subst qq. clear -Hc0 Hc1. qc_as_q.
    change (inject_Z 100) with (100 # 1)%Q. split; lra. }
  destruct Hq as [Hq0 Hq100].
  destruct (percentile_finite_lower pr qq Hfin Hpr Hq0 Hq100)
    as (var & x & Hvar & Hin & Hx).
  set (tail := List.filter (fun r => r <=? Finite var) pr).
  assert (Htail : tail <> []).
  { assert (Hmem : In (Finite x) tail).
    { apply filter_In. split; [done | by apply fleb_finite]. }
    intros Hnil. by rewrite Hnil in Hmem. }
  destruct (mean_le_bound tail var Htail) as (cvar & Hmean & Hsum & Hle).
  { by apply filter_all_finite. }
  { apply (filter_Forall (fun r => r <=? Finite var)). }
  exists var, cvar. by rewrite Hvar.
Qed.

(** X13.  [get_all_metrics] on a label-indexed history whose weighted
    returns are finite and above -100%: the call returns all eight metrics,
    none of its steps raises; the maximum drawdown lies in [-1, 0], the two
    risk measures at 95% are finite, and with no drawdown the Calmar ratio is
    plus infinity. *)
Theorem get_all_metrics_returns (weights mean_returns : Np.ndarray)
    (cov_matrix : Np.matrix) (returns : Pd.DataFrame) (risk_free_rate : float64)
    (rs : list Qc) :
  rs <> [] ->
  Forall (fun r : Qc => (-(1) < r)%Qc) rs ->
  PortfolioMetrics.calculate_portfolio_returns weights returns = finite_array rs ->
  exists (m : PortfolioMetrics.AllMetrics) (d var cvar : Qc),
    PortfolioMetrics.get_all_metrics Pd.LabelIndex weights mean_returns cov_matrix
      returns risk_free_rate = Ok m
    /\ PortfolioMetrics.Maximum_Drawdown m = Finite d
    /\ (-(1) <= d)%Qc /\ (d <= 0)%Qc
    /\ PortfolioMetrics.VaR_95 m = Finite var
    /\ PortfolioMetrics.CVaR_95 m = Finite cvar
    /\ (d = 0%Qc -> PortfolioMetrics.Calmar_Ratio m = PosInf).
Proof.
  intros Hne Hrs Hpr. destruct rs as [|r0 rs]; [done|].
  destruct (maximum_drawdown_label_finite r0 rs Hrs) as (t & p & d & Hlk & Heq & Hpt).
  destruct (Qdrawdown_lookup_range (r0 :: rs) t d Hrs Hlk) as (Hlo%Qclt_le_weak & Hhi & Hlen).
  destruct (risk_measures_finite (finite_array (r0 :: rs)) (Q2Qc (95 # 100)))
    as (var & cvar & Hvar & Hcvar & Hle);
    [done|apply all_finite_finite_array|done|done|].
  unfold PortfolioMetrics.get_all_metrics, PortfolioMetrics.calmar_ratio,
    PortfolioMetrics.conditional_value_at_risk, PortfolioMetrics.value_at_risk.
  rewrite Hpr. unfold PortfolioMetrics.calculate_portfolio_returns in Hpr.
  rewrite !Hpr, Heq.
  change (frac 95 100) with (Finite (Q2Qc (95 # 100))). rewrite Hvar.
  cbn [mbind result_bind mret result_ret fst]. rewrite Hcvar.
  destruct (Finite d =? zero) eqn:Hd0; cbn [mbind result_bind mret result_ret].
  - eexists _, d, var, cvar. split; [reflexivity|]. cbn. by repeat split.
  - eexists _, d, var, cvar. split; [reflexivity|]. cbn.
    repeat split; try done. intros ->.
    assert (Habs : (zero =? zero) = true) by by apply feqb_finite.
    unfold zero in Habs at 1. congruence.
Qed.

(** X14.  An empty history: [maximum_drawdown] raises the ValueError of
    [idxmin] for either kind of index, and so do [calmar_ratio] and
    [get_all_metrics] on a frame without rows, whatever the weights, the
    expected returns and the covariances are. *)
Theorem maximum_drawdown_empty_history (index : Pd.index_kind)
    (weights mean_returns : Np.ndarray) (cov_matrix : Np.matrix)
    (risk_free_rate : float64) :
  PortfolioMetrics.maximum_drawdown index []
  = Raise (ValueError "attempt to get argmin of an empty sequence")
  /\ PortfolioMetrics.calmar_ratio index weights mean_returns []
     = Raise (ValueError "attempt to get argmin of an empty sequence")
  /\ PortfolioMetrics.get_all_metrics index weights mean_returns cov_matrix []
       risk_free_rate
     = Raise (ValueError "attempt to get argmin of an empty sequence").
Proof. done. Qed.

Lemma gain_loss_gain_above_minus_one :
  Forall (fun r : Qc => (-(1) < r)%Qc) gain_loss_gain.
Proof. repeat constructor. Qed.

Lemma two_gains_not_negative : Forall (fun r : Qc => (0 <= r)%Qc) two_gains.
Proof. repeat constructor; by vm_compute. Qed.

Lemma maximum_drawdown_bounds_witness :
  gain_loss_gain <> [] /\
  exists (d : Qc) (peak trough : nat),
    PortfolioMetrics.maximum_drawdown Pd.LabelIndex (finite_array gain_loss_gain)
    = Ok (Finite d, Some peak, trough)
    /\ (-(1) <= d)%Qc /\ (d <= 0)%Qc
    /\ (peak <= trough)%nat /\ (trough < length gain_loss_gain)%nat.
Proof.
  assert (Hne : gain_loss_gain <> []) by discriminate.
  split; [exact Hne|].
  exact (maximum_drawdown_bounds gain_loss_gain Hne gain_loss_gain_above_minus_one).
Defined.

Lemma maximum_drawdown_first_trough_and_peak_witness :
  PortfolioMetrics.maximum_drawdown Pd.LabelIndex (finite_array gain_loss_gain)
  = Ok (frac (-1) 5, Some 0%nat, 1%nat)
  /\ drawdown_series (finite_array gain_loss_gain) !! 1%nat = Some (frac (-1) 5)
  /\ (forall (j : nat) (x : float64),
        drawdown_series (finite_array gain_loss_gain) !! j = Some x ->
        (frac (-1) 5 <=? x) = true /\ ((j < 1)%nat -> (frac (-1) 5 <? x) = true))
  /\ exists (peak : nat) (high : float64),
       Some 0%nat = Some peak
       /\ Pd.slice_to Pd.LabelIndex 1 (cumulative_returns (finite_array gain_loss_gain))
            !! peak = Some high
       /\ forall (j : nat) (x : float64),
            Pd.slice_to Pd.LabelIndex 1 (cumulative_returns (finite_array gain_loss_gain))
              !! j = Some x ->
            (x <=? high) = true /\ ((j < peak)%nat -> (x <? high) = true).
Proof.
  assert (Hrun : PortfolioMetrics.maximum_drawdown Pd.LabelIndex (finite_array gain_loss_gain)
                 = Ok (frac (-1) 5, Some 0%nat, 1%nat)) by compute_done.
  split; [exact Hrun|].
  exact (maximum_drawdown_first_trough_and_peak Pd.LabelIndex gain_loss_gain
           (frac (-1) 5) (Some 0%nat) 1%nat gain_loss_gain_above_minus_one Hrun).
Defined.

Lemma maximum_drawdown_default_index_witness :
  gain_loss_gain <> [] /\
  ((exists (d : Qc) (peak trough : nat),
      PortfolioMetrics.maximum_drawdown Pd.RangeIndex (finite_array gain_loss_gain)
      = Ok (Finite d, Some peak, trough)
      /\ (-(1) <= d)%Qc /\ (d < 0)%Qc
      /\ (peak < trough)%nat /\ (trough < length gain_loss_gain)%nat)
   \/ (PortfolioMetrics.maximum_drawdown Pd.RangeIndex (finite_array gain_loss_gain)
       = Raise (ValueError "attempt to get argmax of an empty sequence")
       /\ PortfolioMetrics.maximum_drawdown Pd.LabelIndex (finite_array gain_loss_gain)
          = Ok (zero, Some 0%nat, 0%nat))).
Proof.
  assert (Hne : gain_loss_gain <> []) by discriminate.
  split; [exact Hne|].
  exact (maximum_drawdown_default_index gain_loss_gain Hne gain_loss_gain_above_minus_one).
Defined.

Lemma calmar_ratio_without_losses_witness :
  two_gains <> [] /\
  PortfolioMetrics.calculate_portfolio_returns [one] two_gains_frame
  = finite_array two_gains /\
  PortfolioMetrics.calmar_ratio Pd.LabelIndex [one] [frac 1 10] two_gains_frame = Ok PosInf
  /\ PortfolioMetrics.calmar_ratio Pd.RangeIndex [one] [frac 1 10] two_gains_frame
     = Raise (ValueError "attempt to get argmax of an empty sequence").
Proof.
  assert (Hne : two_gains <> []) by discriminate.
  assert (Hpr : PortfolioMetrics.calculate_portfolio_returns [one] two_gains_frame
                = finite_array two_gains) by compute_done.
  split; [exact Hne|]. split; [exact Hpr|].
  exact (calmar_ratio_without_losses [one] [frac 1 10] two_gains_frame two_gains
           Hne two_gains_not_negative Hpr).
Defined.

Lemma get_all_metrics_returns_witness :
  gain_loss_gain <> [] /\
  PortfolioMetrics.calculate_portfolio_returns [one] gain_loss_gain_frame
  = finite_array gain_loss_gain /\
  exists (m : PortfolioMetrics.AllMetrics) (d var cvar : Qc),
    PortfolioMetrics.get_all_metrics Pd.LabelIndex [one] [frac 1 10] [[frac 1 25]]
      gain_loss_gain_frame (frac 1 50) = Ok m
    /\ PortfolioMetrics.Maximum_Drawdown m = Finite d
    /\ (-(1) <= d)%Qc /\ (d <= 0)%Qc
    /\ PortfolioMetrics.VaR_95 m = Finite var
    /\ PortfolioMetrics.CVaR_95 m = Finite cvar
    /\ (d = 0%Qc -> PortfolioMetrics.Calmar_Ratio m = PosInf).
Proof.
  assert (Hne : gain_loss_gain <> []) by discriminate.
  assert (Hpr : PortfolioMetrics.calculate_portfolio_returns [one] gain_loss_gain_frame
                = finite_array gain_loss_gain) by compute_done.
  split; [exact Hne|]. split; [exact Hpr|].
  exact (get_all_metrics_returns [one] [frac 1 10] [[frac 1 25]] gain_loss_gain_frame
           (frac 1 50) gain_loss_gain Hne gain_loss_gain_above_minus_one Hpr).
Defined.

End Drawdown_facts.

(** ** Information ratio *)

Section Information_ratio_facts.

Lemma sum_zeros {A : Type} (a : list A) :
  Qsum (map (fun _ => 0%Qc) a) = 0%Qc.
Proof.
  induction a as [|x a IH]; [done|]. cbn [map Qsum foldr].
  fold (Qsum (map (fun _ : A => 0%Qc) a)). rewrite IH. ring.
Qed.

(** X15.  [information_ratio] of a portfolio against itself, or against any
    benchmark with the same finite returns, over at least two periods: the
    tracking error is exactly zero and the result is plus infinity. *)
Theorem information_ratio_same_series (returns : list Qc) :
  (2 <= length returns)%nat ->
  PortfolioMetrics.information_ratio (finite_array returns) (finite_array returns) = PosInf.
Proof.
  intros Hlen. unfold PortfolioMetrics.information_ratio.
  rewrite sub_finite_array, zip_minus_self.
  set (zs := map (fun _ : Qc => 0%Qc) returns).
  assert (Hzlen : length zs = length returns) by apply length_map.
  assert (Hstd : Pd.std (finite_array zs) = zero).
  { unfold Pd.std. rewrite dropna_finite by apply all_finite_finite_array.
    rewrite finite_array_length, Hzlen.
    destruct (length returns <=? 1)%nat eqn:Hle; [apply Nat.leb_le in Hle; lia|].
    rewrite sum_finite_array. subst zs. rewrite sum_zeros.
    assert (Hn : Qc_of_nat (length returns) <> 0%Qc) by (apply Qc_of_nat_nonzero; lia).
    assert (Hn1 : Qc_of_nat (length returns - 1) <> 0%Qc) by (apply Qc_of_nat_nonzero; lia).
    assert (Havg : Finite 0 / of_nat (length returns) = Finite 0).
    { unfold of_nat, fdiv. destruct (Qc_eq_dec (Qc_of_nat (length returns)) 0); [done|].
      apply (f_equal Finite). unfold Qcdiv. ring. }
    rewrite Havg.
    assert (Hsqr : map (fun x => (Finite 0 - x) * (Finite 0 - x))
                     (finite_array (map (fun _ : Qc => 0%Qc) returns))
                   = finite_array (map (fun _ : Qc => 0%Qc) returns)).
    { unfold finite_array. rewrite !map_map. apply map_ext. intros _.
      cbn [fsub fopp fadd fmul]. apply (f_equal Finite). ring. }
    rewrite Hsqr, sum_finite_array, sum_zeros.
    assert (Hvar : Finite 0 / of_nat (length returns - 1) = Finite 0).
    { unfold of_nat, fdiv. destruct (Qc_eq_dec (Qc_of_nat (length returns - 1)) 0); [done|].
      apply (f_equal Finite). unfold Qcdiv. ring. }
    rewrite Hvar. done. }
  rewrite Hstd.
  assert (Hte : (zero * fsqrt (of_Z 252) =? zero) = true).
  { unfold of_Z, fsqrt. destruct (Qclt_le_dec (Q2Qc (inject_Z 252)) 0); [done|].
    cbn [zero fmul]. apply feqb_finite. ring. }
  by rewrite Hte.
Qed.

Lemma information_ratio_same_series_witness :
  (2 <= length two_gains)%nat /\
  PortfolioMetrics.information_ratio (finite_array two_gains) (finite_array two_gains) = PosInf.
Proof.
  assert (Hlen : (2 <= length two_gains)%nat) by (vm_compute; lia).
  split; [exact Hlen|]. exact (information_ratio_same_series two_gains Hlen).
Defined.

(** X16.  [information_ratio] with fewer than two periods in which both
    returns are known: the tracking error is NaN, the guard
    [tracking_error == 0] does not hold, and the result is NaN. *)
Theorem information_ratio_short_history (portfolio_returns benchmark_returns : Pd.Series) :
  (length (Pd.dropna (Np.sub portfolio_returns benchmark_returns)) <= 1)%nat ->
  PortfolioMetrics.information_ratio portfolio_returns benchmark_returns = NaN.
Proof.
  intros Hlen. unfold PortfolioMetrics.information_ratio, Pd.std.
  apply Nat.leb_le in Hlen. rewrite Hlen.
  rewrite fmul_nan_l, feqb_nan_l. apply fdiv_nan_r.
Qed.

Lemma information_ratio_short_history_witness :
  (length (Pd.dropna (Np.sub [frac 1 100] [frac 1 50])) <= 1)%nat /\
  PortfolioMetrics.information_ratio [frac 1 100] [frac 1 50] = NaN.
Proof.
  assert (Hlen : (length (Pd.dropna (Np.sub [frac 1 100] [frac 1 50])) <= 1)%nat)
    by (vm_compute; lia).
  split; [exact Hlen|].
  exact (information_ratio_short_history [frac 1 100] [frac 1 50] Hlen).
Defined.

End Information_ratio_facts.

(** ** The simulated paths and their statistics *)

Section Simulation_facts.

Import MonteCarloSimulator.

(** A loop over [a, a + n) keeps an invariant on the loop state and the
    generator state, when every iteration keeps it and does not raise. *)
Lemma for_each_seq_state_inv {St : Type} (Inv : nat -> St -> RandomState -> Prop)
    (body : nat -> St -> Rand St) (n : nat) :
  forall (a : nat) (s : St) (st : RandomState),
    Inv a s st ->
    (forall (i : nat) (s : St) (st : RandomState),
       (a <= i < a + n)%nat -> Inv i s st ->
       exists (s' : St) (st' : RandomState),
         body i s st = Ok (s', st') /\ Inv (S i) s' st') ->
    exists (s' : St) (st' : RandomState),
      for_each (seq a n) body s st = Ok (s', st') /\ Inv (a + n)%nat s' st'.
Proof.
  induction n as [|n IH]; intros a s st Hinv Hbody.
  - exists s, st. rewrite Nat.add_0_r. by split.
  - assert (Ha : (a <= a < a + S n)%nat) by lia.
    destruct (Hbody a s st Ha Hinv) as (s1 & st1 & Hrun & Hinv1).
    destruct (IH (S a) s1 st1 Hinv1) as (s2 & st2 & Hrest & Hinv2).
    { intros i s' st' Hi. apply Hbody. lia. }
    exists s2, st2. split.
    + cbn [seq for_each]. unfold mbind, Rand_bind at 1. by rewrite Hrun.
    + by replace (a + S n)%nat with (S a + n)%nat by lia.
Qed.

Lemma simulate_year_state (mu variance contribution : float64) (sim year : nat)
    (value : float64) (path_matrix : Np.matrix) (st : RandomState) :
  let value' := value * (one + (mu + fsqrt variance * Finite (gauss st (position st))))
                + contribution in
  simulate_year mu (fsqrt variance) contribution sim year (value, path_matrix) st
  = Ok ((value', alter (fun row => <[year := value']> row) sim path_matrix),
        {| gauss := gauss st; position := S (position st) |}).
Proof. unfold simulate_year, mbind, Rand_bind. by rewrite normal_ok. Qed.

(** The year loop of trial [sim] takes one deviate per year, in order, and
    writes the recurrence [value * (1 + return) + contribution] along row
    [sim]; the other rows are untouched. *)
Lemma year_loop_recurrence (mu variance contribution initial_investment : float64)
    (years sim : nat) (P0 : Np.matrix) (row0 : list float64) (st : RandomState) :
  P0 !! sim = Some row0 ->
  length row0 = (years + 1)%nat ->
  row0 !! 0%nat = Some initial_investment ->
  exists (value : float64) (P : Np.matrix) (st' : RandomState) (row : list float64),
    for_each (seq 1 years) (simulate_year mu (fsqrt variance) contribution sim)
      (initial_investment, P0) st = Ok ((value, P), st') /\
    gauss st' = gauss st /\
    position st' = (position st + years)%nat /\
    length P = length P0 /\
    (forall j : nat, j <> sim -> P !! j = P0 !! j) /\
    P !! sim = Some row /\
    length row = (years + 1)%nat /\
    row !! 0%nat = Some initial_investment /\
    row !! years = Some value /\
    (forall (y : nat) (prev : float64),
       (1 <= y <= years)%nat -> row !! (y - 1)%nat = Some prev ->
       row !! y = Some (prev * (one + (mu + fsqrt variance
                                         * Finite (gauss st (position st + (y - 1))%nat)))
                        + contribution)).
Proof.
  intros Hrow0 Hlen0 Hcol0.
  set (Inv := fun (y : nat) (s : float64 * Np.matrix) (st1 : RandomState) =>
    gauss st1 = gauss st /\
    position st1 = (position st + (y - 1))%nat /\
    length s.2 = length P0 /\
    (forall j : nat, j <> sim -> s.2 !! j = P0 !! j) /\
    exists row : list float64,
      s.2 !! sim = Some row /\ length row = (years + 1)%nat /\
      row !! 0%nat = Some initial_investment /\ row !! (y - 1)%nat = Some s.1 /\
      forall (y' : nat) (prev : float64),
        (1 <= y' < y)%nat -> row !! (y' - 1)%nat = Some prev ->
        row !! y' = Some (prev * (one + (mu + fsqrt variance
                                           * Finite (gauss st (position st + (y' - 1))%nat)))
                          + contribution)).
  destruct (for_each_seq_state_inv Inv
              (simulate_year mu (fsqrt variance) contribution sim) years
              1%nat (initial_investment, P0) st)
    as ([value P] & st' & Hrun & Hg & Hp & HlenP & Hframe & row & Hrow & Hlen & Hcol
        & Hlast & Hrec).
  - unfold Inv. cbn [fst snd]. split; [done|]. split; [lia|]. split; [done|].
    split; [done|]. exists row0. split; [done|]. split; [done|]. split; [done|].
    split; [done|]. intros y' prev Hy'. lia.
  - intros i [v P] st1 Hi (Hg & Hp & HlenP & Hframe & row & Hrow & Hlen & Hcol & Hlast & Hrec).
    cbn [fst snd] in *.
    pose proof (simulate_year_state mu variance contribution sim i v P st1) as Hrun.
    cbv zeta in Hrun.
    set (v' := v * (one + (mu + fsqrt variance * Finite (gauss st1 (position st1))))
               + contribution) in *.
    assert (Hv' : v' = v * (one + (mu + fsqrt variance * Finite (gauss st1 (position st1))))
                       + contribution) by done.
    clearbody v'.
    eexists _, _. split; [exact Hrun|]. unfold Inv. cbn [fst snd gauss position].
    split; [done|]. split; [lia|].
    split; [by rewrite length_alter|]. split.
    + intros j Hj. rewrite list_lookup_alter_ne by done. by apply Hframe.
    + exists (<[i := v']> row). split; [by rewrite list_lookup_alter_eq, Hrow|].
      split; [by rewrite length_insert|]. split.
      * rewrite list_lookup_insert_ne by lia. done.
      * split; [replace (S i - 1)%nat with i by lia; apply list_lookup_insert_eq; lia|].
        intros y' prev Hy' Hprev.
        rewrite list_lookup_insert_ne in Hprev by lia.
        destruct (decide (y' = i)) as [->|Hne].
        -- rewrite Hlast in Hprev. injection Hprev as <-.
           rewrite list_lookup_insert_eq by lia. f_equal. rewrite Hv'.
           rewrite Hg, Hp. done.
        -- rewrite list_lookup_insert_ne by lia. apply Hrec; [lia|done].
  - exists value, P, st', row. cbn [fst snd] in *.
    replace (1 + years - 1)%nat with years in * by lia.
    split; [done|]. split; [done|]. split; [done|]. split; [done|]. split; [done|].
    split; [done|]. split; [done|]. split; [done|]. split; [done|].
    intros y prev Hy. apply Hrec. lia.
Qed.

(** The trial loop: trial [sim] takes the deviates [sim * years] to
    [sim * years + years - 1] after the starting position, its row follows
    the recurrence, and its final value is the last entry of the row. *)
Lemma trial_loop_run (self : t) (weights : Np.ndarray)
    (initial_investment : float64) (time_horizon_years n_simulations : nat)
    (annual_contribution : float64) (st : RandomState) :
  exists (F : Np.ndarray) (P : Np.matrix) (st' : RandomState),
    trial_loop self weights initial_investment time_horizon_years n_simulations
      annual_contribution st = Ok ((F, P), st') /\
    gauss st' = gauss st /\
    position st' = (position st + n_simulations * time_horizon_years)%nat /\
    length F = n_simulations /\
    length P = n_simulations /\
    forall sim : nat, (sim < n_simulations)%nat ->
      exists (row : list float64) (final : float64),
        P !! sim = Some row /\
        F !! sim = Some final /\
        length row = (time_horizon_years + 1)%nat /\
        row !! 0%nat = Some initial_investment /\
        row !! time_horizon_years = Some final /\
        forall (year : nat) (prev : float64),
          (1 <= year <= time_horizon_years)%nat ->
          row !! (year - 1)%nat = Some prev ->
          row !! year
          = Some (prev * (one + drawn_return self weights st time_horizon_years sim year)
                  + annual_contribution).
Proof.
  set (mu := Np.dot weights (mean_returns self)).
  set (variance := Np.dot weights (Np.matvec (cov_matrix self) weights)).
  set (Inv := fun (k : nat) (s : Np.ndarray * Np.matrix) (st1 : RandomState) =>
    gauss st1 = gauss st /\
    position st1 = (position st + k * time_horizon_years)%nat /\
    length s.1 = n_simulations /\ length s.2 = n_simulations /\
    (forall (j : nat) (row : list float64), s.2 !! j = Some row ->
       length row = (time_horizon_years + 1)%nat /\
       row !! 0%nat = Some initial_investment) /\
    (forall j : nat, (j < k)%nat ->
       exists (row : list float64) (final : float64),
         s.2 !! j = Some row /\ s.1 !! j = Some final /\
         row !! time_horizon_years = Some final /\
         forall (year : nat) (prev : float64),
           (1 <= year <= time_horizon_years)%nat ->
           row !! (year - 1)%nat = Some prev ->
           row !! year
           = Some (prev * (one + drawn_return self weights st time_horizon_years j year)
                   + annual_contribution))).
  destruct (for_each_seq_state_inv Inv
              (simulate_trial mu (fsqrt variance) initial_investment
                 annual_contribution time_horizon_years)
              n_simulations 0%nat
              (replicate n_simulations zero,
               initial_paths initial_investment time_horizon_years n_simulations) st)
    as ([F P] & st' & Hrun & Hg & Hp & HlenF & HlenP & Hrows & Hdone).
  - unfold Inv. cbn [fst snd]. split; [done|]. split; [lia|].
    split; [by rewrite length_replicate|].
    split; [apply initial_paths_length|]. split.
    + intros j row Hrow. by apply initial_paths_lookup in Hrow.
    + intros j Hj. lia.
  - intros k [F P] st1 Hk (Hg & Hp & HlenF & HlenP & Hrows & Hdone). cbn [fst snd] in *.
    destruct (lookup_lt_is_Some_2 P k) as [row0 Hrow0]; [lia|].
    destruct (Hrows k row0 Hrow0) as [Hlen0 Hcol0].
    destruct (year_loop_recurrence mu variance annual_contribution initial_investment
                time_horizon_years k P row0 st1 Hrow0 Hlen0 Hcol0)
      as (v & P' & st2 & row & Hloop & Hg2 & Hp2 & HlenP' & Hframe & Hrow & Hlen & Hcol
          & Hlast & Hrec).
    exists (<[k := v]> F, P'), st2. split.
    + unfold simulate_trial, mbind, Rand_bind. by rewrite Hloop.
    + unfold Inv. cbn [fst snd].
      split; [congruence|]. split; [lia|].
      split; [by rewrite length_insert|]. split; [congruence|]. split.
      * intros j rowj Hrowj. destruct (decide (j = k)) as [->|Hne].
        -- split; congruence.
        -- rewrite Hframe in Hrowj by done. by apply Hrows in Hrowj.
      * intros j Hj. destruct (decide (j = k)) as [->|Hne].
        -- exists row, v. split; [done|]. split; [apply list_lookup_insert_eq; lia|].
           split; [done|]. intros year prev Hyear Hprev.
           rewrite (Hrec year prev Hyear Hprev). unfold drawn_return.
           fold mu. fold variance. by rewrite Hg, Hp.
        -- destruct (Hdone j) as (rowj & vj & Hrj & Hfj & Hlj & Hrecj); [lia|].
           exists rowj, vj. split; [by rewrite Hframe|].
           split; [by rewrite list_lookup_insert_ne|done].
  - exists F, P, st'. cbn [fst snd] in *. split; [exact Hrun|].
    split; [done|]. split; [done|]. split; [done|]. split; [done|].
    intros sim Hsim. destruct (Hdone sim Hsim) as (row & final & Hr & Hf & Hl & Hrec).
    exists row, final. destruct (Hrows sim row Hr) as [Hlen Hcol]. by repeat split.
Qed.

(** X17.  Every simulation call with at least one trial returns and leaves
    the generator advanced by one deviate per trial and year, its stream
    unchanged.  Along the path of each trial, the value of a year is the
    value of the year before times one plus the return drawn for that trial
    and year, plus the contribution; the draws are taken trial after trial,
    year after year. *)
Theorem simulate_portfolio_recurrence (self : t) (weights : Np.ndarray)
    (initial_investment : float64) (time_horizon_years n_simulations : nat)
    (annual_contribution : float64) (st : RandomState) :
  (1 <= n_simulations)%nat ->
  exists (r : SimulationResult) (st' : RandomState),
    simulate_portfolio self weights initial_investment time_horizon_years
      n_simulations annual_contribution st = Ok (r, st') /\
    gauss st' = gauss st /\
    position st' = (position st + n_simulations * time_horizon_years)%nat /\
    forall (sim year : nat) (row : list float64) (prev : float64),
      (sim < n_simulations)%nat ->
      (1 <= year <= time_horizon_years)%nat ->
      paths r !! sim = Some row ->
      row !! (year - 1)%nat = Some prev ->
      row !! year
      = Some (prev * (one + drawn_return self weights st time_horizon_years sim year)
              + annual_contribution).
Proof.
  intros Htrials.
  destruct (trial_loop_run self weights initial_investment time_horizon_years
              n_simulations annual_contribution st)
    as (F & P & st' & Hrun & Hg & Hp & HlenF & _ & Hrows).
  destruct (simulate_portfolio_after_loop self weights initial_investment
              time_horizon_years n_simulations annual_contribution st st' F P Hrun
              (nonempty_of_length F n_simulations HlenF Htrials))
    as (r & Hsim & _ & HP).
  exists r, st'. split; [done|]. split; [done|]. split; [done|].
  intros sim year row prev Hs Hy Hrow Hprev. rewrite HP in Hrow.
  destruct (Hrows sim Hs) as (row' & final & Hr & _ & _ & _ & _ & Hrec).
  rewrite Hr in Hrow. injection Hrow as <-. by apply Hrec.
Qed.

Lemma simulate_portfolio_recurrence_witness :
  exists (r : SimulationResult) (st' : RandomState),
    simulate_portfolio one_asset_market [one] (of_Z 1000) 5 100 (of_Z 50)
      sample_stream = Ok (r, st') /\
    gauss st' = gauss sample_stream /\
    position st' = (position sample_stream + 100 * 5)%nat /\
    forall (sim year : nat) (row : list float64) (prev : float64),
      (sim < 100)%nat ->
      (1 <= year <= 5)%nat ->
      paths r !! sim = Some row ->
      row !! (year - 1)%nat = Some prev ->
      row !! year
      = Some (prev * (one + drawn_return one_asset_market [one] sample_stream 5 sim year)
              + of_Z 50).
Proof.
  apply (simulate_portfolio_recurrence one_asset_market [one] (of_Z 1000) 5 100
           (of_Z 50) sample_stream).
  lia.
Defined.

(** The statistics that [simulate_portfolio] reads off the final values. *)
Lemma simulate_portfolio_statistics (self : t) (weights : Np.ndarray)
    (initial_investment : float64) (time_horizon_years n_simulations : nat)
    (annual_contribution : float64) (st st' : RandomState)
    (F : Np.ndarray) (P : Np.matrix) (p5 p10 p25 p50 p75 p90 : float64) :
  trial_loop self weights initial_investment time_horizon_years n_simulations
    annual_contribution st = Ok ((F, P), st') ->
  Np.percentile F (of_Z 5) = Ok p5 ->
  Np.percentile F (of_Z 10) = Ok p10 ->
  Np.percentile F (of_Z 25) = Ok p25 ->
  Np.percentile F (of_Z 50) = Ok p50 ->
  Np.percentile F (of_Z 75) = Ok p75 ->
  Np.percentile F (of_Z 90) = Ok p90 ->
  exists r : SimulationResult,
    simulate_portfolio self weights initial_investment time_horizon_years
      n_simulations annual_contribution st = Ok (r, st') /\
    final_values r = F /\
    percentiles r = [ ("10th"%string, p10); ("25th"%string, p25); ("50th"%string, p50);
                      ("75th"%string, p75); ("90th"%string, p90) ] /\
    var_95 r = p5 /\
    cvar_95 r = Np.mean (List.filter (fun v => v <=? p5) F) /\
    expected_value r = Np.mean F /\
    prob_loss r = of_nat (length (List.filter (fun v => v <? initial_investment) F))
                  / of_nat n_simulations.
Proof.
  intros Hloop H5 H10 H25 H50 H75 H90. unfold simulate_portfolio.
  cbv zeta. unfold mbind, Rand_bind, lift. cbv beta.
  match goal with
  | |- context [for_each ?idx ?body ?s st] =>
      change (for_each idx body s st)
        with (trial_loop self weights initial_investment time_horizon_years
                n_simulations annual_contribution st)
  end.
  rewrite Hloop, H10, H25, H50, H75, H90, H5.
  eexists. split; [reflexivity|]. by repeat split.
Qed.

(** With finite parameters every value along a path is finite. *)
Lemma path_values_finite (mu sd v0 c : Qc) (draw : nat -> Qc) (years : nat)
    (row : list float64) :
  length row = (years + 1)%nat ->
  row !! 0%nat = Some (Finite v0) ->
  (forall (year : nat) (prev : float64),
     (1 <= year <= years)%nat -> row !! (year - 1)%nat = Some prev ->
     row !! year = Some (prev * (one + (Finite mu + Finite sd * Finite (draw year)))
                         + Finite c)) ->
  forall year : nat, (year <= years)%nat -> exists q : Qc, row !! year = Some (Finite q).
Proof.
  intros Hlen H0 Hrec. induction year as [|year IH]; intros Hy; [by exists v0|].
  destruct IH as [q Hq]; [lia|].
  rewrite (Hrec (S year) (Finite q)); [by eexists|lia|].
  by replace (S year - 1)%nat with year by lia.
Qed.

Lemma all_finite_lookup (a : list float64) :
  (forall i : nat, (i < length a)%nat -> exists q : Qc, a !! i = Some (Finite q)) ->
  all_finite a = true.
Proof.
  intros Hall. apply all_finite_Forall. apply Forall_lookup. intros i x Hx.
  destruct (Hall i) as [q Hq]; [by eapply lookup_lt_length|].
  rewrite Hq in Hx. injection Hx as <-. by exists q.
Qed.

Lemma Qc_of_nat_le (k n : nat) : (k <= n)%nat -> (Qc_of_nat k <= Qc_of_nat n)%Qc.
Proof.
  intros Hkn. unfold Qcle. rewrite !Qc_of_nat_Q. rewrite <- Zle_Qle. lia.
Qed.

(** A share [k / n] of [n >= 1] trials lies in [0, 1]. *)
Lemma share_in_unit_interval (k n : nat) :
  (k <= n)%nat -> (1 <= n)%nat ->
  exists q : Qc, of_nat k / of_nat n = Finite q /\ (0 <= q)%Qc /\ (q <= 1)%Qc.
Proof.
  intros Hkn Hn. pose proof (Qc_of_nat_nonzero n Hn) as Hnz.
  exists (Qc_of_nat k / Qc_of_nat n)%Qc. split.
  { unfold of_nat, fdiv. by destruct (Qc_eq_dec (Qc_of_nat n) 0). }
  assert (Hpos : (0 < Qc_of_nat n)%Qc).
  { pose proof (Qc_of_nat_le 0 n ltac:(lia)) as Hcase.
    apply Qcle_lt_or_eq in Hcase as [Hlt|Heq]; [exact Hlt|]. by rewrite <- Heq in Hnz. }
  split.
  - apply Qcnot_lt_le. intros Hneg. apply Qc_lt_div_iff in Hneg; [|done].
    replace (0 * Qc_of_nat n)%Qc with 0%Qc in Hneg by ring.
    apply Qclt_not_le in Hneg. apply Hneg. apply (Qc_of_nat_le 0 k). lia.
  - apply Qcnot_lt_le. intros Hbig. apply Qc_div_lt_iff in Hbig; [|done].
    replace (1 * Qc_of_nat n)%Qc with (Qc_of_nat n) in Hbig by ring.
    apply Qclt_not_le in Hbig. apply Hbig. by apply Qc_of_nat_le.
Qed.

(** With finite parameters the final values of the trials are finite. *)
Lemma trial_loop_finite (self : t) (weights : Np.ndarray)
    (mu sd initial_investment annual_contribution : Qc)
    (time_horizon_years n_simulations : nat) (st st' : RandomState)
    (F : Np.ndarray) (P : Np.matrix) :
  Np.dot weights (mean_returns self) = Finite mu ->
  fsqrt (Np.dot weights (Np.matvec (cov_matrix self) weights)) = Finite sd ->
  trial_loop self weights (Finite initial_investment) time_horizon_years n_simulations
    (Finite annual_contribution) st = Ok ((F, P), st') ->
  all_finite F = true /\ length F = n_simulations.
Proof.
  intros Hmu Hsd Hloop.
  destruct (trial_loop_run self weights (Finite initial_investment) time_horizon_years
              n_simulations (Finite annual_contribution) st)
    as (F' & P' & st'' & Hrun & _ & _ & HlenF & _ & Hrows).
  rewrite Hloop in Hrun. injection Hrun as <- <- <-.
  split; [|done].
  apply all_finite_lookup. intros sim Hsim. rewrite HlenF in Hsim.
  destruct (Hrows sim Hsim) as (row & final & _ & Hf & Hlen & Hcol & Hlast & Hrec).
  destruct (path_values_finite mu sd initial_investment annual_contribution
              (fun year => gauss st (position st + sim * time_horizon_years + (year - 1))%nat)
              time_horizon_years row Hlen Hcol) with (year := time_horizon_years)
    as [q Hq]; [|lia|].
  - intros year prev Hyear Hprev. rewrite (Hrec year prev Hyear Hprev).
    unfold drawn_return. by rewrite Hmu, Hsd.
  - rewrite Hlast in Hq. injection Hq as ->. by exists q.
Qed.

Lemma mean_nonempty (l : list float64) :
  l <> [] -> Np.mean l = Np.sum l / of_nat (length l).
Proof. by destruct l. Qed.

(** X18.  With a finite expected return, a finite standard deviation, a
    finite investment and contribution and at least one trial, all final
    values are finite and so are the statistics; the percentiles are ordered,
    VaR (5th percentile) <= 10th <= 25th <= 50th <= 75th <= 90th percentile,
    and the probability of loss lies in [0, 1]. *)
Theorem simulate_portfolio_statistics_ordered (self : t) (weights : Np.ndarray)
    (mu sd initial_investment annual_contribution : Qc)
    (time_horizon_years n_simulations : nat) (st : RandomState) :
  Np.dot weights (mean_returns self) = Finite mu ->
  fsqrt (Np.dot weights (Np.matvec (cov_matrix self) weights)) = Finite sd ->
  (1 <= n_simulations)%nat ->
  exists (r : SimulationResult) (st' : RandomState)
         (cvar var p10 p25 p50 p75 p90 loss : Qc),
    simulate_portfolio self weights (Finite initial_investment) time_horizon_years
      n_simulations (Finite annual_contribution) st = Ok (r, st') /\
    all_finite (final_values r) = true /\
    percentiles r = [ ("10th"%string, Finite p10); ("25th"%string, Finite p25);
                      ("50th"%string, Finite p50); ("75th"%string, Finite p75);
                      ("90th"%string, Finite p90) ] /\
    var_95 r = Finite var /\
    cvar_95 r = Finite cvar /\
    prob_loss r = Finite loss /\
    (var <= p10)%Qc /\ (p10 <= p25)%Qc /\ (p25 <= p50)%Qc /\
    (p50 <= p75)%Qc /\ (p75 <= p90)%Qc /\
    (0 <= loss)%Qc /\ (loss <= 1)%Qc.
Proof.
  intros Hmu Hsd Hn.
  destruct (trial_loop_run self weights (Finite initial_investment) time_horizon_years
              n_simulations (Finite annual_contribution) st)
    as (F & P & st' & Hrun & _).
  destruct (trial_loop_finite self weights mu sd initial_investment annual_contribution
              time_horizon_years n_simulations st st' F P Hmu Hsd Hrun) as [Hfin HlenF].
  assert (Hne : F <> []) by (intros ->; cbn in HlenF; lia).
  destruct (percentile_monotone F (Q2Qc (inject_Z 5)) (Q2Qc (inject_Z 10)) Hfin Hne)
    as (v5 & v10 & H5 & H10 & Hle1); [by vm_compute..|].
  destruct (percentile_monotone F (Q2Qc (inject_Z 10)) (Q2Qc (inject_Z 25)) Hfin Hne)
    as (v10' & v25 & H10' & H25 & Hle2); [by vm_compute..|].
  rewrite H10 in H10'. injection H10' as <-.
  destruct (percentile_monotone F (Q2Qc (inject_Z 25)) (Q2Qc (inject_Z 50)) Hfin Hne)
    as (v25' & v50 & H25' & H50 & Hle3); [by vm_compute..|].
  rewrite H25 in H25'. injection H25' as <-.
  destruct (percentile_monotone F (Q2Qc (inject_Z 50)) (Q2Qc (inject_Z 75)) Hfin Hne)
    as (v50' & v75 & H50' & H75 & Hle4); [by vm_compute..|].
  rewrite H50 in H50'. injection H50' as <-.
  destruct (percentile_monotone F (Q2Qc (inject_Z 75)) (Q2Qc (inject_Z 90)) Hfin Hne)
    as (v75' & v90 & H75' & H90 & Hle5); [by vm_compute..|].
  rewrite H75 in H75'. injection H75' as <-.
  destruct (percentile_finite_lower F (Q2Qc (inject_Z 5)) Hfin Hne)
    as (v5' & x & H5' & Hin & Hx); [by vm_compute..|].
  rewrite H5 in H5'. injection H5' as <-.
  set (tail := List.filter (fun v => v <=? Finite v5) F).
  assert (Htail : tail <> []).
  { assert (Hmem : In (Finite x) tail).
    { apply filter_In. split; [done | by apply fleb_finite]. }
    intros Hnil. by rewrite Hnil in Hmem. }
  destruct (mean_le_bound tail v5 Htail) as (cvar & _ & Hsum & Hle0).
  { by apply filter_all_finite. }
  { apply (filter_Forall (fun r => r <=? Finite v5)). }
  destruct (share_in_unit_interval
              (length (List.filter (fun v => v <? Finite initial_investment) F))
              n_simulations) as (loss & Hloss & Hloss0 & Hloss1); [|done|].
  { rewrite <- HlenF. apply filter_length_le. }
  destruct (simulate_portfolio_statistics self weights (Finite initial_investment)
              time_horizon_years n_simulations (Finite annual_contribution) st st' F P
              (Finite v5) (Finite v10) (Finite v25) (Finite v50) (Finite v75) (Finite v90)
              Hrun H5 H10 H25 H50 H75 H90)
    as (r & Hsim & HF & Hper & Hvar & Hcvar & _ & Hprob).
  exists r, st', cvar, v5, v10, v25, v50, v75, v90, loss.
  split; [done|]. split; [by rewrite HF|]. split; [done|]. split; [done|].
  split; [by rewrite Hcvar, mean_nonempty|]. split; [by rewrite Hprob|].
  by repeat split.
Qed.

Lemma simulate_portfolio_statistics_ordered_witness :
  Np.dot [one] (mean_returns one_asset_market) = Finite (Q2Qc (1 # 10)) /\
  fsqrt (Np.dot [one] (Np.matvec (cov_matrix one_asset_market) [one]))
  = Finite (Q2Qc (1 # 5)) /\
  exists (r : SimulationResult) (st' : RandomState)
         (cvar var p10 p25 p50 p75 p90 loss : Qc),
    simulate_portfolio one_asset_market [one] (Finite (Q2Qc 1000)) 5 100
      (Finite (Q2Qc 50)) sample_stream = Ok (r, st') /\
    all_finite (final_values r) = true /\
    percentiles r = [ ("10th"%string, Finite p10); ("25th"%string, Finite p25);
                      ("50th"%string, Finite p50); ("75th"%string, Finite p75);
                      ("90th"%string, Finite p90) ] /\
    var_95 r = Finite var /\
    cvar_95 r = Finite cvar /\
    prob_loss r = Finite loss /\
    (var <= p10)%Qc /\ (p10 <= p25)%Qc /\ (p25 <= p50)%Qc /\
    (p50 <= p75)%Qc /\ (p75 <= p90)%Qc /\
    (0 <= loss)%Qc /\ (loss <= 1)%Qc.
Proof.
  assert (Hmu : Np.dot [one] (mean_returns one_asset_market) = Finite (Q2Qc (1 # 10)))
    by compute_done.
  assert (Hsd : fsqrt (Np.dot [one] (Np.matvec (cov_matrix one_asset_market) [one]))
                = Finite (Q2Qc (1 # 5))) by compute_done.
  split; [exact Hmu|]. split; [exact Hsd|].
  apply (simulate_portfolio_statistics_ordered one_asset_market [one]
           (Q2Qc (1 # 10)) (Q2Qc (1 # 5)) (Q2Qc 1000) (Q2Qc 50) 5 100 sample_stream
           Hmu Hsd).
  lia.
Defined.

End Simulation_facts.

(** ** Starting point and efficient frontier *)

Section Frontier_facts.

Import PortfolioOptimizer.

Lemma Qsum_replicate (n : nat) (m : Qc) : Qsum (replicate n m) = (Qc_of_nat n * m)%Qc.
Proof.
  induction n as [|n IH].
  - change (0 = 0 * m)%Qc. ring.
  - cbn [replicate Qsum foldr]. fold (Qsum (replicate n m)).
    rewrite IH, Qc_of_nat_succ. ring.
Qed.

Lemma map_replicate {A B : Type} (f : A -> B) (n : nat) (x : A) :
  map f (replicate n x) = replicate n (f x).
Proof. induction n as [|n IH]; [done|]. cbn. by rewrite IH. Qed.

Lemma finite_array_replicate (n : nat) (m : Qc) :
  replicate n (Finite m) = finite_array (replicate n m).
Proof. induction n as [|n IH]; [done|]. cbn. by rewrite IH. Qed.

(** X19.  The starting point the four solver-backed objectives hand to the
    solver is the equal-weight vector, whatever finite minimum weight is
    asked for: either [min_weight * N] exceeds 1 and the vector is set to
    1/N, or the larger of the minimum weight and 1/N is taken N times and
    normalised, which gives 1/N again (in exact arithmetic). *)
Theorem initial_guess_equal_weights (self : t) (min_weight : Qc) :
  (1 <= n_assets self)%nat ->
  initial_guess self (Finite min_weight) = Ok (equal_weights (n_assets self)).
Proof.
  intros Hn. unfold initial_guess, equal_weights.
  rewrite truediv_one_of_nat by done.
  pose proof (Qc_of_nat_nonzero (n_assets self) Hn) as Hnz.
  set (n := n_assets self) in *.
  destruct (Finite min_weight * of_nat n >? one); [done|].
  cbn [mbind result_bind mret result_ret]. f_equal.
  assert (Hmax : exists m : Qc,
            Py.max (Finite min_weight) (Finite (1 / Qc_of_nat n)) = Finite m
            /\ (1 / Qc_of_nat n <= m)%Qc).
  { unfold Py.max, fgtb.
    destruct (Finite min_weight <? Finite (1 / Qc_of_nat n)) eqn:Hcmp.
    - eexists. split; [done|]. apply Qcle_refl.
    - eexists. split; [done|]. apply Qcnot_lt_le. intros Hlt.
      apply fltb_finite in Hlt. congruence. }
  destruct Hmax as (m & -> & Hm).
  assert (Hpos : (0 < m)%Qc).
  { eapply Qclt_le_trans; [|exact Hm].
    assert (Hnpos : (0 < Qc_of_nat n)%Qc).
    { pose proof (Qc_of_nat_le 0 n ltac:(lia)) as Hcase.
      apply Qcle_lt_or_eq in Hcase as [Hlt|Heq]; [exact Hlt|]. by rewrite <- Heq in Hnz. }
    apply Qc_div_lt_iff; [done|]. by replace (0 * Qc_of_nat n)%Qc with 0%Qc by ring. }
  pose proof (Qc_pos_nonzero m Hpos) as Hmz.
  rewrite finite_array_replicate, sum_finite_array, Qsum_replicate.
  rewrite div_scalar_finite_array.
  - rewrite finite_array_replicate, map_replicate. do 2 f_equal. by field.
  - intros Hzero. apply Qcmult_integral in Hzero as [?|?]; done.
Qed.

Lemma initial_guess_equal_weights_witness :
  (1 <= n_assets four_assets)%nat /\
  initial_guess four_assets (Finite (Q2Qc (1 # 5)))
  = Ok [frac 1 4; frac 1 4; frac 1 4; frac 1 4].
Proof.
  assert (Hn : (1 <= n_assets four_assets)%nat) by (vm_compute; lia).
  split; [exact Hn|].
  rewrite (initial_guess_equal_weights four_assets (Q2Qc (1 # 5)) Hn). compute_done.
Defined.

Lemma linspace_length (start stop : float64) (num : nat) :
  length (Np.linspace start stop num) = num.
Proof. unfold Np.linspace. by rewrite length_map, length_seq. Qed.

(** The loop of [generate_efficient_frontier] keeps the three lists in step:
    every pass adds one entry to each of them or none. *)
Lemma frontier_loop_invariant (minimize : Scipy.minimize_t) (self : t)
    (all_targets targets : list float64)
    (returns volatilities sharpe_ratios : list float64) :
  (forall t : float64, t ∈ targets -> t ∈ all_targets) ->
  length volatilities = length returns ->
  length sharpe_ratios = length returns ->
  (forall (i : nat) (r : float64), returns !! i = Some r ->
     exists (v s target : float64),
       volatilities !! i = Some v /\ sharpe_ratios !! i = Some s /\
       target ∈ all_targets /\
       frontier_point minimize self target = Ok (Some (r, v, s))) ->
  exists rs vs ss : list float64,
    foldl (frontier_step minimize self) (returns, volatilities, sharpe_ratios) targets
    = (rs, vs, ss) /\
    length vs = length rs /\
    length ss = length rs /\
    (length rs <= length returns + length targets)%nat /\
    forall (i : nat) (r : float64), rs !! i = Some r ->
      exists (v s target : float64),
        vs !! i = Some v /\ ss !! i = Some s /\
        target ∈ all_targets /\
        frontier_point minimize self target = Ok (Some (r, v, s)).
Proof.
  revert returns volatilities sharpe_ratios.
  induction targets as [|t targets IH];
    intros returns volatilities sharpe_ratios Hsub Hlv Hls Hpts.
  { exists returns, volatilities, sharpe_ratios. cbn [foldl length].
    split; [done|]. split; [done|]. split; [done|]. split; [lia|done]. }
  assert (Hsub' : forall t' : float64, t' ∈ targets -> t' ∈ all_targets).
  { intros t' Ht'. apply Hsub. by right. }
  cbn [foldl]. unfold frontier_step at 2.
  destruct (frontier_point minimize self t) as [[[[r v] s]|]|e] eqn:Hpt.
  - destruct (IH (returns ++ [r]) (volatilities ++ [v]) (sharpe_ratios ++ [s]))
      as (rs & vs & ss & Hrun & Hlv' & Hls' & Hlen & Hpts'); [done| | | |].
    + rewrite !length_app. cbn [length]. lia.
    + rewrite !length_app. cbn [length]. lia.
    + intros i r' Hi. destruct (decide (i < length returns)%nat) as [Hlt|Hge].
      * rewrite lookup_app_l in Hi by done.
        destruct (Hpts i r' Hi) as (v' & s' & target & Hv & Hs & Hin & Hok).
        exists v', s', target. rewrite !lookup_app_l by lia.
        by repeat split.
      * rewrite lookup_app_r in Hi by lia.
        destruct (i - length returns)%nat as [|k] eqn:Hk; [|by destruct k].
        injection Hi as <-. exists v, s, t.
        rewrite !lookup_app_r by lia.
        replace (i - length volatilities)%nat with 0%nat by lia.
        replace (i - length sharpe_ratios)%nat with 0%nat by lia.
        split; [done|]. split; [done|]. split; [apply Hsub; by left|done].
    + exists rs, vs, ss. split; [done|]. split; [done|]. split; [done|].
      split; [|done]. rewrite length_app in Hlen. cbn [length] in *. lia.
  - destruct (IH returns volatilities sharpe_ratios Hsub' Hlv Hls Hpts)
      as (rs & vs & ss & Hrun & Hlv' & Hls' & Hlen & Hpts').
    exists rs, vs, ss. split; [done|]. split; [done|]. split; [done|].
    split; [cbn [length]; lia|done].
  - destruct (IH returns volatilities sharpe_ratios Hsub' Hlv Hls Hpts)
      as (rs & vs & ss & Hrun & Hlv' & Hls' & Hlen & Hpts').
    exists rs, vs, ss. split; [done|]. split; [done|]. split; [done|].
    split; [cbn [length]; lia|done].
Qed.

(** X20.  [generate_efficient_frontier], for any behaviour of the solver:
    once its two opening solves have returned, the call returns; nothing
    raised inside the loop gets out.  The three arrays have one length, at
    most [n_portfolios], and every point holds the return, volatility and
    Sharpe ratio at the final iterate of a solve that reported success, for a
    target of the grid between the two opening returns. *)
Theorem generate_efficient_frontier_points (minimize : Scipy.minimize_t) (self : t)
    (n_portfolios : nat) (min_vol max_ret : Np.ndarray * Py.dict float64) :
  optimize_min_volatility minimize self false zero one = Ok min_vol ->
  optimize_max_return minimize self None false zero one = Ok max_ret ->
  exists returns volatilities sharpe_ratios : Np.ndarray,
    generate_efficient_frontier minimize self n_portfolios
    = Ok (returns, volatilities, sharpe_ratios) /\
    length volatilities = length returns /\
    length sharpe_ratios = length returns /\
    (length returns <= n_portfolios)%nat /\
    forall (i : nat) (r : float64), returns !! i = Some r ->
      exists (v s target : float64),
        volatilities !! i = Some v /\ sharpe_ratios !! i = Some s /\
        target ∈ frontier_targets self min_vol.1 max_ret.1 n_portfolios /\
        frontier_point minimize self target = Ok (Some (r, v, s)).
Proof.
  intros Hmin Hmax. unfold generate_efficient_frontier. rewrite Hmin, Hmax.
  cbn [mbind result_bind mret result_ret].
  fold (frontier_targets self min_vol.1 max_ret.1 n_portfolios).
  destruct (frontier_loop_invariant minimize self
              (frontier_targets self min_vol.1 max_ret.1 n_portfolios)
              (frontier_targets self min_vol.1 max_ret.1 n_portfolios) [] [] [])
    as (rs & vs & ss & Hrun & Hlv & Hls & Hlen & Hpts); [done|done|done|done|].
  exists rs, vs, ss. rewrite Hrun. split; [done|]. split; [done|]. split; [done|].
  split; [|done]. unfold frontier_targets in Hlen. rewrite linspace_length in Hlen.
  cbn [length] in Hlen. lia.
Qed.

Lemma generate_efficient_frontier_points_witness :
  exists returns volatilities sharpe_ratios : Np.ndarray,
    generate_efficient_frontier solver_converged four_assets 10
    = Ok (returns, volatilities, sharpe_ratios) /\
    length volatilities = length returns /\
    length sharpe_ratios = length returns /\
    (length returns <= 10)%nat.
Proof.
  destruct (generate_efficient_frontier_points solver_converged four_assets 10
              (Scipy.x converged_result, metrics_at four_assets (Scipy.x converged_result))
              (Scipy.x converged_result, metrics_at four_assets (Scipy.x converged_result)))
    as (rs & vs & ss & Hrun & Hlv & Hls & Hlen & _); [reflexivity|reflexivity|].
  by exists rs, vs, ss.
Defined.

End Frontier_facts.

(** ** Scenarios and the retirement analysis *)

Section Scenario_facts.

Import MonteCarloSimulator.

Lemma advance_zero (st : RandomState) : advance st 0 = st.
Proof. destruct st as [g p]. unfold advance. cbn. f_equal. lia. Qed.

Lemma advance_advance (st : RandomState) (a b : nat) :
  advance (advance st a) b = advance st (a + b).
Proof. unfold advance. cbn. f_equal. lia. Qed.

(** Every simulation call with at least one trial returns, and moves the
    generator on by one deviate per trial and year. *)
Lemma simulate_portfolio_runs (self : t) (weights : Np.ndarray)
    (initial_investment : float64) (time_horizon_years n_simulations : nat)
    (annual_contribution : float64) (st : RandomState) :
  (1 <= n_simulations)%nat ->
  exists r : SimulationResult,
    simulate_portfolio self weights initial_investment time_horizon_years
      n_simulations annual_contribution st
    = Ok (r, advance st (n_simulations * time_horizon_years)) /\
    length (final_values r) = n_simulations.
Proof.
  intros Htrials.
  destruct (trial_loop_run self weights initial_investment time_horizon_years
              n_simulations annual_contribution st)
    as (F & P & st' & Hrun & Hg & Hp & HlenF & _).
  destruct (simulate_portfolio_after_loop self weights initial_investment
              time_horizon_years n_simulations annual_contribution st st' F P Hrun
              (nonempty_of_length F n_simulations HlenF Htrials))
    as (r & Hsim & HF & _).
  exists r. split; [|by rewrite HF]. rewrite Hsim. do 2 f_equal.
  destruct st' as [g p]. unfold advance. cbn in *. by subst.
Qed.

Lemma thousand_trials : (1 <= 1000)%nat.
Proof. lia. Qed.

Lemma ten_thousand_trials : (1 <= 10000)%nat.
Proof. apply Nat.leb_le. by vm_compute. Qed.

Lemma get_set_eq {V : Type} (d : Py.dict V) (k : string) (v : V) :
  Py.get (Py.set d k v) k = Some v.
Proof.
  induction d as [|[k' v'] d IH]; cbn.
  - by rewrite String.eqb_refl.
  - destruct (String.eqb k' k) eqn:Hk; cbn; by rewrite Hk.
Qed.

Lemma get_set_ne {V : Type} (d : Py.dict V) (k k' : string) (v : V) :
  k <> k' -> Py.get (Py.set d k v) k' = Py.get d k'.
Proof.
  intros Hne. induction d as [|[k0 v0] d IH]; cbn.
  - destruct (String.eqb_spec k k'); done.
  - destruct (String.eqb_spec k0 k) as [->|Hk0]; cbn.
    + destruct (String.eqb_spec k k'); done.
    + destruct (String.eqb_spec k0 k'); done.
Qed.

Lemma string_app_length (s t : string) :
  String.length (s +:+ t) = (String.length s + String.length t)%nat.
Proof. induction s as [|c s IH]; [done|]. simpl. f_equal. exact IH. Qed.

Lemma string_app_inj_r (s1 s2 t : string) : s1 +:+ t = s2 +:+ t -> s1 = s2.
Proof.
  revert s2. induction s1 as [|c1 s1 IH]; intros [|c2 s2] Heq.
  - done.
  - apply (f_equal String.length) in Heq.
    change (String c2 s2 +:+ t) with (String c2 (s2 +:+ t)) in Heq.
    change ("" +:+ t) with t in Heq.
    cbn [String.length] in Heq. rewrite string_app_length in Heq. lia.
  - apply (f_equal String.length) in Heq.
    change (String c1 s1 +:+ t) with (String c1 (s1 +:+ t)) in Heq.
    change ("" +:+ t) with t in Heq.
    cbn [String.length] in Heq. rewrite string_app_length in Heq. lia.
  - injection Heq as -> Heq. f_equal. by apply IH.
Qed.

(** Two scenarios share a key exactly when they run over the same number of
    years. *)
Lemma scenario_key_inj (a b : Scenario) :
  scenario_key a = scenario_key b -> years a = years b.
Proof.
  unfold scenario_key, Py.str_of_nat. intros Heq.
  apply string_app_inj_r in Heq. by apply pretty_nat_inj in Heq.
Qed.

(** The loop of [compare_scenarios] from a dictionary [d] and a generator
    state [st]. *)
Lemma compare_scenarios_loop (self : t) (weights : Np.ndarray)
    (initial_investment : float64) (scenarios : list Scenario) :
  forall (d : Py.dict SimulationResult) (st : RandomState),
  exists d' : Py.dict SimulationResult,
    for_each_in scenarios
      (fun scenario results =>
         result ← simulate_portfolio self weights initial_investment (years scenario)
                    10000 (default zero (contributions scenario));
         mret (Py.set results (Py.str_of_nat (years scenario) +:+ "yr") result))
      d st
    = Ok (d', advance st (10000 * total_years scenarios)) /\
    (forall k : string,
       (forall scenario : Scenario, scenario ∈ scenarios -> scenario_key scenario <> k) ->
       Py.get d' k = Py.get d k) /\
    (forall (i : nat) (scenario : Scenario),
       scenarios !! i = Some scenario ->
       (forall (j : nat) (later : Scenario),
          (i < j)%nat -> scenarios !! j = Some later -> years later <> years scenario) ->
       exists (r : SimulationResult) (st' : RandomState),
         simulate_portfolio self weights initial_investment (years scenario) 10000
           (default zero (contributions scenario))
           (advance st (10000 * total_years (take i scenarios))) = Ok (r, st') /\
         Py.get d' (scenario_key scenario) = Some r).
Proof.
  induction scenarios as [|sc scenarios IH]; intros d st.
  { exists d. cbn [for_each_in total_years foldr]. rewrite Nat.mul_0_r, advance_zero.
    split; [done|]. split; [done|]. intros i scenario Hi. done. }
  destruct (simulate_portfolio_runs self weights initial_investment (years sc) 10000
              (default zero (contributions sc)) st ten_thousand_trials) as (r0 & Hr0 & _).
  destruct (IH (Py.set d (scenario_key sc) r0) (advance st (10000 * years sc)))
    as (d' & Hrun & Hframe & Hlast).
  exists d'. split; [|split].
  - cbn [for_each_in]. unfold mbind at 1, Rand_bind at 1.
    unfold mbind at 1, Rand_bind at 1. rewrite Hr0.
    unfold mret, Rand_ret. fold (scenario_key sc).
    etransitivity; [exact Hrun|]. rewrite advance_advance. do 2 f_equal.
    cbn [total_years foldr]. fold (total_years scenarios).
    by rewrite Nat.mul_add_distr_l.
  - intros k Hk. rewrite Hframe.
    + apply get_set_ne. apply Hk. by left.
    + intros scenario Hin. apply Hk. by right.
  - intros [|i] scenario Hi Hlater.
    + injection Hi as <-. exists r0, (advance st (10000 * years sc)).
      cbn [take total_years foldr]. rewrite Nat.mul_0_r, advance_zero.
      split; [done|]. rewrite Hframe; [apply get_set_eq|].
      intros later Hin Hkey. apply list_elem_of_lookup_1 in Hin as [j Hj].
      apply (Hlater (S j) later); [lia|done|by apply scenario_key_inj].
    + destruct (Hlast i scenario Hi) as (r & st' & Hsim & Hget).
      { intros j later Hj Hl. apply (Hlater (S j) later); [lia|done]. }
      exists r, st'. split; [|done]. rewrite advance_advance in Hsim.
      cbn [take total_years foldr]. fold (total_years (take i scenarios)).
      by rewrite Nat.mul_add_distr_l.
Qed.

(** X21.  [compare_scenarios] returns for every list of scenarios and takes
    10000 deviates per simulated year, one scenario after the other.  Results
    are filed under the number of years: of several scenarios with the same
    horizon only the last one is kept, under its key stands the simulation
    run at the point of the stream that scenario began at, and no other key
    is present. *)
Theorem compare_scenarios_last_horizon_wins (self : t) (weights : Np.ndarray)
    (initial_investment : float64) (scenarios : list Scenario) (st : RandomState) :
  exists results : Py.dict SimulationResult,
    compare_scenarios self weights initial_investment scenarios st
    = Ok (results, advance st (10000 * total_years scenarios)) /\
    (forall k : string,
       (forall scenario : Scenario, scenario ∈ scenarios -> scenario_key scenario <> k) ->
       Py.get results k = None) /\
    (forall (i : nat) (scenario : Scenario),
       scenarios !! i = Some scenario ->
       (forall (j : nat) (later : Scenario),
          (i < j)%nat -> scenarios !! j = Some later -> years later <> years scenario) ->
       exists (r : SimulationResult) (st' : RandomState),
         simulate_portfolio self weights initial_investment (years scenario) 10000
           (default zero (contributions scenario))
           (advance st (10000 * total_years (take i scenarios))) = Ok (r, st') /\
         Py.get results (scenario_key scenario) = Some r).
Proof.
  destruct (compare_scenarios_loop self weights initial_investment scenarios [] st)
    as (d' & Hrun & Hframe & Hlast).
  exists d'. split; [exact Hrun|]. split; [|exact Hlast].
  intros k Hk. by rewrite Hframe.
Qed.

Lemma get_set_cases {V : Type} (d : Py.dict V) (k k' : string) (v y : V) :
  Py.get (Py.set d k v) k' = Some y -> (k' = k /\ y = v) \/ Py.get d k' = Some y.
Proof.
  intros Hget. destruct (decide (k = k')) as [<-|Hne].
  - rewrite get_set_eq in Hget. injection Hget as <-. by left.
  - rewrite get_set_ne in Hget by done. by right.
Qed.

(** A loop over a list keeps an invariant on the loop state and the
    generator state, when every pass keeps it and does not raise. *)
Lemma for_each_in_inv {A St : Type} (Inv : St -> RandomState -> Prop)
    (items : list A) (body : A -> St -> Rand St) :
  (forall (x : A) (s : St) (st : RandomState),
     x ∈ items -> Inv s st ->
     exists (s' : St) (st' : RandomState), body x s st = Ok (s', st') /\ Inv s' st') ->
  forall (s : St) (st : RandomState),
    Inv s st ->
    exists (s' : St) (st' : RandomState),
      for_each_in items body s st = Ok (s', st') /\ Inv s' st'.
Proof.
  induction items as [|x items IH]; intros Hbody s st Hinv.
  { by exists s, st. }
  destruct (Hbody x s st) as (s1 & st1 & Hrun & Hinv1); [by left|done|].
  destruct IH with (s := s1) (st := st1) as (s2 & st2 & Hrest & Hinv2); [|done|].
  { intros y s' st' Hy. apply Hbody. by right. }
  exists s2, st2. split; [|done].
  cbn [for_each_in]. unfold mbind, Rand_bind at 1. by rewrite Hrun.
Qed.

(** The search with its [break]: when no test raises, it returns one of the
    tested horizons or none, and only moves the generator forward. *)
Lemma first_horizon_runs (reaches : nat -> Rand bool) (tests : list nat) :
  (forall (y : nat) (st : RandomState),
     exists (hit : bool) (st' : RandomState),
       reaches y st = Ok (hit, st') /\ gauss st' = gauss st /\
       (position st <= position st')%nat) ->
  forall st : RandomState,
    exists (found : option nat) (st' : RandomState),
      first_horizon tests reaches st = Ok (found, st') /\
      gauss st' = gauss st /\ (position st <= position st')%nat /\
      forall y : nat, found = Some y -> y ∈ tests.
Proof.
  intros Hreaches. induction tests as [|t tests IH]; intros st.
  { exists None, st. by repeat split. }
  destruct (Hreaches t st) as (hit & st1 & Hrun & Hg & Hp).
  cbn [first_horizon]. unfold mbind, Rand_bind at 1. rewrite Hrun.
  destruct hit.
  - exists (Some t), st1. split; [done|]. split; [done|]. split; [done|].
    intros y [= <-]. by left.
  - destruct (IH st1) as (found & st2 & Hrest & Hg2 & Hp2 & Hin).
    exists found, st2. split; [done|]. split; [congruence|]. split; [lia|].
    intros y Hy. right. by apply Hin.
Qed.

(** The percentile asked for at each of the four confidence levels is a
    valid one, and the key of the level is one of the four keys. *)
Lemma confidence_level_valid (conf : Qc) :
  conf ∈ confidence_levels ->
  negb ((zero <=? Finite conf * of_Z 100) && (Finite conf * of_Z 100 <=? of_Z 100)) = false
  /\ (Py.str_of_int (Py.int_of (conf * Q2Qc (inject_Z 100))) +:+ "%")%string
     ∈ confidence_keys.
Proof.
  unfold confidence_levels, confidence_keys. intros Hin.
  repeat (apply elem_of_cons in Hin as [->|Hin]); [| | | |by apply elem_of_nil in Hin].
  - split; [by vm_compute|]. vm_compute. by left.
  - split; [by vm_compute|]. vm_compute. right. by left.
  - split; [by vm_compute|]. vm_compute. do 2 right. by left.
  - split; [by vm_compute|]. vm_compute. do 3 right. by left.
Qed.

(** One test of the search: a fresh simulation of 1000 trials and its
    percentile, compared with the goal. *)
Lemma horizon_test_runs (self : t) (weights : Np.ndarray)
    (current_portfolio annual_contribution retirement_goal : float64) (conf : Qc)
    (test_years : nat) (st : RandomState) :
  conf ∈ confidence_levels ->
  exists (hit : bool) (st' : RandomState),
    (test_result ← simulate_portfolio self weights current_portfolio test_years
                     1000 annual_contribution;
     percentile_val ← lift (Np.percentile (final_values test_result)
                              (Finite conf * of_Z 100));
     mret (retirement_goal <=? percentile_val)) st = Ok (hit, st') /\
    gauss st' = gauss st /\ (position st <= position st')%nat.
Proof.
  intros Hconf.
  destruct (simulate_portfolio_runs self weights current_portfolio test_years 1000
              annual_contribution st thousand_trials) as (r & Hr & Hlen).
  destruct (confidence_level_valid conf Hconf) as [Hvalid _].
  destruct (percentile_ok (final_values r) (Finite conf * of_Z 100)
              (nonempty_of_length _ _ Hlen thousand_trials) Hvalid) as [v Hv].
  exists (retirement_goal <=? v), (advance st (1000 * test_years)).
  split; [|split; [done|cbn; lia]].
  unfold mbind, Rand_bind. rewrite Hr. unfold lift. by rewrite Hv.
Qed.

(** The whole call: the simulation of the call, then the search for the
    horizons; nothing raises. *)
Lemma calculate_retirement_probability_run (self : t) (weights : Np.ndarray)
    (current_portfolio : float64) (years_to_retirement : nat)
    (annual_contribution retirement_goal : float64) (n_simulations : nat)
    (st : RandomState) :
  (1 <= n_simulations)%nat ->
  exists (r : SimulationResult) (years_needed : Py.dict nat) (st' : RandomState),
    simulate_portfolio self weights current_portfolio years_to_retirement
      n_simulations annual_contribution st
    = Ok (r, advance st (n_simulations * years_to_retirement)) /\
    calculate_retirement_probability self weights current_portfolio
      years_to_retirement annual_contribution retirement_goal n_simulations st
    = Ok (retirement_analysis r retirement_goal n_simulations years_needed, st') /\
    gauss st' = gauss st /\
    (position st + n_simulations * years_to_retirement <= position st')%nat /\
    forall (k : string) (y : nat),
      Py.get years_needed k = Some y ->
      k ∈ confidence_keys /\ (1 <= y <= 49)%nat.
Proof.
  intros Htrials.
  destruct (simulate_portfolio_runs self weights current_portfolio years_to_retirement
              n_simulations annual_contribution st Htrials) as (r & Hr & _).
  set (st1 := advance st (n_simulations * years_to_retirement)) in *.
  set (Inv := fun (d : Py.dict nat) (st2 : RandomState) =>
    gauss st2 = gauss st /\ (position st1 <= position st2)%nat /\
    forall (k : string) (y : nat),
      Py.get d k = Some y -> k ∈ confidence_keys /\ (1 <= y <= 49)%nat).
  destruct (for_each_in_inv Inv confidence_levels
              (fun conf years_needed =>
                 found ← first_horizon (seq 1 49)
                   (fun test_years =>
                      test_result ← simulate_portfolio self weights current_portfolio
                                      test_years 1000 annual_contribution;
                      percentile_val ← lift (Np.percentile (final_values test_result)
                                               (Finite conf * of_Z 100));
                      mret (retirement_goal <=? percentile_val));
                 mret (match found with
                       | Some test_years =>
                           Py.set years_needed
                             (Py.str_of_int (Py.int_of (conf * Q2Qc (inject_Z 100))) +:+ "%")
                             test_years
                       | None => years_needed
                       end)))
    with (s := @nil (string * nat)) (st := st1)
    as (yn & st' & Hloop & Hg & Hp & Hdict).
  - intros conf d st2 Hconf (Hg & Hp & Hdict).
    destruct (first_horizon_runs
                (fun test_years =>
                   test_result ← simulate_portfolio self weights current_portfolio
                                   test_years 1000 annual_contribution;
                   percentile_val ← lift (Np.percentile (final_values test_result)
                                            (Finite conf * of_Z 100));
                   mret (retirement_goal <=? percentile_val))
                (seq 1 49)) with (st := st2) as (found & st3 & Hrun & Hg3 & Hp3 & Hin).
    { intros y st0. by apply horizon_test_runs. }
    eexists _, st3. split.
    { unfold mbind at 1, Rand_bind at 1. rewrite Hrun. reflexivity. }
    split; [congruence|]. split; [lia|].
    destruct found as [ty|]; [|done].
    intros k y Hget. apply get_set_cases in Hget as [[-> ->]|Hget]; [|by apply Hdict].
    split; [by apply confidence_level_valid|].
    specialize (Hin ty eq_refl). apply elem_of_seq in Hin. lia.
  - split; [done|]. split; [done|]. intros k y Hget. done.
  - exists r, yn, st'. split; [done|]. split.
    { unfold calculate_retirement_probability. unfold mbind at 1, Rand_bind at 1.
      rewrite Hr. fold st1. unfold mbind at 1, Rand_bind at 1. rewrite Hloop.
      reflexivity. }
    split; [done|]. split; [|done].
    subst st1. cbn [advance position] in Hp. lia.
Qed.

(** X22.  [calculate_retirement_probability] returns for every input with
    at least one trial and every generator state: neither the simulation of
    the call nor any of the searches raises.  Its simulation data is the
    simulation run from the incoming state, the generator only moves forward,
    and the dictionary of years needed holds no key beyond '50%', '75%', '90%'
    and '95%' and no horizon outside 1 to 49 years. *)
Theorem calculate_retirement_probability_returns (self : t) (weights : Np.ndarray)
    (current_portfolio : float64) (years_to_retirement : nat)
    (annual_contribution retirement_goal : float64) (n_simulations : nat)
    (st : RandomState) :
  (1 <= n_simulations)%nat ->
  exists (analysis : Retirement.Analysis) (st' : RandomState),
    calculate_retirement_probability self weights current_portfolio
      years_to_retirement annual_contribution retirement_goal n_simulations st
    = Ok (analysis, st') /\
    simulate_portfolio self weights current_portfolio years_to_retirement
      n_simulations annual_contribution st
    = Ok (Retirement.simulation_data analysis,
          advance st (n_simulations * years_to_retirement)) /\
    gauss st' = gauss st /\
    (position st + n_simulations * years_to_retirement <= position st')%nat /\
    forall (k : string) (y : nat),
      Py.get (Retirement.years_needed analysis) k = Some y ->
      k ∈ confidence_keys /\ (1 <= y <= 49)%nat.
Proof.
  intros Htrials.
  destruct (calculate_retirement_probability_run self weights current_portfolio
              years_to_retirement annual_contribution retirement_goal n_simulations st
              Htrials)
    as (r & yn & st' & Hsim & Hrun & Hg & Hp & Hdict).
  by exists (retirement_analysis r retirement_goal n_simulations yn), st'.
Qed.

Lemma calculate_retirement_probability_returns_witness :
  exists (analysis : Retirement.Analysis) (st' : RandomState),
    calculate_retirement_probability one_asset_market [one] (of_Z 1000) 5 (of_Z 50)
      (of_Z 2000) 100 sample_stream
    = Ok (analysis, st') /\
    simulate_portfolio one_asset_market [one] (of_Z 1000) 5 100 (of_Z 50) sample_stream
    = Ok (Retirement.simulation_data analysis, advance sample_stream (100 * 5)) /\
    gauss st' = gauss sample_stream /\
    (position sample_stream + 100 * 5 <= position st')%nat /\
    forall (k : string) (y : nat),
      Py.get (Retirement.years_needed analysis) k = Some y ->
      k ∈ confidence_keys /\ (1 <= y <= 49)%nat.
Proof.
  apply (calculate_retirement_probability_returns one_asset_market [one] (of_Z 1000) 5
           (of_Z 50) (of_Z 2000) 100 sample_stream).
  lia.
Defined.

(** Among finite final values, every trial either reaches the goal or falls
    short of it. *)
Lemma reached_or_short (goal : Qc) (F : list float64) :
  all_finite F = true ->
  (length (List.filter (fun v => (Finite goal <=? v)%f64) F)
   + length (List.filter (fun v => (v <? Finite goal)%f64) F))%nat = length F.
Proof.
  induction F as [|x F IH]; [done|].
  intros [[q ->] HF]%all_finite_cons. specialize (IH HF). cbn [List.filter].
  destruct (Qclt_le_dec q goal) as [Hlt|Hge].
  - assert (H1 : (Finite q <? Finite goal) = true) by by apply fltb_finite.
    assert (H2 : (Finite goal <=? Finite q) = false).
    { destruct (Finite goal <=? Finite q) eqn:Hle; [|done].
      apply fleb_finite in Hle. by apply Qcle_not_lt in Hle. }
    rewrite H1, H2. cbn [length]. lia.
  - assert (H1 : (Finite q <? Finite goal) = false).
    { destruct (Finite q <? Finite goal) eqn:Hlt; [|done].
      apply fltb_finite in Hlt. by apply Qcle_not_lt in Hge. }
    assert (H2 : (Finite goal <=? Finite q) = true) by by apply fleb_finite.
    rewrite H1, H2. cbn [length]. lia.
Qed.

Lemma Qsum_positive (qs : list Qc) :
  qs <> [] -> Forall (fun q : Qc => (0 < q)%Qc) qs -> (0 < Qsum qs)%Qc.
Proof.
  intros Hne Hpos.
  assert (Hnonneg : forall l : list Qc,
            Forall (fun q : Qc => (0 < q)%Qc) l -> (0 <= Qsum l)%Qc).
  { induction l as [|q l IH]; [intros _; apply Qcle_refl|].
    intros [Hq Hl]%Forall_cons. specialize (IH Hl).
    cbn [Qsum foldr]. fold (Qsum l). clear -Hq IH. qc_as_q. lra. }
  destruct qs as [|q qs]; [done|]. apply Forall_cons in Hpos as [Hq Hqs].
  specialize (Hnonneg qs Hqs). cbn [Qsum foldr]. fold (Qsum qs).
  clear -Hq Hnonneg. qc_as_q. lra.
Qed.

Lemma Qc_of_nat_inj (k n : nat) : Qc_of_nat k = Qc_of_nat n -> k = n.
Proof.
  intros Heq. apply Qc_eq_Qeq in Heq. rewrite !Qc_of_nat_Q in Heq.
  unfold Qeq in Heq. cbn in Heq. lia.
Qed.

(** The shortfalls of the trials that fall short: their mean is positive. *)
Lemma shortfall_positive (goal : Qc) (F : list float64) :
  all_finite F = true ->
  List.filter (fun v => v <? Finite goal) F <> [] ->
  exists m : Qc,
    Np.mean (map (fun v => Finite goal - v) (List.filter (fun v => v <? Finite goal) F))
    = Finite m /\ (0 < m)%Qc.
Proof.
  intros HF Hne.
  destruct (all_finite_inv (List.filter (fun v => v <? Finite goal) F)) as [xs Hxs];
    [by apply filter_all_finite|].
  pose proof (filter_Forall (fun v => v <? Finite goal) F) as Hlt.
  rewrite Hxs in Hlt, Hne |- *.
  assert (Hmap : map (fun v => Finite goal - v) (finite_array xs)
                 = finite_array (map (fun x : Qc => (goal - x)%Qc) xs)).
  { unfold finite_array. rewrite !map_map. done. }
  rewrite Hmap.
  assert (Hxne : xs <> []) by (intros ->; done).
  assert (Hpos : Forall (fun q : Qc => (0 < q)%Qc) (map (fun x : Qc => (goal - x)%Qc) xs)).
  { apply Forall_map. unfold finite_array in Hlt. apply List.Forall_map in Hlt.
    apply Forall_forall. intros x Hx. cbn beta.
    apply list_elem_of_In in Hx.
    pose proof (proj1 (List.Forall_forall _ _) Hlt x Hx) as Hxg. cbn beta in Hxg.
    apply fltb_finite in Hxg. clear -Hxg. qc_as_q. lra. }
  set (ds := map (fun x : Qc => (goal - x)%Qc) xs) in *.
  assert (Hdne : ds <> []) by (subst ds; by destruct xs).
  pose proof (Qsum_positive ds Hdne Hpos) as Hsum.
  assert (Hlen : (1 <= length ds)%nat) by (destruct ds; [done|cbn; lia]).
  pose proof (Qc_of_nat_nonzero (length ds) Hlen) as Hnz.
  assert (Hnpos : (0 < Qc_of_nat (length ds))%Qc).
  { pose proof (Qc_of_nat_le 0 (length ds) ltac:(lia)) as Hcase.
    apply Qcle_lt_or_eq in Hcase as [Hl|Heq]; [exact Hl|]. by rewrite <- Heq in Hnz. }
  exists (Qsum ds / Qc_of_nat (length ds))%Qc. split.
  - rewrite mean_nonempty by (by destruct ds).
    rewrite sum_finite_array, finite_array_length. unfold of_nat, fdiv.
    by destruct (Qc_eq_dec (Qc_of_nat (length ds)) 0).
  - apply Qc_div_lt_iff; [done|].
    by replace (0 * Qc_of_nat (length ds))%Qc with 0%Qc by ring.
Qed.

(** X23.  The retirement analysis with finite parameters and at least one
    trial: the success rate is a number of [0, 1], the expected shortfall is
    a number that is never negative, and the shortfall is zero exactly when
    every trial reached the goal, that is, when the success rate is 1. *)
Theorem retirement_shortfall_zero_iff_all_succeed (self : t) (weights : Np.ndarray)
    (mu sd current_portfolio annual_contribution retirement_goal : Qc)
    (years_to_retirement n_simulations : nat) (st : RandomState) :
  Np.dot weights (mean_returns self) = Finite mu ->
  fsqrt (Np.dot weights (Np.matvec (cov_matrix self) weights)) = Finite sd ->
  (1 <= n_simulations)%nat ->
  exists (analysis : Retirement.Analysis) (st' : RandomState) (rate short : Qc),
    calculate_retirement_probability self weights (Finite current_portfolio)
      years_to_retirement (Finite annual_contribution) (Finite retirement_goal)
      n_simulations st = Ok (analysis, st') /\
    Retirement.success_rate analysis = Finite rate /\
    Retirement.shortfall analysis = Finite short /\
    (0 <= rate)%Qc /\ (rate <= 1)%Qc /\ (0 <= short)%Qc /\
    (short = 0%Qc <-> rate = 1%Qc).
Proof.
  intros Hmu Hsd Hn.
  destruct (calculate_retirement_probability_run self weights (Finite current_portfolio)
              years_to_retirement (Finite annual_contribution) (Finite retirement_goal)
              n_simulations st Hn)
    as (r & yn & st' & Hsim & Hrun & _).
  destruct (trial_loop_run self weights (Finite current_portfolio) years_to_retirement
              n_simulations (Finite annual_contribution) st)
    as (F & P & st1 & Hloop & _).
  destruct (trial_loop_finite self weights mu sd current_portfolio annual_contribution
              years_to_retirement n_simulations st st1 F P Hmu Hsd Hloop) as [Hfin HlenF].
  destruct (simulate_portfolio_after_loop self weights (Finite current_portfolio)
              years_to_retirement n_simulations (Finite annual_contribution) st st1 F P Hloop
              (nonempty_of_length F n_simulations HlenF Hn))
    as (r' & Hsim' & HF & _).
  rewrite Hsim in Hsim'. injection Hsim' as <- _.
  pose proof (reached_or_short retirement_goal F Hfin) as Hcount.
  set (reached := List.filter (fun v => Finite retirement_goal <=? v) F) in *.
  set (short_of := List.filter (fun v => v <? Finite retirement_goal) F) in *.
  pose proof (Qc_of_nat_nonzero n_simulations Hn) as Hnz.
  destruct (share_in_unit_interval (length reached) n_simulations)
    as (rate & Hrate & Hrate0 & Hrate1); [lia|done|].
  assert (Hvalue : rate = (Qc_of_nat (length reached) / Qc_of_nat n_simulations)%Qc).
  { unfold of_nat, fdiv in Hrate.
    destruct (Qc_eq_dec (Qc_of_nat n_simulations) 0); [done|]. by injection Hrate. }
  assert (Hone : rate = 1%Qc <-> length reached = n_simulations).
  { rewrite Hvalue. split.
    - intros Heq. apply Qc_of_nat_inj.
      rewrite <- (Qc_div_mul (Qc_of_nat (length reached)) (Qc_of_nat n_simulations)) by done.
      rewrite Heq. ring.
    - intros ->. by field. }
  cut (exists short : Qc,
         Retirement.shortfall (retirement_analysis r (Finite retirement_goal)
                                 n_simulations yn) = Finite short /\
         (0 <= short)%Qc /\ (short = 0%Qc <-> rate = 1%Qc)).
  { intros (short & Hs & Hs0 & Hiff).
    exists (retirement_analysis r (Finite retirement_goal) n_simulations yn), st', rate, short.
    split; [exact Hrun|]. split; [|done].
    unfold retirement_analysis. cbn [Retirement.success_rate]. rewrite HF. exact Hrate. }
  unfold retirement_analysis. cbn [Retirement.shortfall]. rewrite HF.
  fold short_of. rewrite length_map.
  destruct short_of as [|x0 rest] eqn:Hshort.
  - exists 0%Qc. cbn [length Nat.ltb Nat.leb].
    split; [done|]. split; [apply Qcle_refl|]. split; [|done].
    intros _. apply Hone. cbn [length] in Hcount. lia.
  - destruct (shortfall_positive retirement_goal F Hfin) as (m & Hm & Hpos).
    { fold short_of. by rewrite Hshort. }
    fold short_of in Hm. rewrite Hshort in Hm.
    exists m. cbn [length Nat.ltb Nat.leb]. rewrite Hm.
    split; [done|]. split; [by apply Qclt_le_weak|]. split.
    + intros ->. by apply Qclt_not_eq in Hpos.
    + intros Hall. apply Hone in Hall. cbn [length] in Hcount. lia.
Qed.

Lemma retirement_shortfall_zero_iff_all_succeed_witness :
  Np.dot [one] (mean_returns one_asset_market) = Finite (Q2Qc (1 # 10)) /\
  fsqrt (Np.dot [one] (Np.matvec (cov_matrix one_asset_market) [one]))
  = Finite (Q2Qc (1 # 5)) /\
  exists (analysis : Retirement.Analysis) (st' : RandomState) (rate short : Qc),
    calculate_retirement_probability one_asset_market [one] (Finite (Q2Qc 1000))
      10 (Finite (Q2Qc 50)) (Finite (Q2Qc 5000)) 100 sample_stream = Ok (analysis, st') /\
    Retirement.success_rate analysis = Finite rate /\
    Retirement.shortfall analysis = Finite short /\
    (0 <= rate)%Qc /\ (rate <= 1)%Qc /\ (0 <= short)%Qc /\
    (short = 0%Qc <-> rate = 1%Qc).
Proof.
  assert (Hmu : Np.dot [one] (mean_returns one_asset_market) = Finite (Q2Qc (1 # 10)))
    by compute_done.
  assert (Hsd : fsqrt (Np.dot [one] (Np.matvec (cov_matrix one_asset_market) [one]))
                = Finite (Q2Qc (1 # 5))) by compute_done.
  split; [exact Hmu|]. split; [exact Hsd|].
  apply (retirement_shortfall_zero_iff_all_succeed one_asset_market [one]
           (Q2Qc (1 # 10)) (Q2Qc (1 # 5)) (Q2Qc 1000) (Q2Qc 50) (Q2Qc 5000) 10 100
           sample_stream Hmu Hsd).
  lia.
Defined.

End Scenario_facts.

(** ** A simulation without risk *)

Section Deterministic_facts.

Import MonteCarloSimulator.

(** X24.  With a standard deviation of zero, finite parameters and at least
    one trial the simulation does not depend on the generator: every path is
    the compound growth of the investment at the mean return with the yearly
    contribution, and every trial ends on the same value. *)
Theorem simulate_portfolio_without_risk (self : t) (weights : Np.ndarray)
    (mu initial_investment annual_contribution : Qc)
    (time_horizon_years n_simulations : nat) (st : RandomState) :
  (1 <= n_simulations)%nat ->
  Np.dot weights (mean_returns self) = Finite mu ->
  fsqrt (Np.dot weights (Np.matvec (cov_matrix self) weights)) = zero ->
  exists (r : SimulationResult) (st' : RandomState),
    simulate_portfolio self weights (Finite initial_investment) time_horizon_years
      n_simulations (Finite annual_contribution) st = Ok (r, st') /\
    final_values r
    = replicate n_simulations
        (Finite (compound initial_investment mu annual_contribution time_horizon_years)) /\
    paths r
    = replicate n_simulations
        (finite_array (map (compound initial_investment mu annual_contribution)
                         (seq 0 (time_horizon_years + 1)))).
Proof.
  intros Htrials Hmu Hsd.
  destruct (trial_loop_run self weights (Finite initial_investment) time_horizon_years
              n_simulations (Finite annual_contribution) st)
    as (F & P & st' & Hrun & _ & _ & HlenF & HlenP & Hrows).
  destruct (simulate_portfolio_after_loop self weights (Finite initial_investment)
              time_horizon_years n_simulations (Finite annual_contribution) st st' F P Hrun
              (nonempty_of_length F n_simulations HlenF Htrials))
    as (r & Hsim & HF & HP).
  exists r, st'. split; [done|]. rewrite HF, HP.
  set (value := compound initial_investment mu annual_contribution).
  assert (Hrow : forall (sim : nat) (row : list float64) (final : float64),
            P !! sim = Some row -> F !! sim = Some final ->
            row = finite_array (map value (seq 0 (time_horizon_years + 1)))
            /\ final = Finite (value time_horizon_years)).
  { intros sim row final Hr Hf.
    assert (Hs : (sim < n_simulations)%nat).
    { rewrite <- HlenP. by eapply lookup_lt_length. }
    destruct (Hrows sim Hs) as (row' & final' & Hr' & Hf' & Hlen & Hcol & Hlast & Hrec).
    rewrite Hr in Hr'. injection Hr' as <-. rewrite Hf in Hf'. injection Hf' as <-.
    assert (Hval : forall y : nat, (y <= time_horizon_years)%nat ->
              row !! y = Some (Finite (value y))).
    { induction y as [|y IH]; intros Hy; [exact Hcol|].
      rewrite (Hrec (S y) (Finite (value y))); [|lia|].
      - f_equal. unfold drawn_return. rewrite Hmu, Hsd.
        cbn [zero one fmul fadd]. apply (f_equal Finite).
        subst value. cbn [compound]. ring.
      - replace (S y - 1)%nat with y by lia. apply IH. lia. }
    split.
    - apply list_eq. intros i. rewrite finite_array_lookup, lookup_map.
      destruct (decide (i <= time_horizon_years)%nat) as [Hi|Hi].
      + rewrite Hval by done. rewrite lookup_seq_lt by lia. done.
      + rewrite !lookup_ge_None_2; [done| |].
        * rewrite length_seq. lia.
        * lia.
    - rewrite Hval in Hlast by lia. by injection Hlast. }
  split.
  - apply list_eq. intros sim. destruct (decide (sim < n_simulations)%nat) as [Hs|Hs].
    + destruct (Hrows sim Hs) as (row & final & Hr & Hf & _).
      destruct (Hrow sim row final Hr Hf) as [_ ->].
      rewrite Hf. symmetry. by apply lookup_replicate.
    + rewrite !lookup_ge_None_2; [done| |].
      * rewrite length_replicate. lia.
      * lia.
  - apply list_eq. intros sim. destruct (decide (sim < n_simulations)%nat) as [Hs|Hs].
    + destruct (Hrows sim Hs) as (row & final & Hr & Hf & _).
      destruct (Hrow sim row final Hr Hf) as [-> _].
      rewrite Hr. symmetry. by apply lookup_replicate.
    + rewrite !lookup_ge_None_2; [done| |].
      * rewrite length_replicate. lia.
      * lia.
Qed.

Lemma simulate_portfolio_without_risk_witness :
  (1 <= 3)%nat /\
  Np.dot [one] (mean_returns riskless_market) = Finite (Q2Qc (1 # 10)) /\
  fsqrt (Np.dot [one] (Np.matvec (cov_matrix riskless_market) [one])) = zero /\
  exists (r : SimulationResult) (st' : RandomState),
    simulate_portfolio riskless_market [one] (Finite (Q2Qc 1000)) 2 3
      (Finite (Q2Qc 50)) sample_stream = Ok (r, st') /\
    final_values r = replicate 3 (Finite (Q2Qc 1315)).
Proof.
  assert (Hmu : Np.dot [one] (mean_returns riskless_market) = Finite (Q2Qc (1 # 10)))
    by compute_done.
  assert (Hsd : fsqrt (Np.dot [one] (Np.matvec (cov_matrix riskless_market) [one])) = zero)
    by compute_done.
  assert (Htrials : (1 <= 3)%nat) by lia.
  split; [exact Htrials|]. split; [exact Hmu|]. split; [exact Hsd|].
  destruct (simulate_portfolio_without_risk riskless_market [one]
              (Q2Qc (1 # 10)) (Q2Qc 1000) (Q2Qc 50) 2 3 sample_stream Htrials Hmu Hsd)
    as (r & st' & Hrun & Hfinal & _).
  exists r, st'. split; [exact Hrun|]. rewrite Hfinal. compute_done.
Defined.

End Deterministic_facts.

(** ** The largest drift *)

Section Drift_facts.

Import PortfolioRebalancer.

Lemma abs_finite_array (qs : list Qc) :
  Np.abs (finite_array qs)
  = finite_array (map (fun q : Qc => if Qclt_le_dec q 0 then (- q)%Qc else q) qs).
Proof. unfold Np.abs, finite_array. by rewrite !map_map. Qed.

(** [np.max] of finite numbers is an entry above all the others. *)
Lemma max_finite (d0 : Qc) (ds : list Qc) :
  exists m : Qc,
    Np.max (finite_array (d0 :: ds)) = Ok (Finite m)
    /\ m ∈ d0 :: ds
    /\ Forall (fun x : Qc => (x <= m)%Qc) (d0 :: ds).
Proof.
  cbn [finite_array map Np.max]. fold (finite_array ds).
  assert (Hgen : forall (v : list Qc) (b : Qc), exists m : Qc,
            foldl Np.max2 (Finite b) (finite_array v) = Finite m
            /\ (m = b \/ m ∈ v) /\ (b <= m)%Qc /\ Forall (fun x : Qc => (x <= m)%Qc) v).
  { induction v as [|y v IH]; intros b.
    - exists b. split; [done|]. split; [by left|]. split; [apply Qcle_refl|constructor].
    - cbn [finite_array map foldl]. fold (finite_array v).
      unfold Np.max2 at 2. cbn [is_nan orb].
      destruct (Finite b <? Finite y) eqn:Hcmp.
      + apply fltb_finite in Hcmp as Hlt. destruct (IH y) as (m & Heq & Hin & Hle & Hall).
        exists m. split; [done|]. split.
        { right. destruct Hin as [->|Hin]; [left|by right]. }
        split; [eapply Qcle_trans; [by apply Qclt_le_weak|exact Hle]|by constructor].
      + assert (Hge : (y <= b)%Qc).
        { apply Qcnot_lt_le. intros Hlt. apply fltb_finite in Hlt. congruence. }
        destruct (IH b) as (m & Heq & Hin & Hle & Hall).
        exists m. split; [done|]. split.
        { destruct Hin as [->|Hin]; [by left|right; by right]. }
        split; [done|]. constructor; [by eapply Qcle_trans|done]. }
  destruct (Hgen ds d0) as (m & Heq & Hin & Hle & Hall).
  exists m. split; [by rewrite Heq|]. split.
  - destruct Hin as [->|Hin]; [left|by right].
  - by constructor.
Qed.

(** X25.  [monitor_portfolio] on finite targets and threshold and on
    positions that are not negative and have a positive total: the report is
    returned, its maximum and average drift are numbers, and it asks for
    rebalancing exactly when its maximum drift exceeds the threshold. *)
Theorem monitor_max_drift_decides (self : PortfolioRebalancer.t)
    (targets values : list Qc) (th : Qc) (timestamp : option Z) (now : Z) :
  target_weights self = finite_array targets ->
  drift_threshold self = Finite th ->
  length targets = length values ->
  Forall (fun v : Qc => (0 <= v)%Qc) values ->
  (0 < Qsum values)%Qc ->
  exists (m : Monitoring) (largest average : Qc),
    monitor_portfolio self (finite_array values) timestamp now = Ok m /\
    Max_Drift m = Finite largest /\
    Avg_Drift m = Finite average /\
    (Needs_Rebalancing m = true <-> (th < largest)%Qc).
Proof.
  intros Htargets Hth Hlen _ Htotal.
  pose proof (Qc_pos_nonzero _ Htotal) as Hne.
  pose proof (calculate_current_weights_finite self values Hne) as Hweights.
  unfold monitor_portfolio. rewrite Hweights. cbn [mbind result_bind].
  unfold check_drift. rewrite Htargets, Hth, sub_finite_array, abs_finite_array.
  set (ds := map (fun q : Qc => if Qclt_le_dec q 0 then (- q)%Qc else q)
               (zip_with Qcminus (map (fun v : Qc => (v / Qsum values)%Qc) values) targets)).
  assert (Hds : length ds = length values).
  { subst ds. rewrite length_map, length_zip_with, length_map. lia. }
  destruct ds as [|d0 ds'] eqn:Hdseq.
  { destruct values; [done|]. cbn in Hds. lia. }
  rewrite <- Hdseq in *. 
  destruct (max_finite d0 ds') as (largest & Hmax & Hin & Hall).
  rewrite <- Hdseq in Hmax, Hin, Hall. rewrite Hmax.
  cbn [mbind result_bind mret result_ret].
  destruct (mean_le_bound (finite_array ds) largest) as (average & _ & Hmean & Hle).
  { rewrite Hdseq. done. }
  { apply all_finite_finite_array. }
  { unfold finite_array. apply List.Forall_map. apply List.Forall_forall. intros x Hx.
    apply fleb_finite. apply list_elem_of_In in Hx.
    by apply (proj1 (Forall_forall _ _) Hall x). }
  eexists _, largest, average. split; [reflexivity|].
  cbn [Max_Drift Avg_Drift Needs_Rebalancing]. split; [done|].
  split; [rewrite mean_nonempty; [exact Hmean|by rewrite Hdseq]|].
  rewrite any_map_lookup. split.
  - intros (i & x & Hx & Hgt). rewrite finite_array_lookup in Hx.
    destruct (ds !! i) as [q|] eqn:Hq; [|done]. injection Hx as <-.
    unfold fgtb in Hgt. apply fltb_finite in Hgt.
    eapply Qclt_le_trans; [exact Hgt|].
    by apply (proj1 (Forall_forall _ _) Hall q), (list_elem_of_lookup_2 _ i).
  - intros Hlt. apply list_elem_of_lookup_1 in Hin as [i Hi].
    exists i, (Finite largest). split; [by rewrite finite_array_lookup, Hi|].
    unfold fgtb. by apply fltb_finite.
Qed.

Lemma monitor_max_drift_decides_witness :
  target_weights half_half = finite_array [Q2Qc (1 # 2); Q2Qc (1 # 2)] /\
  drift_threshold half_half = Finite (Q2Qc (5 # 100)) /\
  Forall (fun v : Qc => (0 <= v)%Qc) [Q2Qc 80; Q2Qc 20] /\
  (0 < Qsum [Q2Qc 80; Q2Qc 20])%Qc /\
  exists (m : Monitoring) (largest average : Qc),
    monitor_portfolio half_half (finite_array [Q2Qc 80; Q2Qc 20]) None 0 = Ok m /\
    Max_Drift m = Finite largest /\
    Avg_Drift m = Finite average /\
    (Needs_Rebalancing m = true <-> (Q2Qc (5 # 100) < largest)%Qc).
Proof.
  assert (Ht : target_weights half_half = finite_array [Q2Qc (1 # 2); Q2Qc (1 # 2)])
    by reflexivity.
  assert (Hth : drift_threshold half_half = Finite (Q2Qc (5 # 100))) by reflexivity.
  assert (Hnonneg : Forall (fun v : Qc => (0 <= v)%Qc) [Q2Qc 80; Q2Qc 20])
    by (repeat constructor; by vm_compute).
  assert (Htotal : (0 < Qsum [Q2Qc 80; Q2Qc 20])%Qc) by (vm_compute; reflexivity).
  split; [exact Ht|]. split; [exact Hth|]. split; [exact Hnonneg|].
  split; [exact Htotal|].
  exact (monitor_max_drift_decides half_half [Q2Qc (1 # 2); Q2Qc (1 # 2)]
           [Q2Qc 80; Q2Qc 20] (Q2Qc (5 # 100)) None 0 Ht Hth eq_refl Hnonneg Htotal).
Defined.

End Drift_facts.
